(** * DG.DateTimeAxisViewHelper: calendar levels, label engine and tick layout

    A shallow embedding of [DG.DateTimeAxisViewHelper] (date-time axis of the
    CODAP graph component) together with the part of the JavaScript [Date]
    object the helper relies on.

    Conventions of the embedding
    - a time value is an integer number of milliseconds since the epoch ([Z]);
    - a JavaScript [Date] (or the number [NaN] standing where a date is
      expected) is an [option Z]: [None] is the invalid date;
    - the local calendar is fixed: local time and UTC coincide, there is no
      daylight-saving shift;
    - pixel coordinates and text extents are exact rationals ([Q]). *)

From Stdlib Require Import ZArith List Bool Lia String Ascii QArith Lqa.
From Stdlib Require Import DecimalString.
Import ListNotations.

Local Open Scope Z_scope.

(** ** The JavaScript Date object (ECMAScript, "Date Objects") *)

Module JSDate.

Definition msPerSecond : Z := 1000.
Definition msPerMinute : Z := 60000.
Definition msPerHour : Z := 3600000.
Definition msPerDay : Z := 86400000.

(** Largest magnitude of a time value: 8.64e15 ms. *)
Definition maxTime : Z := 8640000000000000.

Definition Day (t : Z) : Z := t / msPerDay.
Definition TimeWithinDay (t : Z) : Z := t mod msPerDay.

Definition isLeapYear (y : Z) : bool :=
  if negb (y mod 4 =? 0) then false
  else if negb (y mod 100 =? 0) then true
  else if negb (y mod 400 =? 0) then false
  else true.

Definition DaysInYear (y : Z) : Z := if isLeapYear y then 366 else 365.

Definition DayFromYear (y : Z) : Z :=
  365 * (y - 1970) + (y - 1969) / 4 - (y - 1901) / 100 + (y - 1601) / 400.

Definition TimeFromYear (y : Z) : Z := msPerDay * DayFromYear y.

(** The largest [y] with [DayFromYear y <= d]: a first guess from the mean
    length of a Gregorian year, corrected by at most one. *)
Definition YearFromDay (d : Z) : Z :=
  let y0 := 1970 + (d * 400) / 146097 in
  if d <? DayFromYear y0 then y0 - 1
  else if DayFromYear (y0 + 1) <=? d then y0 + 1
  else y0.

Definition YearFromTime (t : Z) : Z := YearFromDay (Day t).

Definition InLeapYear (t : Z) : Z :=
  if isLeapYear (YearFromTime t) then 1 else 0.

Definition DayWithinYear (t : Z) : Z := Day t - DayFromYear (YearFromTime t).

(** Month number (0 = January ... 11 = December) of day [dwy] of a year,
    [leap] being 1 in a leap year and 0 otherwise. *)
Definition MonthFromDayWithinYear (dwy leap : Z) : Z :=
  if dwy <? 31 then 0
  else if dwy <? 59 + leap then 1
  else if dwy <? 90 + leap then 2
  else if dwy <? 120 + leap then 3
  else if dwy <? 151 + leap then 4
  else if dwy <? 181 + leap then 5
  else if dwy <? 212 + leap then 6
  else if dwy <? 243 + leap then 7
  else if dwy <? 273 + leap then 8
  else if dwy <? 304 + leap then 9
  else if dwy <? 334 + leap then 10
  else 11.

Definition MonthFromTime (t : Z) : Z :=
  MonthFromDayWithinYear (DayWithinYear t) (InLeapYear t).

(** Number of days of the year that precede month [m] (0..11). *)
Definition DaysBeforeMonth (m leap : Z) : Z :=
  match m with
  | 0 => 0
  | 1 => 31
  | 2 => 59 + leap
  | 3 => 90 + leap
  | 4 => 120 + leap
  | 5 => 151 + leap
  | 6 => 181 + leap
  | 7 => 212 + leap
  | 8 => 243 + leap
  | 9 => 273 + leap
  | 10 => 304 + leap
  | _ => 334 + leap
  end.

Definition DateFromTime (t : Z) : Z :=
  DayWithinYear t - DaysBeforeMonth (MonthFromTime t) (InLeapYear t) + 1.

Definition HourFromTime (t : Z) : Z := (t / msPerHour) mod 24.
Definition MinFromTime (t : Z) : Z := (t / msPerMinute) mod 60.
Definition SecFromTime (t : Z) : Z := (t / msPerSecond) mod 60.
Definition msFromTime (t : Z) : Z := t mod msPerSecond.

Definition MakeTime (hour min sec ms : Z) : Z :=
  hour * msPerHour + min * msPerMinute + sec * msPerSecond + ms.

(** [MakeDay]: the day number of the first of month [month mod 12] in year
    [year + month / 12], moved by [date - 1] days. *)
Definition MakeDay (year month date : Z) : Z :=
  let ym := year + month / 12 in
  let mn := month mod 12 in
  DayFromYear ym + DaysBeforeMonth mn (if isLeapYear ym then 1 else 0)
  + date - 1.

Definition MakeDate (day time : Z) : Z := day * msPerDay + time.

Definition TimeClip (time : Z) : option Z :=
  if maxTime <? Z.abs time then None else Some time.

(** Years 0..99 given to the constructor mean 1900..1999. *)
Definition MakeFullYear (y : Z) : Z :=
  if (0 <=? y) && (y <=? 99) then 1900 + y else y.

(** [new Date(year, month, date, hours, minutes, seconds)]; the shorter
    forms of the constructor default [date] to 1 and the rest to 0. *)
Definition newDate (year month date hours minutes seconds : Z) : option Z :=
  TimeClip (MakeDate (MakeDay (MakeFullYear year) month date)
                     (MakeTime hours minutes seconds 0)).

(** [new Date(value)] for a numeric (or Date) value. *)
Definition newDateFromValue (v : option Z) : option Z :=
  match v with
  | Some t => TimeClip t
  | None => None
  end.

Definition getFullYear := YearFromTime.
Definition getMonth := MonthFromTime.
Definition getDate := DateFromTime.
Definition getHours := HourFromTime.
Definition getMinutes := MinFromTime.
Definition getSeconds := SecFromTime.

(** A time value a Date object can hold. *)
Definition validTime (t : Z) : Prop := - maxTime <= t <= maxTime.

End JSDate.

Import JSDate.

(** ** Calendar level model *)

Inductive EDateTimeLevel : Type :=
| eSecond | eMinute | eHour | eDay | eMonth | eYear.

Definition EDateTimeLevel_eq_dec (a b : EDateTimeLevel) : {a = b} + {a <> b}.
Proof. decide equality. Defined.

(** The integer code of a level, on which the source compares levels. *)
Definition levelCode (l : EDateTimeLevel) : Z :=
  match l with
  | eSecond => 0
  | eMinute => 1
  | eHour => 2
  | eDay => 3
  | eMonth => 4
  | eYear => 5
  end.

Definition level_ltb (a b : EDateTimeLevel) : bool := levelCode a <? levelCode b.
Definition level_leb (a b : EDateTimeLevel) : bool := levelCode a <=? levelCode b.

(** Coarseness order: [a] is at most as coarse as [b]. *)
Definition coarser_eq (a b : EDateTimeLevel) : Prop := levelCode a <= levelCode b.

Definition kSecond : Z := 1000.
Definition kMinute : Z := kSecond * 60.
Definition kHour : Z := kMinute * 60.
Definition kDay : Z := kHour * 24.
Definition kMonth : Z := kDay * 30.
Definition kYear : Z := kDay * 365.

Definition kMonthNames : list string :=
  [ "DG.Formula.DateShortMonthJanuary";
    "DG.Formula.DateShortMonthFebruary";
    "DG.Formula.DateShortMonthMarch";
    "DG.Formula.DateShortMonthApril";
    "DG.Formula.DateShortMonthMay";
    "DG.Formula.DateShortMonthJune";
    "DG.Formula.DateShortMonthJuly";
    "DG.Formula.DateShortMonthAugust";
    "DG.Formula.DateShortMonthSeptember";
    "DG.Formula.DateShortMonthOctober";
    "DG.Formula.DateShortMonthNovember";
    "DG.Formula.DateShortMonthDecember" ]%string.

(** ** Level resolver *)

Record LevelPair : Type := mkLevels {
  outerLevel : EDateTimeLevel;
  innerLevel : EDateTimeLevel
}.

Definition determineLevels (iMinDate iMaxDate : Z) : LevelPair :=
  let tDateDiff := iMaxDate - iMinDate in
  if tDateDiff <? 3 * kMinute then mkLevels eDay eSecond
  else if tDateDiff <? 3 * kHour then mkLevels eDay eMinute
  else if tDateDiff <? 3 * kDay then mkLevels eDay eHour
  else if tDateDiff <? 3 * kMonth then mkLevels eMonth eDay
  else if tDateDiff <? 3 * kYear then mkLevels eYear eMonth
  else mkLevels eYear eYear.

(** ** Calendar label engine *)

(** Outcome of a call that may raise a [TypeError] (calling [loc] on the
    [undefined] that indexing [kMonthNames] out of range returns). *)
Inductive completion (A : Type) : Type :=
| Normal (a : A)
| Throw.

Arguments Normal {A} a.
Arguments Throw {A}.

Definition bindC {A B : Type} (c : completion A) (k : A -> completion B)
  : completion B :=
  match c with
  | Normal a => k a
  | Throw => Throw
  end.

Notation "'do' x <- c ; k" := (bindC c (fun x => k))
  (at level 10, x name, c at level 100, k at level 200).

Record LabeledInstant : Type := mkLabel {
  labelString : string;
  labelDate : option Z
}.

(** [String(n)] for an integral number. *)
Definition StringOfZ (z : Z) : string := NilZero.string_of_int (Z.to_int z).

(** [String(v)] where [v] may be [NaN]. *)
Definition StringOfNumber (v : option Z) : string :=
  match v with
  | Some z => StringOfZ z
  | None => "NaN"
  end.

(** [a < b] on numbers: false as soon as one side is [NaN]. *)
Definition num_ltb (a b : option Z) : bool :=
  match a, b with
  | Some x, Some y => x <? y
  | _, _ => false
  end.

(** [v < 10 ? '0' + v : String(v)] *)
Definition twoDigits (v : option Z) : string :=
  if num_ltb v (Some 10) then ("0" ++ StringOfNumber v)%string
  else StringOfNumber v.

(** [while (lo > bound) { hi++; lo -= bound; }] *)
Fixpoint carryLoop (fuel : nat) (bound hi lo : Z) : Z * Z :=
  match fuel with
  | O => (hi, lo)
  | S fuel' =>
      if bound <? lo then carryLoop fuel' bound (hi + 1) (lo - bound)
      else (hi, lo)
  end.

(** The loop leaves after at most [lo] rounds when [bound] is positive. *)
Definition carry (bound hi lo : Z) : Z * Z :=
  carryLoop (Z.to_nat lo) bound hi lo.

Section LabelEngine.

(** Localization provider: [key.loc()]. *)
Variable loc : string -> string.

(** [Date.prototype.toLocaleDateString] of a valid date. *)
Variable toLocaleDateString : Z -> string.

Definition localeDateString (d : option Z) : string :=
  match d with
  | Some t => toLocaleDateString t
  | None => "Invalid Date"
  end.

(** [kMonthNames[i].loc()] *)
Definition monthName (i : option Z) : completion string :=
  match i with
  | Some m =>
      if m <? 0 then Throw
      else match nth_error kMonthNames (Z.to_nat m) with
           | Some key => Normal (loc key)
           | None => Throw
           end
  | None => Throw
  end.

(** Modelled from the spec: [DG.isDate] is not part of the sources; an
    invalid instant makes the level-label functions return their initial
    "invalid instant" marker.  [asDate iDate] is the time value of
    [iDate] after [if (!DG.isDate(iDate)) iDate = new Date(iDate)] when
    [DG.isDate(iDate)] then holds. *)
Definition asDate (iDate : option Z) : option Z := newDateFromValue iDate.

Definition getLevelLabelForValue (iLevel : EDateTimeLevel) (iDate : option Z)
  : completion LabeledInstant :=
  match asDate iDate with
  | None => Normal (mkLabel "" None)
  | Some t =>
      let tYear := getFullYear t in
      let tMonth := getMonth t in
      match iLevel with
      | eYear =>
          Normal (mkLabel (StringOfZ tYear) (newDate tYear 1 1 0 0 0))
      | eMonth =>
          let tLabelDate := newDate tYear tMonth 1 0 0 0 in
          do name <- monthName (Some tMonth);
          Normal (mkLabel (name ++ ", " ++ StringOfZ tYear) tLabelDate)
      | _ =>
          let tDay := getDate t in
          let tHour := if level_ltb iLevel eDay then getHours t else 0 in
          let tMinute := if level_ltb iLevel eHour then getMinutes t else 0 in
          let tSecond :=
            if level_ltb iLevel eMinute then getSeconds t else 0 in
          let tLabelDate := newDate tYear tMonth tDay tHour tMinute tSecond in
          Normal (mkLabel (localeDateString tLabelDate) tLabelDate)
      end
  end.

Definition getNextLevelLabelForValue (iLevel : EDateTimeLevel)
  (iDate : option Z) : completion LabeledInstant :=
  let tNextDate :=
    match asDate iDate with
    | None => None
    | Some t =>
        let tYear := getFullYear t in
        let tMonth := getMonth t in
        let tDayOfMonth := getDate t in
        let tHour := getHours t in
        let tMinute := getMinutes t in
        let tSecond := getSeconds t in
        let '(tYear, tMonth, tDayOfMonth, tHour, tMinute, tSecond) :=
          match iLevel with
          | eYear => (tYear + 1, tMonth, tDayOfMonth, tHour, tMinute, tSecond)
          | eMonth =>
              let tMonth := tMonth + 1 in
              if 12 <? tMonth
              then (tYear + 1, 1, tDayOfMonth, tHour, tMinute, tSecond)
              else (tYear, tMonth, tDayOfMonth, tHour, tMinute, tSecond)
          | eDay => (tYear, tMonth, tDayOfMonth + 1, tHour, tMinute, tSecond)
          | eHour =>
              let tHour := tHour + 1 in
              if 24 <? tHour
              then (tYear, tMonth, tDayOfMonth + 1, 0, tMinute, tSecond)
              else (tYear, tMonth, tDayOfMonth, tHour, tMinute, tSecond)
          | eMinute =>
              let tMinute := tMinute + 1 in
              if 60 <? tMinute
              then (tYear, tMonth, tDayOfMonth, tHour + 1, 0, tSecond)
              else (tYear, tMonth, tDayOfMonth, tHour, tMinute, tSecond)
          | eSecond =>
              let tSecond := tSecond + 1 in
              if 60 <? tSecond
              then (tYear, tMonth, tDayOfMonth, tHour, tMinute + 1, 0)
              else (tYear, tMonth, tDayOfMonth, tHour, tMinute, tSecond)
          end in
        if level_leb iLevel eHour
        then newDate tYear tMonth tDayOfMonth tHour tMinute tSecond
        else newDate tYear tMonth tDayOfMonth 0 0 0
    end in
  getLevelLabelForValue iLevel tNextDate.

Definition findFirstDateAboveOrAtLevel (iLevel : EDateTimeLevel)
  (iDate : option Z) : completion LabeledInstant :=
  match asDate iDate with
  | None => Normal (mkLabel "" None)
  | Some t =>
      let tYear := getFullYear t in
      let tMonth := getMonth t in
      let tDayOfMonth := getDate t in
      let tHour := getHours t in
      let tMinute := getMinutes t in
      let tSecond := getSeconds t in
      match iLevel with
      | eYear =>
          let tResultDate := newDate tYear 1 1 0 0 0 in
          if num_ltb tResultDate (Some t)
          then Normal (mkLabel (StringOfZ (tYear + 1))
                               (newDate (tYear + 1) 1 1 0 0 0))
          else Normal (mkLabel (StringOfZ tYear) tResultDate)
      | eMonth =>
          let tResultDate := newDate tYear tMonth 1 0 0 0 in
          let tResultDate :=
            if num_ltb tResultDate (Some t)
            then
              let tMonth := tMonth + 1 in
              if 12 <? tMonth then newDate (tYear + 1) 1 1 0 0 0
              else newDate tYear tMonth 1 0 0 0
            else tResultDate in
          do name <- monthName (option_map getMonth tResultDate);
          Normal (mkLabel name tResultDate)
      | eDay =>
          let tResultDate := newDate tYear tMonth tDayOfMonth 0 0 0 in
          let tResultDate :=
            if num_ltb tResultDate (Some t)
            then newDate tYear tMonth (tDayOfMonth + 1) 0 0 0
            else tResultDate in
          Normal (mkLabel (StringOfNumber (option_map getDate tResultDate))
                          tResultDate)
      | eHour =>
          let tResultDate := newDate tYear tMonth tDayOfMonth tHour 0 0 in
          let tResultDate :=
            if num_ltb tResultDate (Some t)
            then newDate tYear tMonth tDayOfMonth (tHour + 1) 0 0
            else tResultDate in
          Normal (mkLabel
                    (StringOfNumber (option_map getHours tResultDate)
                     ++ ":00")
                    tResultDate)
      | eMinute =>
          let tResultDate :=
            newDate tYear tMonth tDayOfMonth tHour tMinute 0 in
          let tResultDate :=
            if num_ltb tResultDate (Some t)
            then newDate tYear tMonth tDayOfMonth tHour (tMinute + 1) 0
            else tResultDate in
          Normal (mkLabel
                    (StringOfNumber (option_map getMinutes tResultDate))
                    tResultDate)
      | eSecond =>
          let tResultDate :=
            newDate tYear tMonth tDayOfMonth tHour tMinute tSecond in
          let tResultDate :=
            if num_ltb tResultDate (Some t)
            then newDate tYear tMonth tDayOfMonth tHour tMinute tSecond
            else tResultDate in
          Normal (mkLabel
                    (StringOfNumber (option_map getSeconds tResultDate))
                    tResultDate)
      end
  end.

Definition getLabelForIncrementedDateAtLevel (iLevel : EDateTimeLevel)
  (iDate : option Z) (iIncrementBy : Z) : completion LabeledInstant :=
  match asDate iDate with
  | None => Normal (mkLabel "" None)
  | Some t =>
      let tYear := getFullYear t in
      let tMonth := getMonth t in
      let tDayOfMonth := getDate t in
      let tHour := getHours t in
      let tMinute := getMinutes t in
      let tSecond := getSeconds t in
      match iLevel with
      | eYear =>
          let tYear := tYear + iIncrementBy in
          Normal (mkLabel (StringOfZ tYear) (newDate tYear 1 1 0 0 0))
      | eMonth =>
          let '(tYear, tMonth) := carry 12 tYear (tMonth + iIncrementBy) in
          let tResultDate := newDate tYear tMonth 1 0 0 0 in
          do name <- monthName (option_map getMonth tResultDate);
          Normal (mkLabel name tResultDate)
      | eDay =>
          let tResultDate :=
            newDate tYear tMonth (tDayOfMonth + iIncrementBy) 0 0 0 in
          Normal (mkLabel (StringOfNumber (option_map getDate tResultDate))
                          tResultDate)
      | eHour =>
          let '(tDayOfMonth, tHour) :=
            carry 24 tDayOfMonth (tHour + iIncrementBy) in
          let tResultDate := newDate tYear tMonth tDayOfMonth tHour 0 0 in
          Normal (mkLabel
                    (StringOfNumber (option_map getHours tResultDate)
                     ++ ":00")
                    tResultDate)
      | eMinute =>
          let tResultDate :=
            newDate tYear tMonth tDayOfMonth tHour
                    (tMinute + iIncrementBy) 0 in
          let tMinuteString :=
            twoDigits (option_map getMinutes tResultDate) in
          Normal (mkLabel (StringOfZ tHour ++ ":" ++ tMinuteString)
                          tResultDate)
      | eSecond =>
          let tResultDate :=
            newDate tYear tMonth tDayOfMonth tHour tMinute
                    (tSecond + iIncrementBy) in
          let tMinuteString := twoDigits (Some tMinute) in
          let tSecondString :=
            twoDigits (option_map getSeconds tResultDate) in
          Normal (mkLabel
                    (StringOfZ tHour ++ ":" ++ tMinuteString ++ ":"
                     ++ tSecondString)
                    tResultDate)
      end
  end.

End LabelEngine.

(** ** Tick layout engine and tick iterator *)

Inductive Orientation : Type := horizontal | vertical.

Definition Qltb (a b : Q) : bool := negb (Qle_bool b a).

(** [a < b] where [b] may still be [undefined]. *)
Definition lt_undef (a : Q) (b : option Q) : bool :=
  match b with
  | Some q => Qltb a q
  | None => false
  end.

Definition gt_undef (a : Q) (b : option Q) : bool :=
  match b with
  | Some q => Qltb q a
  | None => false
  end.

(** [tDate / 1000]: milliseconds to the seconds of the axis. *)
Definition toSeconds (t : Z) : Q := (inject_Z t / 1000)%Q.

(** A tick the stride search has placed: its pixel and the half width it
    reserved for the label. *)
Record PlacedTick : Type := mkPlaced {
  tickPixel : Q;
  tickHalfWidth : Q
}.

(** What one pass of the inner loop of the stride search ends with; the
    placed ticks are kept for the statements about the pass. *)
Inductive Simulation : Type :=
| FoundCollision (placed : list PlacedTick)
| NoCollision (placed : list PlacedTick)
| OutOfFuel.

(** A call of [drawTickAndLabel(iDateLabel, iDrawLabel)]. *)
Record DrawnTick : Type := mkDrawn {
  drawnLabel : LabeledInstant;
  drawnWithText : bool
}.

Section TickLayout.

Variable loc : string -> string.

(** The axis view: [dataToCoordinate], the measured width (the [x] of
    [textExtentOnCanvas]) of a label, the orientation and
    [1000 * upperBound]. *)
Variable dataToCoordinate : Q -> Q.
Variable textExtentX : string -> Q.
Variable tOrientation : Orientation.
Variable tUpperBounds : Z.

Definition halfWidth (tLabel : string) : Q := (5 * textExtentX tLabel / 8)%Q.

Definition overlapped (tPixel tHalfWidth : Q) (tLastPixelUsed : option Q)
  : bool :=
  match tOrientation with
  | horizontal => lt_undef (tPixel - tHalfWidth)%Q tLastPixelUsed
  | vertical => gt_undef (tPixel + tHalfWidth)%Q tLastPixelUsed
  end.

Definition lastPixel (tPixel tHalfWidth : Q) : Q :=
  match tOrientation with
  | horizontal => (tPixel + tHalfWidth)%Q
  | vertical => (tPixel + - tHalfWidth)%Q
  end.

(** The inner [while (!tFoundCollision && (tDate < tUpperBounds))] of
    [findDrawValueModulus]. *)
Fixpoint simulateTicks (fuel : nat) (iInnerLevel : EDateTimeLevel)
  (tInterval : Z) (tDate : option Z) (tLabel : string)
  (tLastPixelUsed : option Q) (tFirstTime : bool)
  (placed : list PlacedTick) : completion Simulation :=
  match fuel with
  | O => Normal OutOfFuel
  | S fuel' =>
      if num_ltb tDate (Some tUpperBounds) then
        match tDate with
        | None => Normal (NoCollision placed)
        | Some d =>
            let tPixel := dataToCoordinate (toSeconds d) in
            let tHalfWidth := halfWidth tLabel in
            let tOverlapped := overlapped tPixel tHalfWidth tLastPixelUsed in
            if tFirstTime || negb tOverlapped then
              do tCurrentDateLabel <-
                getLabelForIncrementedDateAtLevel loc iInnerLevel (Some d)
                                                  tInterval;
              simulateTicks fuel' iInnerLevel tInterval
                (labelDate tCurrentDateLabel) (labelString tCurrentDateLabel)
                (Some (lastPixel tPixel tHalfWidth)) false
                (placed ++ [mkPlaced tPixel tHalfWidth])
            else Normal (FoundCollision placed)
        end
      else Normal (NoCollision placed)
  end.

Definition simulateStride (fuel : nat) (iInnerLevel : EDateTimeLevel)
  (iFirstDateLabel : LabeledInstant) (tInterval : Z)
  : completion Simulation :=
  simulateTicks fuel iInnerLevel tInterval (labelDate iFirstDateLabel)
                (labelString iFirstDateLabel) None true [].

(** The outer [while (!tFoundWorkableInterval)]; [None] when the fuel does
    not suffice. *)
Fixpoint findModulusLoop (fuel simFuel : nat) (iInnerLevel : EDateTimeLevel)
  (iFirstDateLabel : LabeledInstant) (tInterval : Z)
  : completion (option Z) :=
  match fuel with
  | O => Normal None
  | S fuel' =>
      do pass <- simulateStride simFuel iInnerLevel iFirstDateLabel tInterval;
      match pass with
      | OutOfFuel => Normal None
      | FoundCollision _ =>
          findModulusLoop fuel' simFuel iInnerLevel iFirstDateLabel
                          (tInterval + 1)
      | NoCollision _ => Normal (Some tInterval)
      end
  end.

Definition findDrawValueModulus (fuel : nat) (iInnerLevel : EDateTimeLevel)
  (iFirstDateLabel : LabeledInstant) : completion (option Z) :=
  findModulusLoop fuel fuel iInnerLevel iFirstDateLabel 1.

(** The drawing loop of [drawInnerLabels], as the calls of
    [drawTickAndLabel] it makes. *)
Fixpoint drawLoop (fuel : nat) (iLevel : EDateTimeLevel)
  (tDateLabel : LabeledInstant) (tCounter tDrawValueModulus : Z)
  (drawn : list DrawnTick) : completion (option (list DrawnTick)) :=
  match fuel with
  | O => Normal None
  | S fuel' =>
      if num_ltb (labelDate tDateLabel) (Some tUpperBounds) then
        do tNext <-
          getLabelForIncrementedDateAtLevel loc iLevel (labelDate tDateLabel)
                                            1;
        drawLoop fuel' iLevel tNext
                 (Z.rem (tCounter + 1) tDrawValueModulus) tDrawValueModulus
                 (drawn ++ [mkDrawn tDateLabel (tCounter =? 0)])
      else Normal (Some drawn)
  end.

Definition drawInnerLabels (fuel : nat) (iLevel : EDateTimeLevel)
  (tLowerBounds : Z) : completion (option (list DrawnTick)) :=
  do tDateLabel <- findFirstDateAboveOrAtLevel loc iLevel (Some tLowerBounds);
  do modulus <- findDrawValueModulus fuel iLevel tDateLabel;
  match modulus with
  | None => Normal None
  | Some tDrawValueModulus =>
      do tDateLabel <-
        getLabelForIncrementedDateAtLevel loc iLevel (labelDate tDateLabel) 0;
      drawLoop fuel iLevel tDateLabel 0 tDrawValueModulus []
  end.

(** The [while] of [forEachTickDo]: the calls [iDoF(tValue, pixel)] made,
    in order. *)
Fixpoint tickLoop (fuel : nat) (iLevel : EDateTimeLevel) (tUpper : Z)
  (tDate : option Z) (visited : list (Z * Q))
  : completion (option (list (Z * Q))) :=
  match fuel with
  | O => Normal None
  | S fuel' =>
      if num_ltb tDate (Some tUpper) then
        match tDate with
        | None => Normal (Some visited)
        | Some tValue =>
            do tDateLabel <-
              getLabelForIncrementedDateAtLevel loc iLevel (Some tValue) 1;
            tickLoop fuel' iLevel tUpper (labelDate tDateLabel)
                     (visited
                      ++ [(tValue, dataToCoordinate (toSeconds tValue))])
        end
      else Normal (Some visited)
  end.

(** [forEachTickDo], [tLower] and [tUpper] being [1000 * lowerBound] and
    [1000 * upperBound]. *)
Definition forEachTickDo (fuel : nat) (tLower tUpper : Z)
  : completion (option (list (Z * Q))) :=
  let tLevels := determineLevels tLower tUpper in
  do tDateLabel <-
    findFirstDateAboveOrAtLevel loc (innerLevel tLevels) (Some tLower);
  tickLoop fuel (innerLevel tLevels) tUpper (labelDate tDateLabel) [].

End TickLayout.

(** ** Definitions used by the statements *)

(** The threshold table of the level resolver as the specification words it:
    the span is compared with three times the size of a unit in
    milliseconds (second = 1000, minute = 60 seconds, hour = 60 minutes,
    day = 24 hours, month = 30 days, year = 365 days). *)
Definition levelsForSpan (s : Z) : LevelPair :=
  if s <? 3 * 60000 then mkLevels eDay eSecond
  else if s <? 3 * 3600000 then mkLevels eDay eMinute
  else if s <? 3 * 86400000 then mkLevels eDay eHour
  else if s <? 3 * 30 * 86400000 then mkLevels eMonth eDay
  else if s <? 3 * 365 * 86400000 then mkLevels eYear eMonth
  else mkLevels eYear eYear.

(** An aligned instant of a level: every calendar field below the level has
    its least value. *)
Definition alignedb (level : EDateTimeLevel) (t : Z) : bool :=
  (msFromTime t =? 0)
  && (level_ltb level eMinute || (SecFromTime t =? 0))
  && (level_ltb level eHour || (MinFromTime t =? 0))
  && (level_ltb level eDay || (HourFromTime t =? 0))
  && (level_ltb level eMonth || (DateFromTime t =? 1))
  && (level_ltb level eYear || (MonthFromTime t =? 0)).

Definition aligned (level : EDateTimeLevel) (t : Z) : Prop :=
  alignedb level t = true.

(** The calendar fields of a date: year, month (0..11), day of the month,
    hours, minutes, seconds and milliseconds. *)
Record Fields : Type := mkFields {
  fYear : Z; fMonth : Z; fDate : Z;
  fHours : Z; fMinutes : Z; fSeconds : Z; fMillis : Z
}.

Definition fieldsOf (t : Z) : Fields :=
  mkFields (getFullYear t) (getMonth t) (getDate t)
           (getHours t) (getMinutes t) (getSeconds t) (msFromTime t).

(** The instant of an outcome. *)
Definition instantOf (c : completion LabeledInstant) : completion (option Z) :=
  do l <- c; Normal (labelDate l).

Definition textOf (c : completion LabeledInstant) : completion string :=
  do l <- c; Normal (labelString l).

(** A localization table that leaves every key as it is, which is what
    [loc] does with a key it has no entry for. *)
Definition locKey (key : string) : string := key.

(** The greatest multiple of [u] that is at most [t]. *)
Definition floorTo (u t : Z) : Z := u * (t / u).

(** Months counted from January of year 0. *)
Definition monthIndex (t : Z) : Z := 12 * YearFromTime t + MonthFromTime t.

(** The time value [getLabelForIncrementedDateAtLevel] hands to [TimeClip]. *)
Definition rawInc (level : EDateTimeLevel) (t n : Z) : Z :=
  let tYear := getFullYear t in
  let tMonth := getMonth t in
  let tDayOfMonth := getDate t in
  let tHour := getHours t in
  let tMinute := getMinutes t in
  let tSecond := getSeconds t in
  match level with
  | eYear => MakeDate (MakeDay (MakeFullYear (tYear + n)) 1 1) 0
  | eMonth =>
      let '(tYear, tMonth) := carry 12 tYear (tMonth + n) in
      MakeDate (MakeDay (MakeFullYear tYear) tMonth 1) 0
  | eDay => MakeDate (MakeDay (MakeFullYear tYear) tMonth (tDayOfMonth + n)) 0
  | eHour =>
      let '(tDayOfMonth, tHour) := carry 24 tDayOfMonth (tHour + n) in
      MakeDate (MakeDay (MakeFullYear tYear) tMonth tDayOfMonth)
               (MakeTime tHour 0 0 0)
  | eMinute =>
      MakeDate (MakeDay (MakeFullYear tYear) tMonth tDayOfMonth)
               (MakeTime tHour (tMinute + n) 0 0)
  | eSecond =>
      MakeDate (MakeDay (MakeFullYear tYear) tMonth tDayOfMonth)
               (MakeTime tHour tMinute (tSecond + n) 0)
  end.

(** The calendar step the increment is meant to make: [n] units after [t]
    rounded down to the level; at the year level the code lands on the first
    of month 1 (February). *)
Definition stepped (level : EDateTimeLevel) (t n : Z) : Z :=
  match level with
  | eYear => msPerDay * MakeDay (YearFromTime t + n) 1 1
  | eMonth => msPerDay * MakeDay 0 (monthIndex t + n) 1
  | eDay => floorTo msPerDay t + msPerDay * n
  | eHour => floorTo msPerHour t + msPerHour * n
  | eMinute => floorTo msPerMinute t + msPerMinute * n
  | eSecond => floorTo msPerSecond t + msPerSecond * n
  end.

(** [TimeClip] as the label functions see it: an unrepresentable date is the
    invalid date, on which the month level then fails to find a name. *)
Definition clipped (level : EDateTimeLevel) (v : Z) : completion (option Z) :=
  match TimeClip v with
  | Some r => Normal (Some r)
  | None => match level with
            | eMonth => Throw
            | _ => Normal None
            end
  end.

(** [toLocaleDateString] in the en-US locale: month/day/year. *)
Definition usDateString (t : Z) : string :=
  (StringOfZ (getMonth t + 1) ++ "/" ++ StringOfZ (getDate t) ++ "/"
   ++ StringOfZ (getFullYear t))%string.

(** The extent a placed tick reserves is [pixel - halfWidth, pixel + halfWidth];
    [a] is placed before [b]: along a horizontal axis the pixels grow, along a
    vertical axis they decrease. *)
Definition disjointExtents (o : Orientation) (a b : PlacedTick) : Prop :=
  match o with
  | horizontal =>
      (tickPixel a + tickHalfWidth a <= tickPixel b - tickHalfWidth b)%Q
  | vertical =>
      (tickPixel b + tickHalfWidth b <= tickPixel a - tickHalfWidth a)%Q
  end.

(** No two placed ticks overlap. *)
Definition separated (o : Orientation) (placed : list PlacedTick) : Prop :=
  ForallOrdPairs (disjointExtents o) placed.

(** The number of ticks a pass of the search has looked at. *)
Definition ticksSimulated (c : completion Simulation) : nat :=
  match c with
  | Normal (FoundCollision placed) => S (List.length placed)
  | Normal (NoCollision placed) => List.length placed
  | _ => 0
  end.

(** What is left of the span before the upper bound, in milliseconds. *)
Definition remaining (tUpper : Z) (tDate : option Z) : nat :=
  match tDate with
  | Some d => Z.to_nat (tUpper - d)
  | None => 0
  end.

(** An axis of ten seconds drawn one pixel per second, with labels all
    measured 6.4 pixels wide (or of no width at all). *)
Definition pixelPerSecond (seconds : Q) : Q := seconds.
Definition fixedExtent (s : string) : Q := 32 # 5.
Definition noExtent (s : string) : Q := 0.

(** The extent of a placed tick ends before the last pixel used. *)
Definition behindLast (o : Orientation) (tLastPixelUsed : option Q)
  (a : PlacedTick) : Prop :=
  match tLastPixelUsed with
  | Some last =>
      match o with
      | horizontal => (tickPixel a + tickHalfWidth a <= last)%Q
      | vertical => (last <= tickPixel a - tickHalfWidth a)%Q
      end
  | None => False
  end.

(** A stride from which on every pass of the search is accepted: its second
    tick is at or beyond the upper bound. *)
Definition widestStride (tUpperBounds : Z) (first : LabeledInstant) : Z :=
  match labelDate first with
  | Some d => Z.max 1 ((tUpperBounds - d) / 1000 + 2)
  | None => 1
  end.

(** Fuel that lets one pass of the search run to its end. *)
Definition passFuel (tUpperBounds : Z) (first : LabeledInstant) : nat :=
  S (S (remaining tUpperBounds (labelDate first))).

(** What the stride search guarantees for its outcome [r]: a failure can
    only be the [TypeError] of the month level; an accepted stride [k] is
    at least 1, every smaller stride ran into a collision, and the pass at
    stride [k] placed ticks no two of which overlap. *)
Definition strideAccepted (loc : string -> string) (dataToCoordinate : Q -> Q)
  (textExtentX : string -> Q) (o : Orientation) (tUpperBounds : Z)
  (level : EDateTimeLevel) (first : LabeledInstant)
  (r : completion (option Z)) : Prop :=
  match r with
  | Throw => level = eMonth
  | Normal None => False
  | Normal (Some k) =>
      1 <= k
      /\ (forall j, 1 <= j < k ->
          exists fuel placed,
            simulateStride loc dataToCoordinate textExtentX o tUpperBounds
                           fuel level first j
            = Normal (FoundCollision placed))
      /\ exists fuel placed,
          simulateStride loc dataToCoordinate textExtentX o tUpperBounds
                         fuel level first k
          = Normal (NoCollision placed)
          /\ separated o placed
  end.

(** A label measured 8 pixels per character, and an axis drawn 18 pixels
    per minute that starts at 2023-03-01 10:05:00 (1677665100 s). *)
Definition charExtent (s : string) : Q :=
  (8 * inject_Z (Z.of_nat (String.length s)))%Q.
Definition pixelFrom1005 (seconds : Q) : Q :=
  ((seconds - 1677665100) * (3 # 10))%Q.

(** The text of an inner tick at the instant [t], as the increment writes
    it: the year, the month name, the day of the month, [H:00], [H:MM] or
    [H:MM:SS]. *)
Definition innerTickText (loc : string -> string) (level : EDateTimeLevel)
  (t : Z) : string :=
  match level with
  | eYear => StringOfZ (getFullYear t)
  | eMonth => loc (nth (Z.to_nat (getMonth t)) kMonthNames ""%string)
  | eDay => StringOfZ (getDate t)
  | eHour => (StringOfZ (getHours t) ++ ":00")%string
  | eMinute =>
      (StringOfZ (getHours t) ++ ":" ++ twoDigits (Some (getMinutes t)))%string
  | eSecond =>
      (StringOfZ (getHours t) ++ ":" ++ twoDigits (Some (getMinutes t)) ++ ":"
       ++ twoDigits (Some (getSeconds t)))%string
  end.

From Stdlib Require Import Sorted.

(** ** The grid of a level

    The instants the label engine steps through at a level, numbered: seconds,
    minutes, hours and days since the epoch, months since January of year 0,
    and years.  At the year level the grid point of a year is the first day
    of month 1, as the code builds it. *)

Definition gridIndex (level : EDateTimeLevel) (t : Z) : Z :=
  match level with
  | eSecond => t / msPerSecond
  | eMinute => t / msPerMinute
  | eHour => t / msPerHour
  | eDay => t / msPerDay
  | eMonth => monthIndex t
  | eYear => YearFromTime t
  end.

Definition gridPoint (level : EDateTimeLevel) (k : Z) : Z :=
  match level with
  | eSecond => msPerSecond * k
  | eMinute => msPerMinute * k
  | eHour => msPerHour * k
  | eDay => msPerDay * k
  | eMonth => msPerDay * MakeDay 0 k 1
  | eYear => msPerDay * MakeDay k 1 1
  end.

(** Time values from year 100 on that stay more than a month clear of the
    end of the range of dates. *)
Definition farFromEnd (t : Z) : Prop := t + 32 * msPerDay <= maxTime.

(** The date an outcome carries: the invalid date when the call failed. *)
Definition dateOf (c : completion LabeledInstant) : option Z :=
  match c with
  | Normal l => labelDate l
  | Throw => None
  end.

(** The time value [getNextLevelLabelForValue] hands to [TimeClip] before it
    labels the result. *)
Definition nextRaw (level : EDateTimeLevel) (t : Z) : Z :=
  let tYear := getFullYear t in
  let tMonth := getMonth t in
  let tDayOfMonth := getDate t in
  let tHour := getHours t in
  let tMinute := getMinutes t in
  let tSecond := getSeconds t in
  match level with
  | eYear => MakeDate (MakeDay (MakeFullYear (tYear + 1)) tMonth tDayOfMonth) 0
  | eMonth => MakeDate (MakeDay (MakeFullYear tYear) (tMonth + 1) tDayOfMonth) 0
  | eDay => MakeDate (MakeDay (MakeFullYear tYear) tMonth (tDayOfMonth + 1)) 0
  | eHour =>
      MakeDate (MakeDay (MakeFullYear tYear) tMonth tDayOfMonth)
               (MakeTime (tHour + 1) tMinute tSecond 0)
  | eMinute =>
      MakeDate (MakeDay (MakeFullYear tYear) tMonth tDayOfMonth)
               (MakeTime tHour (tMinute + 1) tSecond 0)
  | eSecond =>
      MakeDate (MakeDay (MakeFullYear tYear) tMonth tDayOfMonth)
               (MakeTime tHour tMinute (tSecond + 1) 0)
  end.

(** What a visit of the tick iterator hands to the visitor: an instant
    below the upper bound, and its pixel. *)
Definition goodVisit (dataToCoordinate : Q -> Q) (tUpper : Z) (v : Z * Q)
  : Prop :=
  fst v < tUpper /\ snd v = dataToCoordinate (toSeconds (fst v)).

From Stdlib Require Import Qabs.

Local Open Scope Z_scope.

(** ** The outer labels and [drawTicks] *)

(** The [text-anchor] attribute of a label. *)
Inductive TextAnchor : Type := anchorStart | anchorMiddle.

(** A text element [drawOneOuterLabel] puts on the paper: the reference
    point, the string, the rotation in degrees and the anchor. *)
Record OuterLabel : Type := mkOuter {
  outerX : Q;
  outerY : Q;
  outerText : string;
  outerRotation : Z;
  outerAnchor : TextAnchor
}.

(** [Math.max] of two numbers. *)
Definition mathMax (a b : Q) : Q := if Qle_bool a b then b else a.

(** What a call of [drawTicks] does: nothing, set [maxNumberExtent] (and
    draw nothing), or draw outer labels and inner ticks. *)
Inductive TicksOutcome : Type :=
| NotReady
| ExtentSet (tMaxNumberExtent : Q)
| TicksDrawn (outer : list OuterLabel) (inner : list DrawnTick).

Section AxisView.

Variable loc : string -> string.
Variable toLocaleDateString : Z -> string.
Variable dataToCoordinate : Q -> Q.
Variable textExtentX : string -> Q.
Variable tOrientation : Orientation.

(** [1000 * lowerBound] and [1000 * upperBound], the pixel range of the
    axis, and the constants of the view: [kDefaultFontHeight] of
    [DG.RenderingUtilities], [kTickLength], [kAxisGap] and the width of the
    layout of the axis view. *)
Variables tLowerBoundsMS tUpperBoundsMS : Z.
Variables tPixelMin tPixelMax : Q.
Variables kDefaultFontHeight kTickLength kAxisGap layoutWidth : Q.

(** [drawOneOuterLabel(iCoord, tRefPoint, iLabelString, tRotation,
    iTextAnchor)]: [tRefPoint] has its [y] (horizontal axis) or its [x]
    (vertical axis) set once before the loop, and the other coordinate set
    by each call before the text is made. *)
Definition drawOneOuterLabel (iCoord : Q) (iLabelString : string)
  (iTextAnchor : TextAnchor) : OuterLabel :=
  match tOrientation with
  | horizontal =>
      mkOuter (iCoord + tPixelMin)
              ((3 # 2) * kDefaultFontHeight + kTickLength + kAxisGap)
              iLabelString 0 iTextAnchor
  | vertical =>
      mkOuter (layoutWidth - kAxisGap - kTickLength
               - (3 # 2) * kDefaultFontHeight)
              (iCoord + tPixelMax)
              iLabelString (-90) iTextAnchor
  end.

(** The pixel of the middle of the axis,
    [dataToCoordinate((tLowerBoundsSec + tUpperBoundsSec) / 2)]. *)
Definition middleCoord : Q :=
  dataToCoordinate
    ((toSeconds tLowerBoundsMS + toSeconds tUpperBoundsMS) / 2)%Q.

(** The [while (true)] of [drawOuterLabels]; [None] when the fuel does not
    suffice.  The branch of a label without a date followed by a label with
    a date is never taken ([next_of_invalid_date]). *)
Fixpoint outerLoop (fuel : nat) (iLevel : EDateTimeLevel)
  (tFirstLabelString : string) (tThisLabel : LabeledInstant)
  (tSomethingDrawn : bool) (drawn : list OuterLabel)
  : completion (option (list OuterLabel)) :=
  match fuel with
  | O => Normal None
  | S fuel' =>
      do tNextLabel <-
        getNextLevelLabelForValue loc toLocaleDateString iLevel
                                  (labelDate tThisLabel);
      match labelDate tNextLabel, labelDate tThisLabel with
      | None, _ => Normal (Some drawn)
      | Some _, None => Normal (Some drawn)
      | Some tNextDate, Some tThisDate =>
          if tUpperBoundsMS <? tThisDate then
            if tSomethingDrawn then Normal (Some drawn)
            else
              Normal (Some (drawn
                            ++ [drawOneOuterLabel middleCoord
                                  tFirstLabelString anchorMiddle]))
          else if tSomethingDrawn || (tNextDate <? tUpperBoundsMS) then
            let tCoord :=
              dataToCoordinate (mathMax (toSeconds tThisDate)
                                        (toSeconds tLowerBoundsMS)) in
            let tOKToDraw :=
              if tThisDate <? tLowerBoundsMS then
                let tNextCoord := dataToCoordinate (toSeconds tNextDate) in
                negb (Qltb (7 * Qabs (tNextCoord - tCoord) / 8)%Q
                           (textExtentX (labelString tNextLabel)))
              else true in
            outerLoop fuel' iLevel tFirstLabelString tNextLabel true
                      (if tOKToDraw
                       then drawn
                            ++ [drawOneOuterLabel tCoord
                                  (labelString tThisLabel) anchorStart]
                       else drawn)
          else
            outerLoop fuel' iLevel tFirstLabelString tNextLabel
                      tSomethingDrawn drawn
      end
  end.

Definition drawOuterLabels (fuel : nat) (iLevel : EDateTimeLevel)
  : completion (option (list OuterLabel)) :=
  do tThisLabel <-
    getLevelLabelForValue loc toLocaleDateString iLevel
                          (Some tLowerBoundsMS);
  outerLoop fuel iLevel (labelString tThisLabel) tThisLabel false [].

(** [drawTicks], for bounds that are set; [maxNumberExtent] is the property
    of the helper before the call ([None]: not yet set). *)
Definition drawTicks (fuel : nat) (maxNumberExtent : option Q)
  : completion (option TicksOutcome) :=
  let tLower := tLowerBoundsMS in
  let tUpper := tUpperBoundsMS in
  if tUpper =? tLower then Normal (Some NotReady)
  else
    let tLevels := determineLevels tLower tUpper in
    let tNumLevels :=
      if EDateTimeLevel_eq_dec (outerLevel tLevels) (innerLevel tLevels)
      then 1 else 2 in
    let tMaxNumberExtent := (inject_Z tNumLevels * kDefaultFontHeight)%Q in
    let same :=
      match maxNumberExtent with
      | Some e => Qeq_bool tMaxNumberExtent e
      | None => false
      end in
    if negb same then Normal (Some (ExtentSet tMaxNumberExtent))
    else
      do outer <-
        (if tNumLevels =? 2 then drawOuterLabels fuel (outerLevel tLevels)
         else Normal (Some []));
      do inner <-
        drawInnerLabels loc dataToCoordinate textExtentX tOrientation
                        tUpperBoundsMS fuel (innerLevel tLevels)
                        tLowerBoundsMS;
      match outer, inner with
      | Some o, Some i => Normal (Some (TicksDrawn o i))
      | _, _ => Normal None
      end.

End AxisView.

(** The labels [drawOuterLabels] anchors at their start, for a list of
    instants with their texts: each at the pixel of its instant. *)
Definition startLabels (dataToCoordinate : Q -> Q)
  (tOrientation : Orientation) (tPixelMin tPixelMax : Q)
  (kDefaultFontHeight kTickLength kAxisGap layoutWidth : Q)
  (labels : list (Z * string)) : list OuterLabel :=
  map (fun p =>
         drawOneOuterLabel tOrientation tPixelMin tPixelMax
           kDefaultFontHeight kTickLength kAxisGap layoutWidth
           (dataToCoordinate (toSeconds (fst p))) (snd p) anchorStart)
      labels.

(** * Properties *)

(** ** Facts on the calendar arithmetic of Date *)

Module CalendarFacts.

Lemma div_step a k :
  0 < k -> (a + 1) / k = a / k + if (a + 1) mod k =? 0 then 1 else 0.
Proof.
  intros Hk.
  destruct (Z.eqb_spec ((a + 1) mod k) 0); Z.div_mod_to_equations; nia.
Qed.

Lemma mod_4_100 y : y mod 4 = (y mod 100) mod 4.
Proof. symmetry. apply Z.mod_mod_divide. exists 25; lia. Qed.

Lemma mod_100_400 y : y mod 100 = (y mod 400) mod 100.
Proof. symmetry. apply Z.mod_mod_divide. exists 4; lia. Qed.

Lemma mod_shift y c k : 0 < k -> c mod k = 0 -> (y - c) mod k = y mod k.
Proof.
  intros Hk Hc. apply Z.mod_divide in Hc; [|lia]. destruct Hc as [q ->].
  replace (y - q * k) with (y + (- q) * k) by lia. apply Z.mod_add; lia.
Qed.

Lemma DayFromYear_step y :
  DayFromYear (y + 1) =
  DayFromYear y + 365 + (if y mod 4 =? 0 then 1 else 0)
  - (if y mod 100 =? 0 then 1 else 0) + (if y mod 400 =? 0 then 1 else 0).
Proof.
  unfold DayFromYear.
  replace (y + 1 - 1969) with (y - 1969 + 1) by lia.
  replace (y + 1 - 1901) with (y - 1901 + 1) by lia.
  replace (y + 1 - 1601) with (y - 1601 + 1) by lia.
  rewrite (div_step (y - 1969) 4), (div_step (y - 1901) 100),
    (div_step (y - 1601) 400) by reflexivity.
  replace (y - 1969 + 1) with (y - 1968) by lia.
  replace (y - 1901 + 1) with (y - 1900) by lia.
  replace (y - 1601 + 1) with (y - 1600) by lia.
  rewrite !mod_shift by reflexivity.
  destruct (y mod 4 =? 0), (y mod 100 =? 0), (y mod 400 =? 0); lia.
Qed.

Lemma DayFromYear_succ y : DayFromYear (y + 1) = DayFromYear y + DaysInYear y.
Proof.
  rewrite DayFromYear_step. unfold DaysInYear, isLeapYear.
  pose proof (mod_4_100 y) as H1. pose proof (mod_100_400 y) as H2.
  destruct (Z.eqb_spec (y mod 4) 0) as [e4|e4],
      (Z.eqb_spec (y mod 100) 0) as [e100|e100],
      (Z.eqb_spec (y mod 400) 0) as [e400|e400];
    cbn [negb]; try (clear; lia); exfalso.
  - rewrite e400 in H2. change (0 mod 100) with 0 in H2. congruence.
  - rewrite e100 in H1. change (0 mod 4) with 0 in H1. congruence.
  - rewrite H2, e400 in H1. change ((0 mod 100) mod 4) with 0 in H1.
    congruence.
Qed.

Lemma DaysInYear_bounds y : 365 <= DaysInYear y <= 366.
Proof. unfold DaysInYear. destruct (isLeapYear y); lia. Qed.

Lemma DayFromYear_grows y n :
  0 <= n -> DayFromYear y + 365 * n <= DayFromYear (y + n).
Proof.
  intros Hn. revert n Hn. apply natlike_ind.
  - replace (y + 0) with y by lia. lia.
  - intros n Hn IH. replace (y + Z.succ n) with (y + n + 1) by lia.
    rewrite DayFromYear_succ. pose proof (DaysInYear_bounds (y + n)). lia.
Qed.

Lemma DayFromYear_grows_le y n :
  0 <= n -> DayFromYear (y + n) <= DayFromYear y + 366 * n.
Proof.
  intros Hn. revert n Hn. apply natlike_ind.
  - replace (y + 0) with y by lia. lia.
  - intros n Hn IH. replace (y + Z.succ n) with (y + n + 1) by lia.
    rewrite DayFromYear_succ. pose proof (DaysInYear_bounds (y + n)). lia.
Qed.

Lemma DayFromYear_mono y y' : y <= y' -> DayFromYear y <= DayFromYear y'.
Proof.
  intros H. pose proof (DayFromYear_grows y (y' - y) ltac:(lia)) as G.
  replace (y + (y' - y)) with y' in G by lia. lia.
Qed.

Lemma DayFromYear_lt_inv y y' : DayFromYear y < DayFromYear y' -> y < y'.
Proof.
  intros H. destruct (Z_lt_le_dec y y') as [|Hle]; [assumption|].
  apply DayFromYear_mono in Hle. lia.
Qed.

Lemma YearFromDay_spec d :
  DayFromYear (YearFromDay d) <= d < DayFromYear (YearFromDay d + 1).
Proof.
  unfold YearFromDay. set (y0 := 1970 + d * 400 / 146097).
  destruct (Z.ltb_spec d (DayFromYear y0)) as [Hlt|Hge].
  - replace (y0 - 1 + 1) with y0 by lia. split; [|lia].
    unfold DayFromYear in *. subst y0. Z.div_mod_to_equations; lia.
  - destruct (Z.leb_spec (DayFromYear (y0 + 1)) d) as [Hle|Hgt]; [|lia].
    split; [lia|].
    unfold DayFromYear in *. subst y0. Z.div_mod_to_equations; lia.
Qed.

Lemma YearFromDay_unique d y :
  DayFromYear y <= d < DayFromYear (y + 1) -> YearFromDay d = y.
Proof.
  intros [H1 H2]. pose proof (YearFromDay_spec d) as [S1 S2].
  assert (y < YearFromDay d + 1) by (apply DayFromYear_lt_inv; lia).
  assert (YearFromDay d < y + 1) by (apply DayFromYear_lt_inv; lia).
  lia.
Qed.

Lemma YearFromDay_mono d d' : d <= d' -> YearFromDay d <= YearFromDay d'.
Proof.
  intros H. pose proof (YearFromDay_spec d) as [S1 _].
  pose proof (YearFromDay_spec d') as [_ S2].
  assert (YearFromDay d < YearFromDay d' + 1)
    by (apply DayFromYear_lt_inv; lia).
  lia.
Qed.

Lemma DayWithinYear_bounds t :
  0 <= DayWithinYear t < DaysInYear (YearFromTime t).
Proof.
  unfold DayWithinYear, YearFromTime.
  pose proof (YearFromDay_spec (Day t)) as [S1 S2].
  rewrite DayFromYear_succ in S2. lia.
Qed.

Lemma InLeapYear_DaysInYear t :
  DaysInYear (YearFromTime t) = 365 + InLeapYear t.
Proof. unfold DaysInYear, InLeapYear. destruct (isLeapYear _); lia. Qed.

Lemma InLeapYear_bounds t : 0 <= InLeapYear t <= 1.
Proof. unfold InLeapYear. destruct (isLeapYear _); lia. Qed.

(** Every branch of the month table, with the bounds it gives. *)
Lemma month_table dwy leap :
  0 <= leap <= 1 -> 0 <= dwy < 365 + leap ->
  let m := MonthFromDayWithinYear dwy leap in
  0 <= m <= 11 /\
  1 <= dwy - DaysBeforeMonth m leap + 1 <= 31 /\
  DaysBeforeMonth m leap <= dwy.
Proof.
  intros Hl Hd. unfold MonthFromDayWithinYear.
  repeat match goal with
         | |- context [?a <? ?b] => destruct (Z.ltb_spec a b)
         end; cbn [DaysBeforeMonth]; lia.
Qed.

Lemma MonthFromTime_bounds t : 0 <= MonthFromTime t <= 11.
Proof.
  unfold MonthFromTime.
  pose proof (DayWithinYear_bounds t) as Hd.
  rewrite InLeapYear_DaysInYear in Hd.
  apply (month_table _ _ (InLeapYear_bounds t) Hd).
Qed.

Lemma DateFromTime_bounds t : 1 <= DateFromTime t <= 31.
Proof.
  unfold DateFromTime, MonthFromTime.
  pose proof (DayWithinYear_bounds t) as Hd.
  rewrite InLeapYear_DaysInYear in Hd.
  apply (month_table _ _ (InLeapYear_bounds t) Hd).
Qed.

(** The calendar fields of a time value give back its day number. *)
Lemma MakeDay_fields t :
  MakeDay (YearFromTime t) (MonthFromTime t) (DateFromTime t) = Day t.
Proof.
  unfold MakeDay. pose proof (MonthFromTime_bounds t) as Hm.
  rewrite Z.div_small, Z.mod_small, Z.add_0_r by lia.
  unfold DateFromTime, DayWithinYear, InLeapYear. lia.
Qed.

(** Seconds, minutes, hours and days as successive quotients. *)
Lemma quotients t :
  t / msPerMinute = t / msPerSecond / 60 /\
  t / msPerHour = t / msPerSecond / 60 / 60 /\
  t / msPerDay = t / msPerSecond / 60 / 60 / 24.
Proof.
  unfold msPerMinute, msPerHour, msPerDay, msPerSecond.
  rewrite !Z.div_div by lia. auto.
Qed.

Lemma MakeTime_fields t :
  MakeTime (HourFromTime t) (MinFromTime t) (SecFromTime t) (msFromTime t)
  = TimeWithinDay t.
Proof.
  unfold MakeTime, HourFromTime, MinFromTime, SecFromTime, msFromTime,
    TimeWithinDay.
  rewrite (Z.mod_eq t msPerDay) by (unfold msPerDay; lia).
  destruct (quotients t) as (-> & -> & ->).
  unfold msPerSecond, msPerMinute, msPerHour, msPerDay.
  Z.div_mod_to_equations. lia.
Qed.

Lemma Day_TimeWithinDay t : MakeDate (Day t) (TimeWithinDay t) = t.
Proof.
  unfold MakeDate, Day, TimeWithinDay, msPerDay.
  Z.div_mod_to_equations. lia.
Qed.

Lemma time_fields_bounds t :
  0 <= HourFromTime t <= 23 /\ 0 <= MinFromTime t <= 59 /\
  0 <= SecFromTime t <= 59 /\ 0 <= msFromTime t <= 999.
Proof.
  unfold HourFromTime, MinFromTime, SecFromTime, msFromTime, msPerSecond.
  Z.div_mod_to_equations. lia.
Qed.

End CalendarFacts.

(** ** Level resolver *)

Section LevelResolver.

Lemma determineLevels_by_span (iMinDate iMaxDate : Z) :
  determineLevels iMinDate iMaxDate = levelsForSpan (iMaxDate - iMinDate).
Proof. reflexivity. Qed.

(** C2. For every pair of instants (in particular when [iMinDate <= iMaxDate])
    with span [s = iMaxDate - iMinDate], [determineLevels] returns the pair of
    the threshold table: (day, second) below 3 minutes, (day, minute) below
    3 hours, (day, hour) below 3 days, (month, day) below 3 months of 30
    days, (year, month) below 3 years of 365 days, (year, year) otherwise. *)
Theorem determineLevels_table (iMinDate iMaxDate : Z) :
  determineLevels iMinDate iMaxDate = levelsForSpan (iMaxDate - iMinDate).
Proof.
  unfold determineLevels, levelsForSpan, kYear, kMonth, kDay, kHour, kMinute,
    kSecond.
  repeat match goal with
         | |- context [?a <? ?b] => destruct (Z.ltb_spec a b); try lia
         end; reflexivity.
Qed.

Lemma levelsForSpan_ordered s :
  coarser_eq (innerLevel (levelsForSpan s)) (outerLevel (levelsForSpan s)).
Proof.
  unfold levelsForSpan, coarser_eq.
  repeat match goal with
         | |- context [?a <? ?b] => destruct (Z.ltb_spec a b)
         end; cbn; lia.
Qed.

Lemma levelsForSpan_monotone s1 s2 :
  s1 <= s2 ->
  coarser_eq (outerLevel (levelsForSpan s1)) (outerLevel (levelsForSpan s2))
  /\ coarser_eq (innerLevel (levelsForSpan s1))
                (innerLevel (levelsForSpan s2)).
Proof.
  intros H. unfold levelsForSpan, coarser_eq.
  repeat match goal with
         | |- context [?a <? ?b] => destruct (Z.ltb_spec a b)
         end; cbn; lia.
Qed.

(** C9. [determineLevels] returns an outer level at least as coarse as the
    inner level, and it is monotone in the span: when the span of
    [(min1, max1)] is at most the span of [(min2, max2)], the outer and the
    inner level chosen for the second pair are each at least as coarse as
    those chosen for the first. *)
Theorem determineLevels_ordered_monotone (min1 max1 min2 max2 : Z) :
  max1 - min1 <= max2 - min2 ->
  coarser_eq (innerLevel (determineLevels min1 max1))
             (outerLevel (determineLevels min1 max1))
  /\ coarser_eq (outerLevel (determineLevels min1 max1))
                (outerLevel (determineLevels min2 max2))
  /\ coarser_eq (innerLevel (determineLevels min1 max1))
                (innerLevel (determineLevels min2 max2)).
Proof.
  intros H. rewrite !determineLevels_by_span. split.
  - apply levelsForSpan_ordered.
  - apply levelsForSpan_monotone, H.
Qed.

Lemma determineLevels_ordered_monotone_witness :
  0 - 0 <= 1000000000000 - 90000
  /\ coarser_eq (innerLevel (determineLevels 0 0))
                (outerLevel (determineLevels 0 0))
  /\ coarser_eq (outerLevel (determineLevels 0 0))
                (outerLevel (determineLevels 90000 1000000000000))
  /\ coarser_eq (innerLevel (determineLevels 0 0))
                (innerLevel (determineLevels 90000 1000000000000)).
Proof.
  split; [lia|].
  apply (determineLevels_ordered_monotone 0 0 90000 1000000000000). lia.
Defined.

(** C10. [determineLevels] is invariant under translation: moving both
    instants by the same offset [d] leaves the chosen pair unchanged. *)
Theorem determineLevels_translation (iMinDate iMaxDate d : Z) :
  determineLevels (iMinDate + d) (iMaxDate + d)
  = determineLevels iMinDate iMaxDate.
Proof.
  rewrite !determineLevels_by_span. f_equal. lia.
Qed.

(** The scenario of the specification: a span of 90 seconds. *)
Example determineLevels_90s :
  determineLevels 1672531200000 (1672531200000 + 90000)
  = mkLevels eDay eSecond.
Proof. reflexivity. Qed.

End LevelResolver.

(** ** Facts on the label engine *)

Module LabelFacts.

Import CalendarFacts.

Lemma TimeClip_valid t : validTime t -> TimeClip t = Some t.
Proof.
  unfold validTime, TimeClip. intros H.
  destruct (Z.ltb_spec maxTime (Z.abs t)); [lia|reflexivity].
Qed.

Lemma TimeClip_Some v r : TimeClip v = Some r -> r = v /\ validTime v.
Proof.
  unfold TimeClip, validTime.
  destruct (Z.ltb_spec maxTime (Z.abs v)); [discriminate|].
  intros [= <-]. split; [reflexivity|lia].
Qed.

Lemma TimeClip_None v : TimeClip v = None -> maxTime < v \/ v < - maxTime.
Proof.
  unfold TimeClip.
  destruct (Z.ltb_spec maxTime (Z.abs v)); [lia|discriminate].
Qed.

Lemma MakeFullYear_ge y : y <= MakeFullYear y.
Proof.
  unfold MakeFullYear.
  destruct (Z.leb_spec 0 y), (Z.leb_spec y 99); cbn [andb]; lia.
Qed.

Lemma MakeFullYear_id y : 100 <= y -> MakeFullYear y = y.
Proof.
  unfold MakeFullYear. intros H.
  destruct (Z.leb_spec 0 y), (Z.leb_spec y 99); cbn [andb]; lia.
Qed.

Lemma MakeDay_date y m d k : MakeDay y m (d + k) = MakeDay y m d + k.
Proof. unfold MakeDay. lia. Qed.

Lemma DaysBeforeMonth_leap m l : 
  0 <= m <= 11 -> 0 <= l <= 1 ->
  DaysBeforeMonth m 0 <= DaysBeforeMonth m l <= DaysBeforeMonth m 0 + 1
  /\ 0 <= DaysBeforeMonth m 0 <= 334.
Proof.
  intros Hm Hl.
  assert (m = 0 \/ m = 1 \/ m = 2 \/ m = 3 \/ m = 4 \/ m = 5 \/ m = 6
          \/ m = 7 \/ m = 8 \/ m = 9 \/ m = 10 \/ m = 11) as C by lia.
  repeat (destruct C as [-> | C]; [unfold DaysBeforeMonth; lia|]).
  subst. unfold DaysBeforeMonth. lia.
Qed.

Lemma leap_flag_bounds y : 0 <= (if isLeapYear y then 1 else 0) <= 1.
Proof. destruct (isLeapYear y); lia. Qed.

(** A later year never gives an earlier day. *)
Lemma MakeDay_year_mono y y' m d : y <= y' -> MakeDay y m d <= MakeDay y' m d.
Proof.
  intros H. unfold MakeDay.
  assert (Hm : 0 <= m mod 12 <= 11) by (Z.div_mod_to_equations; lia).
  pose proof (DaysBeforeMonth_leap _ _ Hm (leap_flag_bounds (y + m / 12))).
  pose proof (DaysBeforeMonth_leap _ _ Hm (leap_flag_bounds (y' + m / 12))).
  destruct (Z.eq_dec y y') as [->|Hne]; [lia|].
  pose proof (DayFromYear_grows (y + m / 12) (y' - y) ltac:(lia)) as G.
  replace (y + m / 12 + (y' - y)) with (y' + m / 12) in G by lia.
  lia.
Qed.

Lemma MakeDay_months y m d : MakeDay y m d = MakeDay 0 (12 * y + m) d.
Proof.
  unfold MakeDay.
  replace ((12 * y + m) / 12) with (y + m / 12)
    by (Z.div_mod_to_equations; lia).
  replace ((12 * y + m) mod 12) with (m mod 12)
    by (Z.div_mod_to_equations; lia).
  reflexivity.
Qed.

(** *** The carry loops *)

Lemma carryLoop_spec fuel bound hi lo :
  0 < bound -> (lo <= Z.of_nat fuel)%Z ->
  let r := carryLoop fuel bound hi lo in
  bound * fst r + snd r = bound * hi + lo
  /\ hi <= fst r
  /\ (lo <= bound -> r = (hi, lo))
  /\ (bound < lo -> 0 < snd r <= bound).
Proof.
  intros Hb. revert hi lo.
  induction fuel as [|fuel IH]; intros hi lo Hf; cbn [carryLoop].
  - cbn. repeat split; lia.
  - destruct (Z.ltb_spec bound lo) as [Hlt|Hge].
    + specialize (IH (hi + 1) (lo - bound) ltac:(lia)).
      cbv zeta in IH. destruct IH as (E & L & Same & Loop).
      split; [lia|]. split; [lia|]. split; [lia|]. intros _.
      destruct (Z_lt_le_dec bound (lo - bound)) as [Hl|Hl].
      * apply Loop, Hl.
      * rewrite (Same Hl). cbn. lia.
    + cbn. repeat split; lia.
Qed.

Lemma carry_spec bound hi lo :
  0 < bound ->
  let r := carry bound hi lo in
  bound * fst r + snd r = bound * hi + lo
  /\ hi <= fst r
  /\ (lo <= bound -> r = (hi, lo))
  /\ (bound < lo -> 0 < snd r <= bound).
Proof.
  intros Hb. unfold carry. apply carryLoop_spec; [assumption|lia].
Qed.

(** *** Rounding down to a unit, by calendar fields *)

Lemma floorTo_fields t :
  floorTo msPerDay t = msPerDay * Day t
  /\ floorTo msPerHour t = msPerDay * Day t + msPerHour * HourFromTime t
  /\ floorTo msPerMinute t =
       msPerDay * Day t + msPerHour * HourFromTime t
       + msPerMinute * MinFromTime t
  /\ floorTo msPerSecond t =
       msPerDay * Day t + msPerHour * HourFromTime t
       + msPerMinute * MinFromTime t + msPerSecond * SecFromTime t
  /\ t = floorTo msPerSecond t + msFromTime t.
Proof.
  unfold floorTo, Day, HourFromTime, MinFromTime, SecFromTime, msFromTime.
  rewrite (Z.mod_eq t msPerSecond) by (unfold msPerSecond; lia).
  destruct (quotients t) as (-> & -> & ->).
  unfold msPerSecond, msPerMinute, msPerHour, msPerDay.
  Z.div_mod_to_equations. lia.
Qed.

Lemma floorTo_le u t : 0 < u -> floorTo u t <= t < floorTo u t + u.
Proof. intros H. unfold floorTo. Z.div_mod_to_equations. nia. Qed.

Lemma floorTo_multiple u k : 0 < u -> floorTo u (u * k) = u * k.
Proof.
  intros H. unfold floorTo. rewrite (Z.mul_comm u k), Z.div_mul by lia. lia.
Qed.

Lemma floorTo_add u t k : 0 < u -> floorTo u (t + u * k) = floorTo u t + u * k.
Proof.
  intros H. unfold floorTo.
  rewrite (Z.mul_comm u k), Z.div_add by lia. lia.
Qed.

End LabelFacts.

(** ** Months and years as steps *)

Module StepFacts.

Import CalendarFacts LabelFacts.

Lemma Day_of_days d : Day (msPerDay * d) = d.
Proof.
  unfold Day. rewrite Z.mul_comm, Z.div_mul; [reflexivity|].
  unfold msPerDay. lia.
Qed.

Lemma split_months M :
  exists q r, M = 12 * q + r /\ 0 <= r <= 11 /\ M / 12 = q /\ M mod 12 = r.
Proof.
  exists (M / 12), (M mod 12). Z.div_mod_to_equations. lia.
Qed.

Lemma months_div q r : 0 <= r <= 11 -> (12 * q + r) / 12 = q.
Proof. intros H. Z.div_mod_to_equations. lia. Qed.

Lemma months_mod q r : 0 <= r <= 11 -> (12 * q + r) mod 12 = r.
Proof. intros H. Z.div_mod_to_equations. lia. Qed.

Lemma MakeDay_month_start q r :
  0 <= r <= 11 ->
  MakeDay 0 (12 * q + r) 1 =
  DayFromYear q + DaysBeforeMonth r (if isLeapYear q then 1 else 0).
Proof.
  intros Hr. unfold MakeDay.
  rewrite months_div, months_mod by assumption.
  replace (0 + q) with q by lia. lia.
Qed.

(** First days of consecutive months are 28 to 31 days apart. *)
Lemma month_length M : 28 <= MakeDay 0 (M + 1) 1 - MakeDay 0 M 1 <= 31.
Proof.
  destruct (split_months M) as (q & r & -> & Hr & _ & _).
  rewrite (MakeDay_month_start q r Hr).
  pose proof (leap_flag_bounds q) as Hl.
  assert (r = 11 \/ 0 <= r + 1 <= 11) as [->|Hr1] by lia.
  - replace (12 * q + 11 + 1) with (12 * (q + 1) + 0) by lia.
    rewrite MakeDay_month_start by lia.
    rewrite DayFromYear_succ. unfold DaysInYear, DaysBeforeMonth.
    destruct (isLeapYear q); lia.
  - replace (12 * q + r + 1) with (12 * q + (r + 1)) by lia.
    rewrite MakeDay_month_start by lia.
    assert (r = 0 \/ r = 1 \/ r = 2 \/ r = 3 \/ r = 4 \/ r = 5 \/ r = 6
            \/ r = 7 \/ r = 8 \/ r = 9 \/ r = 10) as C by lia.
    repeat (destruct C as [-> | C]; [cbn [Z.add Pos.add Pos.succ]; unfold DaysBeforeMonth; lia|]).
    subst. cbn [Z.add Pos.add Pos.succ]. unfold DaysBeforeMonth. lia.
Qed.

Lemma month_start_grows M n :
  0 <= n -> MakeDay 0 M 1 + 28 * n <= MakeDay 0 (M + n) 1.
Proof.
  intros Hn. revert n Hn. apply natlike_ind.
  - replace (M + 0) with M by lia. lia.
  - intros n Hn IH. replace (M + Z.succ n) with (M + n + 1) by lia.
    pose proof (month_length (M + n)). lia.
Qed.

Lemma month_start_mono M M' : M <= M' -> MakeDay 0 M 1 <= MakeDay 0 M' 1.
Proof.
  intros H. pose proof (month_start_grows M (M' - M) ltac:(lia)) as G.
  replace (M + (M' - M)) with M' in G by lia. lia.
Qed.

(** The month table read backwards, at the first day of a month. *)
Lemma month_table_start m leap :
  0 <= m <= 11 -> 0 <= leap <= 1 ->
  MonthFromDayWithinYear (DaysBeforeMonth m leap) leap = m.
Proof.
  intros Hm Hl.
  assert (m = 0 \/ m = 1 \/ m = 2 \/ m = 3 \/ m = 4 \/ m = 5 \/ m = 6
          \/ m = 7 \/ m = 8 \/ m = 9 \/ m = 10 \/ m = 11) as C by lia.
  assert (leap = 0 \/ leap = 1) as [->| ->] by lia;
    repeat (destruct C as [-> | C]; [reflexivity|]); subst; reflexivity.
Qed.

Lemma YearFromDay_within y k :
  0 <= k < 365 -> YearFromDay (DayFromYear y + k) = y.
Proof.
  intros Hk. apply YearFromDay_unique. rewrite DayFromYear_succ.
  pose proof (DaysInYear_bounds y). lia.
Qed.

(** The fields of the first day of a month. *)
Lemma fields_of_month_start M :
  let t := msPerDay * MakeDay 0 M 1 in
  YearFromTime t = M / 12 /\ MonthFromTime t = M mod 12
  /\ monthIndex t = M.
Proof.
  destruct (split_months M) as (q & r & HM & Hr & Hq & Hrm).
  cbv zeta. rewrite Hq, Hrm.
  pose proof (leap_flag_bounds q) as Hl.
  pose proof (DaysBeforeMonth_leap r _ Hr Hl) as Hb.
  assert (Y : YearFromTime (msPerDay * MakeDay 0 M 1) = q).
  { unfold YearFromTime. rewrite Day_of_days. subst M.
    rewrite MakeDay_month_start by assumption.
    apply YearFromDay_within. lia. }
  assert (Mo : MonthFromTime (msPerDay * MakeDay 0 M 1) = r).
  { unfold MonthFromTime, DayWithinYear, InLeapYear. rewrite Y.
    rewrite Day_of_days. subst M.
    rewrite MakeDay_month_start by assumption.
    replace (DayFromYear q + DaysBeforeMonth r (if isLeapYear q then 1 else 0)
             - DayFromYear q)
      with (DaysBeforeMonth r (if isLeapYear q then 1 else 0)) by lia.
    apply month_table_start; assumption. }
  unfold monthIndex. rewrite Y, Mo. lia.
Qed.

Lemma MakeDay_feb_first y : MakeDay y 1 1 = DayFromYear y + 31.
Proof.
  unfold MakeDay. change (1 / 12) with 0. change (1 mod 12) with 1.
  replace (y + 0) with y by lia. unfold DaysBeforeMonth. lia.
Qed.

Lemma year_of_feb_first y : YearFromTime (msPerDay * MakeDay y 1 1) = y.
Proof.
  unfold YearFromTime. rewrite Day_of_days, MakeDay_feb_first.
  apply YearFromDay_within. lia.
Qed.

(** The first day of the month of [t], and of the month after. *)
Lemma month_of_time t :
  MakeDay 0 (monthIndex t) 1 = Day t - (DateFromTime t - 1)
  /\ Day t < MakeDay 0 (monthIndex t + 1) 1.
Proof.
  assert (E : MakeDay 0 (monthIndex t) 1 = Day t - (DateFromTime t - 1)).
  { unfold monthIndex. rewrite <- MakeDay_months.
    pose proof (MakeDay_fields t) as F.
    replace (DateFromTime t) with (1 + (DateFromTime t - 1)) in F by lia.
    rewrite MakeDay_date in F. lia. }
  split; [exact E|].
  pose proof (MonthFromTime_bounds t) as Hm.
  pose proof (DayWithinYear_bounds t) as Hd.
  rewrite InLeapYear_DaysInYear in Hd.
  pose proof (InLeapYear_bounds t) as Hl.
  unfold monthIndex.
  assert (MonthFromTime t = 11 \/ 0 <= MonthFromTime t + 1 <= 11)
    as [E11|Hlt] by lia.
  - rewrite E11.
    replace (12 * YearFromTime t + 11 + 1)
      with (12 * (YearFromTime t + 1) + 0) by lia.
    rewrite MakeDay_month_start by lia.
    rewrite DayFromYear_succ, InLeapYear_DaysInYear.
    unfold DaysBeforeMonth. unfold DayWithinYear in Hd. lia.
  - replace (12 * YearFromTime t + MonthFromTime t + 1)
      with (12 * YearFromTime t + (MonthFromTime t + 1)) by lia.
    rewrite MakeDay_month_start by lia.
    fold (InLeapYear t).
    unfold MonthFromTime in *. unfold DayWithinYear in *.
    set (dwy := Day t - DayFromYear (YearFromTime t)) in *.
    set (leap := InLeapYear t) in *.
    assert (dwy < DaysBeforeMonth (MonthFromDayWithinYear dwy leap + 1) leap);
      [|lia].
    clearbody dwy leap. clear E Hm. revert Hlt.
    unfold MonthFromDayWithinYear.
    repeat match goal with
           | |- context [?a <? ?b] => destruct (Z.ltb_spec a b)
           end; cbn [Z.add Pos.add Pos.succ]; unfold DaysBeforeMonth; lia.
Qed.

End StepFacts.

(** ** The increment of an instant *)

Section Increment.

Import CalendarFacts LabelFacts StepFacts.

Variable loc : string -> string.

Lemma monthName_of_month t :
  monthName loc (Some (MonthFromTime t))
  = Normal (loc (nth (Z.to_nat (MonthFromTime t)) kMonthNames ""%string)).
Proof.
  pose proof (MonthFromTime_bounds t) as Hm.
  assert (MonthFromTime t = 0 \/ MonthFromTime t = 1 \/ MonthFromTime t = 2
          \/ MonthFromTime t = 3 \/ MonthFromTime t = 4
          \/ MonthFromTime t = 5 \/ MonthFromTime t = 6
          \/ MonthFromTime t = 7 \/ MonthFromTime t = 8
          \/ MonthFromTime t = 9 \/ MonthFromTime t = 10
          \/ MonthFromTime t = 11) as C by lia.
  repeat (destruct C as [E | C]; [rewrite E; reflexivity|]).
  rewrite C. reflexivity.
Qed.

(** The instant of an increment is the clipped raw increment. *)
Lemma inc_raw level t n :
  validTime t ->
  instantOf (getLabelForIncrementedDateAtLevel loc level (Some t) n)
  = clipped level (rawInc level t n).
Proof.
  intros Hv. unfold getLabelForIncrementedDateAtLevel, asDate,
    newDateFromValue, clipped, rawInc, newDate.
  rewrite (TimeClip_valid t Hv).
  destruct level; cbv zeta.
  - (* second *)
    destruct (TimeClip _); reflexivity.
  - destruct (TimeClip _); reflexivity.
  - destruct (carry 24 _ _) as [d' h'].
    destruct (TimeClip _); reflexivity.
  - destruct (TimeClip _); reflexivity.
  - destruct (carry 12 _ _) as [y' m'].
    change (MakeTime 0 0 0 0) with 0.
    destruct (TimeClip _) as [r|]; [|reflexivity].
    cbn [option_map]. unfold getMonth.
    rewrite (monthName_of_month r). reflexivity.
  - destruct (TimeClip _); reflexivity.
Qed.

Lemma year_remap_day t d' :
  let y := YearFromTime t in
  let m := MonthFromTime t in
  Day t + (d' - DateFromTime t) <= MakeDay (MakeFullYear y) m d'
  /\ (~ 0 <= y <= 99 ->
      MakeDay (MakeFullYear y) m d' = Day t + (d' - DateFromTime t)).
Proof.
  cbv zeta. pose proof (MakeDay_fields t) as F.
  assert (G : forall y, MakeDay y (MonthFromTime t) d'
                        = MakeDay y (MonthFromTime t) (DateFromTime t)
                          + (d' - DateFromTime t)).
  { intros y. rewrite <- MakeDay_date. f_equal. lia. }
  split.
  - rewrite G.
    pose proof (MakeDay_year_mono _ _ (MonthFromTime t) (DateFromTime t)
                  (MakeFullYear_ge (YearFromTime t))). lia.
  - intros Hy. rewrite G.
    replace (MakeFullYear (YearFromTime t)) with (YearFromTime t); [lia|].
    unfold MakeFullYear.
    destruct (Z.leb_spec 0 (YearFromTime t)),
      (Z.leb_spec (YearFromTime t) 99); cbn [andb]; lia.
Qed.

(** The raw increment never falls short of the calendar step (years 0 to
    99 are moved to 1900 to 1999) ... *)
Lemma rawInc_ge_stepped level t n : stepped level t n <= rawInc level t n.
Proof.
  unfold rawInc, stepped, getFullYear, getMonth, getDate, getHours,
    getMinutes, getSeconds.
  destruct (floorTo_fields t) as (FD & FH & FM & FS & _).
  destruct level; cbv zeta.
  - pose proof (proj1 (year_remap_day t (DateFromTime t))) as R.
    cbv zeta in R. rewrite FS. unfold MakeDate, MakeTime.
    unfold msPerDay, msPerHour, msPerMinute, msPerSecond in *. lia.
  - pose proof (proj1 (year_remap_day t (DateFromTime t))) as R.
    cbv zeta in R. rewrite FM. unfold MakeDate, MakeTime.
    unfold msPerDay, msPerHour, msPerMinute, msPerSecond in *. lia.
  - pose proof (carry_spec 24 (DateFromTime t) (HourFromTime t + n)
                  ltac:(lia)) as C.
    destruct (carry 24 _ _) as [d' h']. cbv zeta in C. cbn [fst snd] in C.
    destruct C as (E & _).
    pose proof (proj1 (year_remap_day t d')) as R.
    cbv zeta in R. rewrite FH. unfold MakeDate, MakeTime.
    unfold msPerDay, msPerHour, msPerMinute, msPerSecond in *. lia.
  - pose proof (proj1 (year_remap_day t (DateFromTime t + n))) as R.
    cbv zeta in R. rewrite FD. unfold MakeDate.
    unfold msPerDay in *. lia.
  - pose proof (carry_spec 12 (YearFromTime t) (MonthFromTime t + n)
                  ltac:(lia)) as C.
    destruct (carry 12 _ _) as [y' m']. cbv zeta in C. cbn [fst snd] in C.
    destruct C as (E & _).
    pose proof (MakeDay_year_mono _ _ m' 1 (MakeFullYear_ge y')) as Mo.
    rewrite (MakeDay_months y' m' 1) in Mo.
    replace (12 * y' + m') with (monthIndex t + n) in Mo
      by (unfold monthIndex; lia).
    unfold MakeDate, msPerDay. lia.
  - pose proof (MakeDay_year_mono _ _ 1 1
                  (MakeFullYear_ge (YearFromTime t + n))) as Mo.
    unfold MakeDate, msPerDay. lia.
Qed.

(** ... and is the calendar step from year 100 on. *)
Lemma rawInc_stepped level t n :
  100 <= YearFromTime t -> 0 <= n -> rawInc level t n = stepped level t n.
Proof.
  intros Hy Hn.
  unfold rawInc, stepped, getFullYear, getMonth, getDate, getHours,
    getMinutes, getSeconds.
  destruct (floorTo_fields t) as (FD & FH & FM & FS & _).
  assert (Hy' : ~ 0 <= YearFromTime t <= 99) by lia.
  destruct level; cbv zeta.
  - pose proof (proj2 (year_remap_day t (DateFromTime t)) Hy') as R.
    rewrite R, FS. unfold MakeDate, MakeTime.
    unfold msPerDay, msPerHour, msPerMinute, msPerSecond in *. lia.
  - pose proof (proj2 (year_remap_day t (DateFromTime t)) Hy') as R.
    rewrite R, FM. unfold MakeDate, MakeTime.
    unfold msPerDay, msPerHour, msPerMinute, msPerSecond in *. lia.
  - pose proof (carry_spec 24 (DateFromTime t) (HourFromTime t + n)
                  ltac:(lia)) as C.
    destruct (carry 24 _ _) as [d' h']. cbv zeta in C. cbn [fst snd] in C.
    destruct C as (E & _).
    pose proof (proj2 (year_remap_day t d') Hy') as R.
    rewrite R, FH. unfold MakeDate, MakeTime.
    unfold msPerDay, msPerHour, msPerMinute, msPerSecond in *. lia.
  - pose proof (proj2 (year_remap_day t (DateFromTime t + n)) Hy') as R.
    rewrite R, FD. unfold MakeDate.
    unfold msPerDay in *. lia.
  - pose proof (carry_spec 12 (YearFromTime t) (MonthFromTime t + n)
                  ltac:(lia)) as C.
    destruct (carry 12 _ _) as [y' m']. cbv zeta in C. cbn [fst snd] in C.
    destruct C as (E & L & _).
    rewrite MakeFullYear_id by lia.
    rewrite (MakeDay_months y' m' 1).
    replace (12 * y' + m') with (monthIndex t + n)
      by (unfold monthIndex; lia).
    unfold MakeDate, msPerDay. lia.
  - rewrite MakeFullYear_id by lia.
    unfold MakeDate, msPerDay. lia.
Qed.

End Increment.

(** ** Calendar steps: growth and composition *)

Module SteppedFacts.

Import CalendarFacts LabelFacts StepFacts.

Lemma Day_mono t t' : t <= t' -> Day t <= Day t'.
Proof. intros H. unfold Day. apply Z.div_le_mono; [reflexivity|exact H]. Qed.

Lemma YearFromTime_mono t t' : t <= t' -> YearFromTime t <= YearFromTime t'.
Proof. intros H. apply YearFromDay_mono, Day_mono, H. Qed.

(** A step of [n >= 1] units passes [t] by more than [n - 1] seconds. *)
Lemma stepped_growth level t n :
  1 <= n -> t + 1000 * (n - 1) < stepped level t n.
Proof.
  intros Hn. unfold stepped.
  destruct level.
  - pose proof (floorTo_le msPerSecond t eq_refl).
    unfold msPerSecond in *. lia.
  - pose proof (floorTo_le msPerMinute t eq_refl).
    unfold msPerMinute in *. lia.
  - pose proof (floorTo_le msPerHour t eq_refl).
    unfold msPerHour in *. lia.
  - pose proof (floorTo_le msPerDay t eq_refl).
    unfold msPerDay in *. lia.
  - destruct (month_of_time t) as [_ Hnext].
    pose proof (month_start_grows (monthIndex t + 1) (n - 1) ltac:(lia)) as G.
    replace (monthIndex t + 1 + (n - 1)) with (monthIndex t + n) in G by lia.
    pose proof (floorTo_le msPerDay t eq_refl) as F.
    unfold floorTo in F. fold (Day t) in F. unfold msPerDay in *. lia.
  - rewrite MakeDay_feb_first.
    pose proof (YearFromDay_spec (Day t)) as [_ S]. fold (YearFromTime t) in S.
    pose proof (DayFromYear_grows (YearFromTime t + 1) (n - 1) ltac:(lia)) as G.
    replace (YearFromTime t + 1 + (n - 1)) with (YearFromTime t + n) in G
      by lia.
    pose proof (floorTo_le msPerDay t eq_refl) as F.
    unfold floorTo in F. fold (Day t) in F. unfold msPerDay in *. lia.
Qed.

Lemma stepped_mono level t a b :
  0 <= b -> stepped level t a <= stepped level t (a + b).
Proof.
  intros Hb. unfold stepped.
  destruct level;
    try (unfold msPerSecond, msPerMinute, msPerHour, msPerDay; lia).
  - pose proof (month_start_mono (monthIndex t + a) (monthIndex t + (a + b))
                  ltac:(lia)).
    unfold msPerDay. lia.
  - rewrite !MakeDay_feb_first.
    pose proof (DayFromYear_mono (YearFromTime t + a)
                  (YearFromTime t + (a + b)) ltac:(lia)).
    unfold msPerDay. lia.
Qed.

Lemma floorTo_ge_day u t :
  u = msPerSecond \/ u = msPerMinute \/ u = msPerHour \/ u = msPerDay ->
  msPerDay * Day t <= floorTo u t.
Proof.
  destruct (floorTo_fields t) as (FD & FH & FM & FS & _).
  pose proof (time_fields_bounds t) as (Bh & Bm & Bs & _).
  intros [-> | [-> | [-> | ->]]];
    rewrite ?FS, ?FM, ?FH, ?FD;
    unfold msPerSecond, msPerMinute, msPerHour, msPerDay; lia.
Qed.

(** Stepping forward does not go back in years. *)
Lemma stepped_year level t n :
  0 <= n -> YearFromTime t <= YearFromTime (stepped level t n).
Proof.
  intros Hn.
  assert (Sub : forall u,
             u = msPerSecond \/ u = msPerMinute \/ u = msPerHour
             \/ u = msPerDay ->
             0 < u ->
             YearFromTime t <= YearFromTime (floorTo u t + u * n)).
  { intros u Hu Hpos.
    replace (YearFromTime t) with (YearFromTime (msPerDay * Day t))
      by (unfold YearFromTime; rewrite Day_of_days; reflexivity).
    apply YearFromTime_mono. pose proof (floorTo_ge_day u t Hu). nia. }
  unfold stepped. destruct level.
  - apply Sub; [tauto|reflexivity].
  - apply Sub; [tauto|reflexivity].
  - apply Sub; [tauto|reflexivity].
  - apply Sub; [tauto|reflexivity].
  - destruct (fields_of_month_start (monthIndex t + n)) as (-> & _).
    unfold monthIndex. pose proof (MonthFromTime_bounds t).
    Z.div_mod_to_equations. lia.
  - rewrite year_of_feb_first. lia.
Qed.

(** Two steps in a row are one step of the sum. *)
Lemma stepped_compose level t a b :
  stepped level (stepped level t a) b = stepped level t (a + b).
Proof.
  assert (Sub : forall u, 0 < u ->
             floorTo u (floorTo u t + u * a) + u * b
             = floorTo u t + u * (a + b)).
  { intros u Hu. rewrite floorTo_add by assumption.
    replace (floorTo u (floorTo u t)) with (floorTo u t); [lia|].
    unfold floorTo at 3. rewrite floorTo_multiple by assumption.
    reflexivity. }
  unfold stepped. destruct level.
  - apply Sub; reflexivity.
  - apply Sub; reflexivity.
  - apply Sub; reflexivity.
  - apply Sub; reflexivity.
  - destruct (fields_of_month_start (monthIndex t + a)) as (_ & _ & ->).
    f_equal. f_equal. lia.
  - rewrite year_of_feb_first. f_equal. f_equal. lia.
Qed.

(** From year 100 on, a step is far above the least time value. *)
Lemma year_100_lower t : 100 <= YearFromTime t -> - maxTime < t.
Proof.
  intros H. pose proof (YearFromDay_spec (Day t)) as [S _].
  fold (YearFromTime t) in S.
  pose proof (DayFromYear_mono 100 (YearFromTime t) H) as M.
  change (DayFromYear 100) with (-683003) in M.
  pose proof (floorTo_le msPerDay t eq_refl) as F.
  unfold floorTo in F. fold (Day t) in F.
  unfold maxTime, msPerDay in *. lia.
Qed.

(** An aligned instant is its own rounding. *)
Lemma stepped_zero_aligned level t :
  aligned level t -> level <> eYear -> stepped level t 0 = t.
Proof.
  unfold aligned, alignedb. intros A Hl.
  destruct (floorTo_fields t) as (FD & FH & FM & FS & Ft).
  rewrite !andb_true_iff in A.
  destruct A as (((((Ams & As) & Am) & Ah) & Ad) & _).
  apply Z.eqb_eq in Ams.
  unfold stepped.
  destruct level; cbn in As, Am, Ah, Ad;
    repeat match goal with
           | H : (_ =? _) = true |- _ => apply Z.eqb_eq in H
           end.
  - lia.
  - unfold msPerSecond, msPerMinute, msPerHour, msPerDay in *. lia.
  - unfold msPerSecond, msPerMinute, msPerHour, msPerDay in *. lia.
  - unfold msPerSecond, msPerMinute, msPerHour, msPerDay in *. lia.
  - destruct (month_of_time t) as [E _].
    replace (monthIndex t + 0) with (monthIndex t) by lia.
    rewrite E. unfold msPerSecond, msPerMinute, msPerHour, msPerDay in *.
    lia.
  - congruence.
Qed.

End SteppedFacts.

(** ** The label engine on its claims *)

Section LabelEngineClaims.

Import CalendarFacts LabelFacts StepFacts SteppedFacts.

Variable loc : string -> string.
Variable toLocaleDateString : Z -> string.

Lemma stepped_overflow level x a b :
  100 <= YearFromTime x -> 0 <= a -> 0 <= b ->
  TimeClip (stepped level x a) = None ->
  TimeClip (stepped level x (a + b)) = None.
Proof.
  intros Hy Ha Hb Hc. apply TimeClip_None in Hc.
  pose proof (stepped_year level x a Ha) as Y.
  pose proof (year_100_lower (stepped level x a) ltac:(lia)) as L.
  pose proof (stepped_mono level x a b Hb) as M.
  unfold TimeClip.
  destruct (Z.ltb_spec maxTime (Z.abs (stepped level x (a + b))));
    [reflexivity|lia].
Qed.

(** C7 (amended). For every level, every instant [x] of year 100 or later
    (aligned or not) and all non-negative [a] and [b], incrementing [x] by
    [a] and the result by [b] gives the same instant as incrementing [x] by
    [a + b]; an increment that leaves the range of dates gives the invalid
    date (a [TypeError] at the month level) on both sides. *)
Theorem increment_additive level x a b :
  validTime x -> 100 <= YearFromTime x -> 0 <= a -> 0 <= b ->
  (do l <- getLabelForIncrementedDateAtLevel loc level (Some x) a;
   instantOf (getLabelForIncrementedDateAtLevel loc level (labelDate l) b))
  = instantOf (getLabelForIncrementedDateAtLevel loc level (Some x) (a + b)).
Proof.
  intros Hv Hy Ha Hb.
  pose proof (inc_raw loc level x a Hv) as Ia.
  rewrite rawInc_stepped in Ia by assumption.
  rewrite (inc_raw loc level x (a + b) Hv), rawInc_stepped by lia.
  unfold clipped in Ia.
  destruct (TimeClip (stepped level x a)) as [r|] eqn:Ta.
  - apply TimeClip_Some in Ta. destruct Ta as [-> Vr].
    destruct (getLabelForIncrementedDateAtLevel loc level (Some x) a)
      as [l|]; [|discriminate].
    cbn in Ia. injection Ia as Ia. cbn [bindC]. rewrite Ia.
    rewrite (inc_raw loc level _ b Vr).
    rewrite rawInc_stepped, stepped_compose; [reflexivity| |assumption].
    pose proof (stepped_year level x a Ha). lia.
  - pose proof (stepped_overflow level x a b Hy Ha Hb Ta) as Tab.
    unfold clipped. rewrite Tab.
    destruct (getLabelForIncrementedDateAtLevel loc level (Some x) a)
      as [l|]; cbn in Ia.
    + destruct level; try discriminate; injection Ia as Ia;
        cbn [bindC]; rewrite Ia; reflexivity.
    + destruct level; try discriminate. reflexivity.
Qed.

Lemma rawInc_zero level t :
  ~ 0 <= YearFromTime t <= 99 -> rawInc level t 0 = stepped level t 0.
Proof.
  intros Hy.
  destruct (Z_lt_le_dec (YearFromTime t) 100) as [Hneg|Hpos];
    [|apply rawInc_stepped; lia].
  assert (Hfull : MakeFullYear (YearFromTime t) = YearFromTime t).
  { unfold MakeFullYear.
    destruct (Z.leb_spec 0 (YearFromTime t)); cbn [andb]; [lia|reflexivity]. }
  unfold rawInc, stepped, getFullYear, getMonth, getDate, getHours,
    getMinutes, getSeconds.
  destruct (floorTo_fields t) as (FD & FH & FM & FS & _).
  pose proof (MakeDay_fields t) as F.
  pose proof (time_fields_bounds t) as (Bh & _).
  pose proof (MonthFromTime_bounds t) as Bm.
  destruct level; cbv zeta; rewrite ?Z.add_0_r.
  - rewrite Hfull, F, FS. unfold MakeDate, MakeTime.
    unfold msPerDay, msPerHour, msPerMinute, msPerSecond in *. lia.
  - rewrite Hfull, F, FM. unfold MakeDate, MakeTime.
    unfold msPerDay, msPerHour, msPerMinute, msPerSecond in *. lia.
  - destruct (carry_spec 24 (DateFromTime t) (HourFromTime t) ltac:(lia))
      as (_ & _ & Same & _).
    rewrite Same by lia. rewrite Hfull, F, FH. unfold MakeDate, MakeTime.
    unfold msPerDay, msPerHour, msPerMinute, msPerSecond in *. lia.
  - rewrite Hfull, F, FD. unfold MakeDate. unfold msPerDay in *. lia.
  - destruct (carry_spec 12 (YearFromTime t) (MonthFromTime t) ltac:(lia))
      as (_ & _ & Same & _).
    rewrite Same by lia. rewrite Hfull, MakeDay_months.
    fold (monthIndex t). unfold MakeDate, msPerDay. lia.
  - rewrite Hfull. unfold MakeDate, msPerDay. lia.
Qed.

(** C5 (amended). For every level other than the year level and every
    aligned instant [x] whose year is not one of 0..99,
    [getLabelForIncrementedDateAtLevel] with increment 0 returns an instant
    equal to [x].  At every level its text is the text of an inner tick at
    [x] (year, month name, day of the month, H:00, H:MM, H:MM:SS): at the
    year level this is the text of [getLevelLabelForValue]; at the month
    level [getLevelLabelForValue] appends a comma and the year to it. *)
Theorem increment_by_zero level x :
  validTime x -> aligned level x -> ~ 0 <= YearFromTime x <= 99 ->
  (level <> eYear ->
   instantOf (getLabelForIncrementedDateAtLevel loc level (Some x) 0)
   = Normal (Some x))
  /\ textOf (getLabelForIncrementedDateAtLevel loc level (Some x) 0)
     = Normal (innerTickText loc level x)
  /\ (level = eYear ->
      textOf (getLevelLabelForValue loc toLocaleDateString level (Some x))
      = Normal (innerTickText loc level x))
  /\ (level = eMonth ->
      textOf (getLevelLabelForValue loc toLocaleDateString level (Some x))
      = Normal (innerTickText loc level x ++ ", "
                ++ StringOfZ (YearFromTime x))%string).
Proof.
  intros Hv Ha Hy.
  assert (Inst : level <> eYear ->
                 instantOf (getLabelForIncrementedDateAtLevel
                              loc level (Some x) 0) = Normal (Some x)).
  { intros Hl. rewrite inc_raw, rawInc_zero by assumption.
    rewrite stepped_zero_aligned by assumption.
    unfold clipped. rewrite TimeClip_valid by assumption. reflexivity. }
  split; [exact Inst|]. split; [|split].
  - destruct (EDateTimeLevel_eq_dec level eYear) as [->|Hl].
    + unfold getLabelForIncrementedDateAtLevel, asDate, newDateFromValue.
      rewrite TimeClip_valid by assumption. cbv zeta.
      rewrite Z.add_0_r. reflexivity.
    + specialize (Inst Hl). revert Inst.
      unfold getLabelForIncrementedDateAtLevel, asDate, newDateFromValue.
      rewrite TimeClip_valid by assumption. cbv zeta.
      destruct level; try congruence; cbn [innerTickText].
      * destruct (newDate _ _ _ _ _ _) as [r|]; cbn; intros [= ->];
          reflexivity.
      * destruct (newDate _ _ _ _ _ _) as [r|]; cbn; intros [= ->];
          reflexivity.
      * destruct (carry 24 _ _) as [d' h'].
        destruct (newDate _ _ _ _ _ _) as [r|]; cbn; intros [= ->];
          reflexivity.
      * destruct (newDate _ _ _ _ _ _) as [r|]; cbn; intros [= ->];
          reflexivity.
      * destruct (carry 12 _ _) as [y' m'].
        destruct (newDate _ _ _ _ _ _) as [r|]; cbn [option_map];
          [|discriminate].
        unfold getMonth. rewrite (monthName_of_month loc r). cbn.
        intros [= ->]. reflexivity.
  - intros ->. unfold getLevelLabelForValue, asDate, newDateFromValue.
    rewrite TimeClip_valid by assumption. reflexivity.
  - intros ->. unfold getLevelLabelForValue, asDate, newDateFromValue.
    rewrite TimeClip_valid by assumption. cbv zeta.
    unfold getMonth. rewrite (monthName_of_month loc x). reflexivity.
Qed.

End LabelEngineClaims.

(** ** The year level and the second level, for every instant *)

Section Departures.

Import CalendarFacts LabelFacts StepFacts SteppedFacts.

Variable loc : string -> string.
Variable toLocaleDateString : Z -> string.

Lemma february_first_fields y :
  let r := msPerDay * MakeDay y 1 1 in
  YearFromTime r = y /\ MonthFromTime r = 1 /\ DateFromTime r = 1
  /\ TimeWithinDay r = 0.
Proof.
  cbv zeta. pose proof (year_of_feb_first y) as Y.
  assert (W : DayWithinYear (msPerDay * MakeDay y 1 1) = 31).
  { unfold DayWithinYear. rewrite Y, Day_of_days, MakeDay_feb_first. lia. }
  pose proof (InLeapYear_bounds (msPerDay * MakeDay y 1 1)) as L.
  assert (M : MonthFromTime (msPerDay * MakeDay y 1 1) = 1).
  { unfold MonthFromTime. rewrite W. unfold MonthFromDayWithinYear.
    change (31 <? 31) with false. cbv iota.
    destruct (Z.ltb_spec 31 (59 + InLeapYear (msPerDay * MakeDay y 1 1)));
      [reflexivity|lia]. }
  split; [exact Y|]. split; [exact M|]. split.
  - unfold DateFromTime. rewrite W, M. unfold DaysBeforeMonth. lia.
  - unfold TimeWithinDay. rewrite Z.mul_comm. apply Z.mod_mul.
    unfold msPerDay. lia.
Qed.

Lemma february_first_valid t :
  validTime t -> 100 <= YearFromTime t ->
  validTime (msPerDay * MakeDay (YearFromTime t) 1 1).
Proof.
  intros Hv Hy. unfold validTime in *.
  pose proof (year_of_feb_first (YearFromTime t)) as Y.
  pose proof (year_100_lower (msPerDay * MakeDay (YearFromTime t) 1 1)
                ltac:(lia)) as Lo.
  split; [lia|].
  pose proof (YearFromTime_mono t maxTime ltac:(lia)) as Up.
  assert (E : YearFromTime maxTime = 275760) by (vm_compute; reflexivity).
  rewrite E in Up.
  pose proof (DayFromYear_mono (YearFromTime t) 275760 Up) as D.
  assert (E' : DayFromYear 275760 = 99999744) by (vm_compute; reflexivity).
  rewrite E' in D. rewrite MakeDay_feb_first.
  unfold maxTime, msPerDay. lia.
Qed.

(** From year 100 on, the year-level label of any instant is the first day
    of month 1 (February) of its year, at 00:00:00. *)
Lemma year_level_instant_in_general t :
  validTime t -> 100 <= YearFromTime t ->
  exists r,
    instantOf (getLevelLabelForValue loc toLocaleDateString eYear (Some t))
    = Normal (Some r)
    /\ YearFromTime r = YearFromTime t /\ MonthFromTime r = 1
    /\ DateFromTime r = 1 /\ TimeWithinDay r = 0.
Proof.
  intros Hv Hy. exists (msPerDay * MakeDay (YearFromTime t) 1 1).
  split; [|apply february_first_fields].
  unfold getLevelLabelForValue, asDate, newDateFromValue, newDate, getFullYear.
  rewrite (TimeClip_valid t Hv). cbv zeta. cbn [instantOf bindC labelDate].
  rewrite MakeFullYear_id by assumption.
  change (MakeTime 0 0 0 0) with 0. unfold MakeDate.
  replace (MakeDay (YearFromTime t) 1 1 * msPerDay + 0)
    with (msPerDay * MakeDay (YearFromTime t) 1 1) by lia.
  rewrite TimeClip_valid by (apply february_first_valid; assumption).
  reflexivity.
Qed.

(** From year 100 on, the first second-level tick for any instant is the
    instant rounded down to the second: it precedes every instant that has
    milliseconds. *)
Lemma first_second_tick_in_general t :
  validTime t -> 100 <= YearFromTime t ->
  instantOf (findFirstDateAboveOrAtLevel loc eSecond (Some t))
  = Normal (Some (floorTo msPerSecond t))
  /\ (msFromTime t <> 0 -> floorTo msPerSecond t < t).
Proof.
  intros Hv Hy. destruct (floorTo_fields t) as (_ & _ & _ & _ & Ft).
  pose proof (time_fields_bounds t) as (_ & _ & _ & Bms).
  split; [|lia].
  pose proof (rawInc_stepped eSecond t 0 Hy ltac:(lia)) as R.
  unfold rawInc, stepped in R. cbv zeta in R.
  rewrite ?Z.add_0_r, ?Z.mul_0_r, ?Z.add_0_r in R.
  unfold findFirstDateAboveOrAtLevel, asDate, newDateFromValue, newDate.
  rewrite (TimeClip_valid t Hv). cbv zeta. rewrite R.
  assert (V : validTime (floorTo msPerSecond t)).
  { pose proof (YearFromTime_mono (msPerDay * Day t) (floorTo msPerSecond t)
                  (floorTo_ge_day _ t ltac:(tauto))) as Y.
    unfold YearFromTime in Y at 1. rewrite Day_of_days in Y.
    fold (YearFromTime t) in Y.
    pose proof (year_100_lower (floorTo msPerSecond t) ltac:(lia)).
    unfold validTime in *. lia. }
  rewrite (TimeClip_valid _ V).
  destruct (num_ltb _ _); reflexivity.
Qed.

End Departures.

(** ** The label engine at concrete instants

    Time values used below:
    - 1672531200000 is 2023-01-01, 1673740800000 is 2023-01-15,
      1675123200000 is 2023-01-31, 1675209600000 is 2023-02-01,
      1677628800000 is 2023-03-01, 1686787200000 is 2023-06-15;
    - 1706745600000 is 2024-02-01, 1738368000000 is 2025-02-01;
    - -59014137600000 is 0099-12-01, -59008780800000 is 0100-02-01,
      946684800000 is 2000-01-01, 949363200000 is 2000-02-01;
    - -60584198400000 is 0050-03-01, -626054400000 is 1950-03-01. *)

Section ConcreteInstants.

Variable loc : string -> string.
Variable toLocaleDateString : Z -> string.

(** C1 (the code departs from the claim). At the year level the label of
    2023-06-15 is the instant 2023-02-01, whose month field is 1
    (February), and two years after 2023-01-01 is 2025-02-01: the aligned
    instant of a year is February 1, not January 1. *)
Theorem year_level_lands_on_february :
  getLevelLabelForValue loc toLocaleDateString eYear (Some 1686787200000)
  = Normal (mkLabel "2023" (Some 1675209600000))
  /\ fieldsOf 1675209600000 = mkFields 2023 1 1 0 0 0 0
  /\ getLabelForIncrementedDateAtLevel loc eYear (Some 1672531200000) 2
     = Normal (mkLabel "2025" (Some 1738368000000))
  /\ fieldsOf 1738368000000 = mkFields 2025 1 1 0 0 0 0.
Proof. repeat split; vm_compute; reflexivity. Qed.

(** C3 (the code departs from the claim). At the second level the first
    tick for the instant 500 ms is the instant 0, which is below the input:
    the branch that should advance by one second builds the same date
    again.  The minute level does advance, to 60000.  At the year level the
    first tick for 2023-01-15 is 2023-02-01. *)
Theorem first_tick_at_second_level_precedes_input :
  findFirstDateAboveOrAtLevel loc eSecond (Some 500)
  = Normal (mkLabel "0" (Some 0))
  /\ findFirstDateAboveOrAtLevel loc eMinute (Some 500)
     = Normal (mkLabel "1" (Some 60000))
  /\ findFirstDateAboveOrAtLevel loc eYear (Some 1673740800000)
     = Normal (mkLabel "2023" (Some 1675209600000)).
Proof. repeat split; vm_compute; reflexivity. Qed.

(** C4 (the code departs from the claim). At the month level the instant
    after 2023-01-31 is 2023-03-01, although 2023-01-31 rounds down to
    2023-01-01: February is skipped, because the day of the month is
    carried into the new month.  At the year level the instant after
    2023-01-01 is 2024-02-01. *)
Theorem next_month_after_january_31_is_march :
  instantOf (getNextLevelLabelForValue loc toLocaleDateString eMonth
                                       (Some 1675123200000))
  = Normal (Some 1677628800000)
  /\ instantOf (getLevelLabelForValue loc toLocaleDateString eMonth
                                      (Some 1675123200000))
     = Normal (Some 1672531200000)
  /\ fieldsOf 1675123200000 = mkFields 2023 0 31 0 0 0 0
  /\ fieldsOf 1677628800000 = mkFields 2023 2 1 0 0 0 0
  /\ instantOf (getNextLevelLabelForValue loc toLocaleDateString eYear
                                          (Some 1672531200000))
     = Normal (Some 1706745600000).
Proof. repeat split; vm_compute; reflexivity. Qed.

(** The parts of the claim on [getNextLevelLabelForValue] that hold:
    December rolls over to January of the next year, and the day level
    crosses the leap day of 2020 one day at a time. *)
Example next_month_after_december_2001 :
  instantOf (getNextLevelLabelForValue loc toLocaleDateString eMonth
                                       (Some 1007164800000))
  = Normal (Some 1009843200000)
  /\ fieldsOf 1007164800000 = mkFields 2001 11 1 0 0 0 0
  /\ fieldsOf 1009843200000 = mkFields 2002 0 1 0 0 0 0.
Proof. repeat split; vm_compute; reflexivity. Qed.

Example next_day_across_leap_day_2020 :
  instantOf (getNextLevelLabelForValue loc toLocaleDateString eDay
                                       (Some 1582934399000))
  = Normal (Some 1582934400000)
  /\ instantOf (getNextLevelLabelForValue loc toLocaleDateString eDay
                                          (Some 1582934400000))
     = Normal (Some 1583020800000)
  /\ fieldsOf 1582934399000 = mkFields 2020 1 28 23 59 59 0
  /\ fieldsOf 1582934400000 = mkFields 2020 1 29 0 0 0 0
  /\ fieldsOf 1583020800000 = mkFields 2020 2 1 0 0 0 0.
Proof. repeat split; vm_compute; reflexivity. Qed.

Variable dataToCoordinate : Q -> Q.

(** C6 (the code departs from the claim). With the bounds 0.5 s and 2.5 s
    the tick iterator works at the second level and visits the instants 0,
    1000 and 2000: the instant 0 lies below the lower bound 500. *)
Theorem tick_iterator_visits_below_lower_bound (fuel : nat) :
  innerLevel (determineLevels 500 2500) = eSecond
  /\ forEachTickDo loc dataToCoordinate (4 + fuel) 500 2500
     = Normal (Some [ (0, dataToCoordinate (toSeconds 0));
                      (1000, dataToCoordinate (toSeconds 1000));
                      (2000, dataToCoordinate (toSeconds 2000)) ]).
Proof. split; vm_compute; reflexivity. Qed.

End ConcreteInstants.

(** What the increment by 0 returns at 2023-03-01 (month level) and at
    0050-03-01 (day level). *)
Example increment_by_zero_values :
  textOf (getLabelForIncrementedDateAtLevel locKey eMonth
                                            (Some 1677628800000) 0)
  = Normal "DG.Formula.DateShortMonthMarch"%string
  /\ textOf (getLevelLabelForValue locKey usDateString eMonth
                                   (Some 1677628800000))
     = Normal "DG.Formula.DateShortMonthMarch, 2023"%string
  /\ instantOf (getLabelForIncrementedDateAtLevel locKey eDay
                                                  (Some (-60584198400000)) 0)
     = Normal (Some (-626054400000)).
Proof. repeat split; vm_compute; reflexivity. Qed.

(** C5 (as stated, refuted). 2023-03-01 is aligned at the month level; the
    increment by 0 labels it with the bare month name, the level label with
    the month name and the year.  0050-03-01 is aligned at the day level; the
    increment by 0 moves it to 1950-03-01. *)
Lemma increment_by_zero_differs :
  aligned eMonth 1677628800000
  /\ textOf (getLabelForIncrementedDateAtLevel locKey eMonth
                                               (Some 1677628800000) 0)
     <> textOf (getLevelLabelForValue locKey usDateString eMonth
                                      (Some 1677628800000))
  /\ aligned eDay (-60584198400000)
  /\ instantOf (getLabelForIncrementedDateAtLevel locKey eDay
                                                  (Some (-60584198400000)) 0)
     <> Normal (Some (-60584198400000)).
Proof.
  split; [vm_compute; reflexivity|].
  split; [vm_compute; congruence|].
  split; [vm_compute; reflexivity|].
  vm_compute. congruence.
Qed.

Lemma increment_by_zero_witness :
  instantOf (getLabelForIncrementedDateAtLevel locKey eDay
                                               (Some 1677628800000) 0)
  = Normal (Some 1677628800000).
Proof.
  assert (Y : YearFromTime 1677628800000 = 2023) by (vm_compute; reflexivity).
  refine (proj1 (increment_by_zero locKey usDateString eDay 1677628800000
                   _ _ _) _).
  - unfold validTime, maxTime. lia.
  - vm_compute. reflexivity.
  - rewrite Y. lia.
  - discriminate.
Defined.

(** One month and one month more from 0099-12-01, and two months at once. *)
Example increment_additive_values :
  (do l <- getLabelForIncrementedDateAtLevel locKey eMonth
             (Some (-59014137600000)) 1;
   instantOf (getLabelForIncrementedDateAtLevel locKey eMonth (labelDate l) 1))
  = Normal (Some 949363200000)
  /\ instantOf (getLabelForIncrementedDateAtLevel locKey eMonth
                  (Some (-59014137600000)) (1 + 1))
     = Normal (Some (-59008780800000)).
Proof. repeat split; vm_compute; reflexivity. Qed.

(** C7 (as stated, refuted). 0099-12-01 is aligned at the month level; one
    month and one month more lead to 2000-02-01, two months at once to
    0100-02-01. *)
Lemma increment_additive_fails_in_year_99 :
  aligned eMonth (-59014137600000)
  /\ (do l <- getLabelForIncrementedDateAtLevel locKey eMonth
                (Some (-59014137600000)) 1;
      instantOf (getLabelForIncrementedDateAtLevel locKey eMonth
                                                   (labelDate l) 1))
     <> instantOf (getLabelForIncrementedDateAtLevel locKey eMonth
                     (Some (-59014137600000)) (1 + 1)).
Proof.
  split; [vm_compute; reflexivity|].
  vm_compute. congruence.
Qed.

Lemma increment_additive_witness :
  (do l <- getLabelForIncrementedDateAtLevel locKey eMonth
             (Some 1669852800000) 1;
   instantOf (getLabelForIncrementedDateAtLevel locKey eMonth (labelDate l) 1))
  = instantOf (getLabelForIncrementedDateAtLevel locKey eMonth
                 (Some 1669852800000) (1 + 1)).
Proof.
  assert (Y : YearFromTime 1669852800000 = 2022) by (vm_compute; reflexivity).
  apply (increment_additive locKey eMonth 1669852800000 1 1).
  - unfold validTime, maxTime. lia.
  - rewrite Y. lia.
  - lia.
  - lia.
Defined.

(** ** The adaptive stride search *)

Section StrideSearch.

Import CalendarFacts LabelFacts StepFacts SteppedFacts.

Variable loc : string -> string.
Variable dataToCoordinate : Q -> Q.
Variable textExtentX : string -> Q.
Variable tOrientation : Orientation.
Variable tUpperBounds : Z.

Abbreviation simulate :=
  (simulateTicks loc dataToCoordinate textExtentX tOrientation tUpperBounds).
Abbreviation stride :=
  (simulateStride loc dataToCoordinate textExtentX tOrientation tUpperBounds).
Abbreviation search :=
  (findModulusLoop loc dataToCoordinate textExtentX tOrientation
                   tUpperBounds).

(** An increment by [k >= 1] units moves an instant forward by more than
    [k - 1] seconds, gives the invalid date, or (month level only) fails. *)
Lemma increment_outcome level d k :
  1 <= k ->
  match getLabelForIncrementedDateAtLevel loc level (Some d) k with
  | Normal l =>
      match labelDate l with
      | Some d' => d + 1000 * (k - 1) < d'
      | None => True
      end
  | Throw => level = eMonth
  end.
Proof.
  intros Hk. destruct (TimeClip d) as [d0|] eqn:Hc.
  - apply TimeClip_Some in Hc. destruct Hc as [_ Hv].
    pose proof (inc_raw loc level d k Hv) as I. unfold clipped in I.
    pose proof (rawInc_ge_stepped level d k) as G.
    pose proof (stepped_growth level d k Hk) as S.
    destruct (getLabelForIncrementedDateAtLevel loc level (Some d) k)
      as [l|]; cbn in I.
    + destruct (TimeClip (rawInc level d k)) as [r|] eqn:Hr.
      * apply TimeClip_Some in Hr. destruct Hr as [-> _].
        injection I as ->. lia.
      * destruct level; try discriminate; injection I as ->; exact Logic.I.
    + destruct (TimeClip (rawInc level d k)); [discriminate|].
      destruct level; try discriminate. reflexivity.
  - unfold getLabelForIncrementedDateAtLevel, asDate, newDateFromValue.
    rewrite Hc. exact Logic.I.
Qed.

(** *** Termination of one pass *)

Lemma simulate_enough_fuel level k :
  1 <= k ->
  forall fuel tDate tLabel tLast tFirst placed,
    (remaining tUpperBounds tDate < fuel)%nat ->
    simulate fuel level k tDate tLabel tLast tFirst placed
    <> Normal OutOfFuel.
Proof.
  intros Hk. induction fuel as [|fuel IH];
    intros tDate tLabel tLast tFirst placed Hf; [lia|].
  cbn [simulateTicks].
  destruct tDate as [d|]; cbn [num_ltb]; [|discriminate].
  destruct (Z.ltb_spec d tUpperBounds) as [Hlt|Hge]; [|discriminate].
  destruct (tFirst || negb _); [|discriminate].
  pose proof (increment_outcome level d k Hk) as O.
  destruct (getLabelForIncrementedDateAtLevel loc level (Some d) k)
    as [l|]; cbn [bindC]; [|discriminate].
  apply IH. cbn [remaining] in Hf.
  destruct (labelDate l) as [d'|]; cbn [remaining]; lia.
Qed.

Lemma simulate_fuel_mono level k :
  forall fuel fuel' tDate tLabel tLast tFirst placed r,
    (fuel <= fuel')%nat ->
    simulate fuel level k tDate tLabel tLast tFirst placed = r ->
    r <> Normal OutOfFuel ->
    simulate fuel' level k tDate tLabel tLast tFirst placed = r.
Proof.
  induction fuel as [|fuel IH];
    intros fuel' tDate tLabel tLast tFirst placed r Hle Hr Hn.
  - cbn in Hr. congruence.
  - destruct fuel' as [|fuel']; [lia|].
    cbn [simulateTicks] in *.
    destruct (num_ltb tDate (Some tUpperBounds)); [|exact Hr].
    destruct tDate as [d|]; [|exact Hr].
    destruct (tFirst || negb _); [|exact Hr].
    destruct (getLabelForIncrementedDateAtLevel loc level (Some d) k)
      as [l|]; cbn [bindC] in *; [|exact Hr].
    apply IH with (fuel' := fuel') in Hr; [exact Hr|lia|exact Hn].
Qed.

Lemma simulate_throw level k :
  1 <= k ->
  forall fuel tDate tLabel tLast tFirst placed,
    simulate fuel level k tDate tLabel tLast tFirst placed = Throw ->
    level = eMonth.
Proof.
  intros Hk. induction fuel as [|fuel IH];
    intros tDate tLabel tLast tFirst placed Hr; [discriminate|].
  cbn [simulateTicks] in Hr.
  destruct (num_ltb tDate (Some tUpperBounds)); [|discriminate].
  destruct tDate as [d|]; [|discriminate].
  destruct (tFirst || negb _); [|discriminate].
  pose proof (increment_outcome level d k Hk) as O.
  destruct (getLabelForIncrementedDateAtLevel loc level (Some d) k)
    as [l|]; cbn [bindC] in Hr; [|exact O].
  eapply IH, Hr.
Qed.

(** *** A stride that reaches the upper bound in one step is accepted *)

Lemma wide_stride_accepted level first k d fuel :
  1 <= k -> labelDate first = Some d ->
  tUpperBounds <= d + 1000 * (k - 1) ->
  stride (S (S fuel)) level first k = Throw
  \/ exists placed, stride (S (S fuel)) level first k
                    = Normal (NoCollision placed).
Proof.
  intros Hk Hd Hu. unfold simulateStride. rewrite Hd.
  cbn [simulateTicks num_ltb orb].
  destruct (Z.ltb_spec d tUpperBounds); [|right; eexists; reflexivity].
  pose proof (increment_outcome level d k Hk) as O.
  destruct (getLabelForIncrementedDateAtLevel loc level (Some d) k)
    as [l|]; cbn [bindC]; [|left; reflexivity].
  right. destruct (labelDate l) as [d'|]; cbn [num_ltb].
  - destruct (Z.ltb_spec d' tUpperBounds); [lia|]. eexists. reflexivity.
  - eexists. reflexivity.
Qed.

Lemma invalid_first_accepted level first k fuel :
  labelDate first = None ->
  stride (S fuel) level first k = Normal (NoCollision []).
Proof.
  intros Hd. unfold simulateStride. rewrite Hd. reflexivity.
Qed.

(** *** Termination of the search *)

Abbreviation widest := (widestStride tUpperBounds).
Abbreviation enoughFuel := (passFuel tUpperBounds).

Lemma stride_enough_fuel level first k sf :
  1 <= k -> (enoughFuel first <= sf)%nat ->
  stride sf level first k <> Normal OutOfFuel.
Proof.
  intros Hk Hf. unfold simulateStride. apply simulate_enough_fuel;
    [assumption|]. unfold passFuel in Hf. lia.
Qed.

Lemma widest_stride_accepted level first k sf :
  widest first <= k -> (enoughFuel first <= sf)%nat ->
  forall placed, stride sf level first k <> Normal (FoundCollision placed).
Proof.
  intros Hk Hf placed. unfold widestStride in Hk. unfold passFuel in Hf.
  destruct sf as [|[|sf]]; [lia|lia|].
  destruct (labelDate first) as [d|] eqn:Hd.
  - destruct (wide_stride_accepted level first k d sf) as [E|[p E]];
      try assumption; try lia; try (rewrite E; discriminate).
    Z.div_mod_to_equations. lia.
  - rewrite invalid_first_accepted by assumption. discriminate.
Qed.

Lemma search_terminates level first :
  forall fuel sf k,
    1 <= k -> (enoughFuel first <= sf)%nat ->
    (Z.to_nat (widest first - k) < fuel)%nat ->
    search fuel sf level first k <> Normal None.
Proof.
  induction fuel as [|fuel IH]; intros sf k Hk Hsf Hf; [lia|].
  cbn [findModulusLoop].
  pose proof (stride_enough_fuel level first k sf Hk Hsf) as E.
  pose proof (widest_stride_accepted level first k sf) as W.
  destruct (stride sf level first k) as [[placed|placed|]|]; cbn [bindC];
    try discriminate; [|congruence].
  destruct (Z_lt_le_dec k (widest first)) as [Hlt|Hge].
  - apply IH; [lia|assumption|lia].
  - exfalso. apply (W Hge Hsf placed). reflexivity.
Qed.

Lemma search_fuel_mono level first :
  forall fuel fuel' sf sf' k r,
    (fuel <= fuel')%nat -> (sf <= sf')%nat ->
    search fuel sf level first k = r -> r <> Normal None ->
    search fuel' sf' level first k = r.
Proof.
  induction fuel as [|fuel IH]; intros fuel' sf sf' k r Hf Hsf Hr Hn.
  - cbn in Hr. congruence.
  - destruct fuel' as [|fuel']; [lia|]. cbn [findModulusLoop] in *.
    destruct (stride sf level first k) as [pass|] eqn:Ep.
    + assert (pass <> OutOfFuel).
      { intros ->. cbn in Hr. congruence. }
      unfold simulateStride in *.
      rewrite (simulate_fuel_mono level k sf sf' _ _ _ _ _ _ Hsf Ep)
        by congruence.
      cbn [bindC] in *. destruct pass; try congruence.
      eapply IH; eauto. lia.
    + unfold simulateStride in *.
      rewrite (simulate_fuel_mono level k sf sf' _ _ _ _ _ _ Hsf Ep)
        by congruence.
      exact Hr.
Qed.

(** What an accepted stride says about the passes made. *)
Lemma search_result level first :
  forall fuel sf k0 k,
    search fuel sf level first k0 = Normal (Some k) ->
    k0 <= k
    /\ (forall j, k0 <= j < k ->
        exists placed, stride sf level first j
                       = Normal (FoundCollision placed))
    /\ exists placed, stride sf level first k = Normal (NoCollision placed).
Proof.
  induction fuel as [|fuel IH]; intros sf k0 k Hr; [discriminate|].
  cbn [findModulusLoop] in Hr.
  destruct (stride sf level first k0) as [[placed|placed|]|] eqn:Ep;
    cbn [bindC] in Hr; try discriminate.
  - apply IH in Hr. destruct Hr as (Hle & Hfail & Hok).
    split; [lia|]. split; [|exact Hok].
    intros j Hj. destruct (Z.eq_dec j k0) as [->|Hne].
    + exists placed. exact Ep.
    + apply Hfail. lia.
  - injection Hr as <-. split; [lia|]. split; [intros j Hj; lia|].
    exists placed. exact Ep.
Qed.

Lemma search_throw level first :
  forall fuel sf k,
    1 <= k -> search fuel sf level first k = Throw -> level = eMonth.
Proof.
  induction fuel as [|fuel IH]; intros sf k Hk Hr; [discriminate|].
  cbn [findModulusLoop] in Hr.
  destruct (stride sf level first k) as [[placed|placed|]|] eqn:Ep;
    cbn [bindC] in Hr; try discriminate.
  - eapply IH; [|exact Hr]. lia.
  - unfold simulateStride in Ep. eapply simulate_throw; eauto.
Qed.

(** *** No two placed ticks overlap *)

Lemma ordered_pairs_snoc (A : Type) (R : A -> A -> Prop) (l : list A) x :
  ForallOrdPairs R l -> Forall (fun a => R a x) l ->
  ForallOrdPairs R (l ++ [x]).
Proof.
  induction 1 as [|a l Ha Hl IH]; intros Hx; cbn.
  - repeat constructor.
  - inversion Hx as [|? ? Hax Hlx]; subst. constructor.
    + apply Forall_app. split; [exact Ha|]. constructor; [exact Hax|].
      constructor.
    + apply IH, Hlx.
Qed.

Hypothesis extent_nonneg : forall s, (0 <= textExtentX s)%Q.

Lemma halfWidth_nonneg s : (0 <= halfWidth textExtentX s)%Q.
Proof.
  unfold halfWidth, Qdiv. change (/ 8)%Q with (1 # 8)%Q.
  pose proof (extent_nonneg s). lra.
Qed.

Lemma not_overlapped_after_last tPixel tHalfWidth tLast a :
  overlapped tOrientation tPixel tHalfWidth tLast = false ->
  behindLast tOrientation tLast a ->
  disjointExtents tOrientation a (mkPlaced tPixel tHalfWidth).
Proof.
  unfold overlapped, behindLast, disjointExtents, lt_undef, gt_undef, Qltb.
  destruct tLast as [last|]; [|contradiction].
  destruct tOrientation; intros Ho Hb; apply negb_false_iff in Ho;
    apply Qle_bool_iff in Ho; cbn [tickPixel tickHalfWidth]; lra.
Qed.

Lemma behind_new_last tPixel tHalfWidth tLast a :
  (0 <= tHalfWidth)%Q ->
  overlapped tOrientation tPixel tHalfWidth tLast = false ->
  behindLast tOrientation tLast a ->
  behindLast tOrientation (Some (lastPixel tOrientation tPixel tHalfWidth)) a.
Proof.
  unfold overlapped, behindLast, lastPixel, lt_undef, gt_undef, Qltb.
  destruct tLast as [last|]; [|contradiction].
  destruct tOrientation; intros Hh Ho Hb; apply negb_false_iff in Ho;
    apply Qle_bool_iff in Ho; lra.
Qed.

Lemma new_tick_behind_last tPixel tHalfWidth :
  behindLast tOrientation (Some (lastPixel tOrientation tPixel tHalfWidth))
             (mkPlaced tPixel tHalfWidth).
Proof.
  unfold behindLast, lastPixel.
  destruct tOrientation; cbn [tickPixel tickHalfWidth]; lra.
Qed.

Lemma simulate_separated level k :
  forall fuel tDate tLabel tLast tFirst placed r,
    separated tOrientation placed ->
    Forall (behindLast tOrientation tLast) placed ->
    (tFirst = true -> placed = []) ->
    simulate fuel level k tDate tLabel tLast tFirst placed = Normal r ->
    match r with
    | FoundCollision p | NoCollision p => separated tOrientation p
    | OutOfFuel => True
    end.
Proof.
  induction fuel as [|fuel IH];
    intros tDate tLabel tLast tFirst placed r Hs Hb Hf Hr.
  - cbn in Hr. injection Hr as <-. exact I.
  - cbn [simulateTicks] in Hr.
    destruct (num_ltb tDate (Some tUpperBounds));
      [|injection Hr as <-; exact Hs].
    destruct tDate as [d|]; [|injection Hr as <-; exact Hs].
    set (tPixel := dataToCoordinate (toSeconds d)) in *.
    set (tHalf := halfWidth textExtentX tLabel) in *.
    destruct (tFirst || negb (overlapped tOrientation tPixel tHalf tLast))
      eqn:Ho; [|injection Hr as <-; exact Hs].
    destruct (getLabelForIncrementedDateAtLevel loc level (Some d) k)
      as [l|]; cbn [bindC] in Hr; [|discriminate].
    apply IH in Hr; [exact Hr| | |discriminate].
    + apply ordered_pairs_snoc; [exact Hs|].
      destruct tFirst; [rewrite Hf by reflexivity; constructor|].
      cbn [orb] in Ho. apply negb_true_iff in Ho.
      apply Forall_impl with (2 := Hb). intros a Ha.
      apply not_overlapped_after_last with (tLast := tLast); assumption.
    + apply Forall_app. split.
      * destruct tFirst; [rewrite Hf by reflexivity; constructor|].
        cbn [orb] in Ho. apply negb_true_iff in Ho.
        apply Forall_impl with (2 := Hb). intros a Ha.
        apply behind_new_last with (tLast := tLast); try assumption.
        apply halfWidth_nonneg.
      * constructor; [apply new_tick_behind_last|constructor].
Qed.

Lemma stride_separated level first k fuel placed :
  stride fuel level first k = Normal (NoCollision placed) ->
  separated tOrientation placed.
Proof.
  unfold simulateStride. intros Hr.
  apply simulate_separated in Hr; try assumption.
  - constructor.
  - constructor.
  - reflexivity.
Qed.

(** The search ends, and what it ends with. *)
Lemma search_ends level first :
  exists fuel0 r,
    (forall fuel, (fuel0 <= fuel)%nat ->
                  findDrawValueModulus loc dataToCoordinate textExtentX
                    tOrientation tUpperBounds fuel level first = r)
    /\ strideAccepted loc dataToCoordinate textExtentX tOrientation
                      tUpperBounds level first r.
Proof.
  set (fuel0 := Nat.max (enoughFuel first)
                        (S (Z.to_nat (widest first - 1)))).
  exists fuel0, (search fuel0 fuel0 level first 1).
  assert (T : search fuel0 fuel0 level first 1 <> Normal None).
  { apply search_terminates; [lia|lia|lia]. }
  split.
  - intros fuel Hf. unfold findDrawValueModulus.
    eapply search_fuel_mono; eauto.
  - unfold strideAccepted.
    destruct (search fuel0 fuel0 level first 1) as [[k|]|] eqn:Er.
    + apply search_result in Er. destruct Er as (Hk & Hfail & [p Hok]).
      split; [exact Hk|]. split.
      * intros j Hj. exists fuel0. apply Hfail, Hj.
      * exists fuel0, p. split; [exact Hok|].
        apply stride_separated in Hok. exact Hok.
    + congruence.
    + eapply search_throw; [|exact Er]. lia.
Qed.

End StrideSearch.

(** ** The stride search on its claim *)

(** C8 (amended). For every geometry and every text measurement with all
    widths at least 1, [findDrawValueModulus] ends: from some amount of fuel
    on it gives one and the same outcome, which is a stride [k >= 1] (or, at
    the month level only, the [TypeError] of a date out of range).  Strides
    are tried in the order 1, 2, 3, ...: every stride below [k] ran into a
    collision, and no two ticks that the pass at stride [k] placed, each with
    the half width the search measured for it, overlap. *)
Theorem stride_search_ends_without_overlap
  (loc : string -> string) (dataToCoordinate : Q -> Q)
  (textExtentX : string -> Q) (tOrientation : Orientation) (tUpperBounds : Z)
  (iInnerLevel : EDateTimeLevel) (iFirstDateLabel : LabeledInstant) :
  (forall s, (1 <= textExtentX s)%Q) ->
  exists fuel0 r,
    (forall fuel, (fuel0 <= fuel)%nat ->
                  findDrawValueModulus loc dataToCoordinate textExtentX
                    tOrientation tUpperBounds fuel iInnerLevel iFirstDateLabel
                  = r)
    /\ strideAccepted loc dataToCoordinate textExtentX tOrientation
                      tUpperBounds iInnerLevel iFirstDateLabel r.
Proof.
  intros Hw. apply search_ends.
  intros s. specialize (Hw s). lra.
Qed.

Lemma stride_search_ends_without_overlap_witness :
  exists fuel0 r,
    (forall fuel, (fuel0 <= fuel)%nat ->
                  findDrawValueModulus locKey pixelPerSecond fixedExtent
                    horizontal 10000 fuel eSecond (mkLabel "0" (Some 0))
                  = r)
    /\ strideAccepted locKey pixelPerSecond fixedExtent horizontal 10000
                      eSecond (mkLabel "0" (Some 0)) r.
Proof.
  apply (stride_search_ends_without_overlap locKey pixelPerSecond fixedExtent
           horizontal 10000 eSecond (mkLabel "0" (Some 0))).
  intros s. unfold fixedExtent, Qle. simpl. lia.
Defined.

(** C8 (as stated, refuted). On an axis of ten seconds drawn one pixel per
    second, with every label 6.4 pixels wide (at least 1, and less than the
    10 pixels of the axis), the strides 6 and 7 both run into a collision
    after the same number of ticks; the ticks of the span at these strides
    are two in both cases.  Stride 8 is accepted. *)
Lemma failed_stride_keeps_number_of_ticks :
  (1 <= fixedExtent "0")%Q
  /\ (fixedExtent "0"
      <= pixelPerSecond (toSeconds 10000) - pixelPerSecond (toSeconds 0))%Q
  /\ (exists placed,
         simulateStride locKey pixelPerSecond fixedExtent horizontal 10000 20
                        eSecond (mkLabel "0" (Some 0)) 6
         = Normal (FoundCollision placed))
  /\ (exists placed,
         simulateStride locKey pixelPerSecond fixedExtent horizontal 10000 20
                        eSecond (mkLabel "0" (Some 0)) 7
         = Normal (FoundCollision placed))
  /\ ~ Nat.lt
         (ticksSimulated
            (simulateStride locKey pixelPerSecond fixedExtent horizontal 10000
                            20 eSecond (mkLabel "0" (Some 0)) 7))
         (ticksSimulated
            (simulateStride locKey pixelPerSecond fixedExtent horizontal 10000
                            20 eSecond (mkLabel "0" (Some 0)) 6))
  /\ ~ Nat.lt
         (ticksSimulated
            (simulateStride locKey pixelPerSecond noExtent horizontal 10000
                            20 eSecond (mkLabel "0" (Some 0)) 7))
         (ticksSimulated
            (simulateStride locKey pixelPerSecond noExtent horizontal 10000
                            20 eSecond (mkLabel "0" (Some 0)) 6))
  /\ findDrawValueModulus locKey pixelPerSecond fixedExtent horizontal 10000
                          20 eSecond (mkLabel "0" (Some 0))
     = Normal (Some 8).
Proof.
  split; [unfold fixedExtent, Qle; simpl; lia|].
  split; [vm_compute; discriminate|].
  split; [vm_compute; eexists; reflexivity|].
  split; [vm_compute; eexists; reflexivity|].
  split; [vm_compute; apply Nat.lt_irrefl|].
  split; [vm_compute; apply Nat.lt_irrefl|].
  vm_compute. reflexivity.
Qed.

(** The first tick is measured with the text of
    [findFirstDateAboveOrAtLevel] and drawn with the text of an increment by
    0.  From 10:05:00 to 10:08:00 on 2023-03-01, 18 pixels per minute and 8
    pixels per character: the search measures "5", accepts stride 2, and the
    labels drawn, "10:05" and "10:07", fail the overlap test of the search. *)
Example first_label_measured_is_not_the_one_drawn :
  determineLevels 1677665100000 1677665280000 = mkLevels eDay eMinute
  /\ findFirstDateAboveOrAtLevel locKey eMinute (Some 1677665100000)
     = Normal (mkLabel "5" (Some 1677665100000))
  /\ findDrawValueModulus locKey pixelFrom1005 charExtent horizontal
                          1677665280000 20 eMinute
                          (mkLabel "5" (Some 1677665100000))
     = Normal (Some 2)
  /\ drawInnerLabels locKey pixelFrom1005 charExtent horizontal 1677665280000
                     20 eMinute 1677665100000
     = Normal (Some [ mkDrawn (mkLabel "10:05" (Some 1677665100000)) true;
                      mkDrawn (mkLabel "10:06" (Some 1677665160000)) false;
                      mkDrawn (mkLabel "10:07" (Some 1677665220000)) true ])
  /\ overlapped horizontal
       (pixelFrom1005 (toSeconds 1677665220000))
       (halfWidth charExtent "10:07")
       (Some (lastPixel horizontal (pixelFrom1005 (toSeconds 1677665100000))
                        (halfWidth charExtent "10:05")))
     = true.
Proof. repeat split; vm_compute; reflexivity. Qed.

(** ** The grid of a level *)

Module GridFacts.

Import CalendarFacts LabelFacts StepFacts SteppedFacts.

Lemma stepped_grid level t n :
  stepped level t n = gridPoint level (gridIndex level t + n).
Proof.
  unfold stepped, gridPoint, gridIndex, floorTo. destruct level; try lia;
    reflexivity.
Qed.

Lemma gridPoint_step level k :
  gridPoint level k + 1000 <= gridPoint level (k + 1)
  /\ gridPoint level (k + 1) <= gridPoint level k + 366 * msPerDay.
Proof.
  unfold gridPoint. destruct level;
    try (unfold msPerSecond, msPerMinute, msPerHour, msPerDay; lia).
  - pose proof (month_length k). unfold msPerDay. lia.
  - rewrite !MakeDay_feb_first, DayFromYear_succ.
    pose proof (DaysInYear_bounds k). unfold msPerDay. lia.
Qed.

Lemma gridPoint_step_small level k :
  level <> eYear ->
  gridPoint level (k + 1) <= gridPoint level k + 31 * msPerDay.
Proof.
  intros Hl. unfold gridPoint. destruct level; try congruence;
    try (unfold msPerSecond, msPerMinute, msPerHour, msPerDay; lia).
  pose proof (month_length k). unfold msPerDay. lia.
Qed.

Lemma gridPoint_grows level k n :
  0 <= n -> gridPoint level k + 1000 * n <= gridPoint level (k + n).
Proof.
  intros Hn. revert n Hn. apply natlike_ind.
  - replace (k + 0) with k by lia. lia.
  - intros n Hn IH. replace (k + Z.succ n) with (k + n + 1) by lia.
    pose proof (gridPoint_step level (k + n)). lia.
Qed.

Lemma gridPoint_lt level k k' :
  k < k' -> gridPoint level k < gridPoint level k'.
Proof.
  intros H. pose proof (gridPoint_grows level k (k' - k) ltac:(lia)) as G.
  replace (k + (k' - k)) with k' in G by lia. lia.
Qed.

Lemma gridPoint_le level k k' :
  k <= k' -> gridPoint level k <= gridPoint level k'.
Proof.
  intros H. destruct (Z.eq_dec k k') as [->|Hne]; [lia|].
  pose proof (gridPoint_lt level k k' ltac:(lia)). lia.
Qed.

Lemma gridPoint_lt_inv level k k' :
  gridPoint level k < gridPoint level k' -> k < k'.
Proof.
  intros H. destruct (Z_lt_le_dec k k') as [|Hle]; [assumption|].
  pose proof (gridPoint_le level k' k Hle). lia.
Qed.

Lemma gridIndex_gridPoint level k : gridIndex level (gridPoint level k) = k.
Proof.
  unfold gridIndex, gridPoint. destruct level.
  - rewrite Z.mul_comm. apply Z.div_mul. discriminate.
  - rewrite Z.mul_comm. apply Z.div_mul. discriminate.
  - rewrite Z.mul_comm. apply Z.div_mul. discriminate.
  - rewrite Z.mul_comm. apply Z.div_mul. discriminate.
  - apply fields_of_month_start.
  - apply year_of_feb_first.
Qed.

(** Below the year level an instant lies between its grid point and the
    next. *)
Lemma grid_floor level t :
  level <> eYear ->
  gridPoint level (gridIndex level t) <= t
  < gridPoint level (gridIndex level t + 1).
Proof.
  intros Hl. unfold gridPoint, gridIndex. destruct level; try congruence.
  - unfold msPerSecond. Z.div_mod_to_equations. lia.
  - unfold msPerMinute. Z.div_mod_to_equations. lia.
  - unfold msPerHour. Z.div_mod_to_equations. lia.
  - unfold msPerDay. Z.div_mod_to_equations. lia.
  - destruct (month_of_time t) as [E Hnext].
    pose proof (DateFromTime_bounds t) as Bd.
    pose proof (floorTo_le msPerDay t eq_refl) as F.
    unfold floorTo in F. fold (Day t) in F. rewrite E.
    unfold msPerDay in *. lia.
Qed.

Lemma gridIndex_mono level t t' :
  t <= t' -> gridIndex level t <= gridIndex level t'.
Proof.
  intros H. destruct (EDateTimeLevel_eq_dec level eYear) as [->|Hl].
  - apply YearFromTime_mono, H.
  - pose proof (grid_floor level t Hl) as [F1 _].
    pose proof (grid_floor level t' Hl) as [_ F2].
    assert (gridIndex level t < gridIndex level t' + 1)
      by (apply (gridPoint_lt_inv level); lia).
    lia.
Qed.

Lemma time_of_day_zero d :
  let t := msPerDay * d in
  HourFromTime t = 0 /\ MinFromTime t = 0 /\ SecFromTime t = 0
  /\ msFromTime t = 0.
Proof.
  cbv zeta. unfold HourFromTime, MinFromTime, SecFromTime, msFromTime,
    msPerHour, msPerMinute, msPerSecond, msPerDay.
  replace (86400000 * d) with (d * 24 * 3600000) at 1 by lia.
  replace (86400000 * d) with (d * 24 * 60 * 60000) at 1 by lia.
  replace (86400000 * d) with (d * 1440 * 60 * 1000) at 1 by lia.
  replace (86400000 * d) with (d * 86400 * 1000) by lia.
  rewrite !Z.div_mul by discriminate.
  rewrite !Z.mod_mul by discriminate. auto.
Qed.

Lemma month_start_date k : DateFromTime (msPerDay * MakeDay 0 k 1) = 1.
Proof.
  destruct (fields_of_month_start k) as (Y & M & _). cbv zeta in *.
  destruct (split_months k) as (q & r & Hk & Hr & Hq & Hrm).
  unfold DateFromTime, DayWithinYear, InLeapYear. rewrite Y, M, Hq, Hrm.
  rewrite Day_of_days. subst k. rewrite MakeDay_month_start by assumption.
  lia.
Qed.

(** Below the year level the aligned instants are the grid points. *)
Lemma aligned_grid level a :
  level <> eYear ->
  aligned level a <-> gridPoint level (gridIndex level a) = a.
Proof.
  intros Hl. split.
  - intros Ha. rewrite <- (stepped_zero_aligned level a Ha Hl) at 2.
    rewrite stepped_grid. f_equal. lia.
  - intros E. unfold aligned, alignedb.
    destruct (floorTo_fields a) as (FD & FH & FM & FS & Ft).
    pose proof (time_fields_bounds a) as (Bh & Bm & Bs & Bms).
    unfold gridPoint, gridIndex in E. unfold floorTo in *.
    destruct level; try congruence; cbn [level_ltb levelCode];
      rewrite ?andb_true_iff, ?orb_true_iff.
    + repeat split; try (left; reflexivity).
      apply Z.eqb_eq. lia.
    + assert (SecFromTime a = 0 /\ msFromTime a = 0) as [-> ->]
        by (unfold msPerSecond, msPerMinute, msPerHour, msPerDay in *; lia).
      repeat split; try (left; reflexivity); right; reflexivity.
    + assert (MinFromTime a = 0 /\ SecFromTime a = 0 /\ msFromTime a = 0)
        as (-> & -> & ->)
        by (unfold msPerSecond, msPerMinute, msPerHour, msPerDay in *; lia).
      repeat split; try (left; reflexivity); right; reflexivity.
    + assert (HourFromTime a = 0 /\ MinFromTime a = 0 /\ SecFromTime a = 0
              /\ msFromTime a = 0) as (-> & -> & -> & ->)
        by (unfold msPerSecond, msPerMinute, msPerHour, msPerDay in *; lia).
      repeat split; try (left; reflexivity); right; reflexivity.
    + rewrite <- E.
      destruct (time_of_day_zero (MakeDay 0 (monthIndex a) 1))
        as (-> & -> & -> & ->).
      rewrite month_start_date.
      repeat split; try (left; reflexivity); right; reflexivity.
Qed.

Lemma gridPoint_aligned level k :
  level <> eYear -> aligned level (gridPoint level k).
Proof.
  intros Hl. apply aligned_grid; [assumption|].
  rewrite gridIndex_gridPoint. reflexivity.
Qed.

End GridFacts.

(** ** Rounding down, stepping and rounding up *)

Section Rounding.

Import CalendarFacts LabelFacts StepFacts SteppedFacts GridFacts.

Variable loc : string -> string.
Variable toLocaleDateString : Z -> string.

Lemma label_as_increment level t :
  validTime t ->
  instantOf (getLevelLabelForValue loc toLocaleDateString level (Some t))
  = Normal (dateOf (getLabelForIncrementedDateAtLevel loc level (Some t) 0)).
Proof.
  intros Hv.
  unfold getLevelLabelForValue, getLabelForIncrementedDateAtLevel, asDate,
    newDateFromValue.
  rewrite (TimeClip_valid t Hv). cbv zeta.
  unfold getFullYear, getMonth, getDate, getHours, getMinutes, getSeconds.
  pose proof (time_fields_bounds t) as (Bh & _).
  pose proof (MonthFromTime_bounds t) as Bm.
  destruct level; cbn [level_ltb levelCode Z.ltb Z.compare instantOf bindC
                        labelDate dateOf]; rewrite ?Z.add_0_r.
  - reflexivity.
  - reflexivity.
  - destruct (carry_spec 24 (DateFromTime t) (HourFromTime t) ltac:(lia))
      as (_ & _ & Same & _).
    rewrite Same by lia. cbv beta iota zeta.
    cbn [dateOf labelDate]. reflexivity.
  - reflexivity.
  - destruct (carry_spec 12 (YearFromTime t) (MonthFromTime t) ltac:(lia))
      as (_ & _ & Same & _).
    rewrite Same by lia. cbv beta iota zeta.
    rewrite (monthName_of_month loc t).
    cbn [bindC labelDate].
    destruct (newDate _ _ _ _ _ _) as [r|]; cbn [option_map].
    + rewrite (monthName_of_month loc r). cbn [bindC dateOf labelDate].
      reflexivity.
    + cbn [monthName bindC dateOf]. reflexivity.
  - reflexivity.
Qed.

(** The grid point of an instant of year 100 or later is a valid date. *)
Lemma grid_point_valid level t :
  validTime t -> 100 <= YearFromTime t ->
  validTime (stepped level t 0) /\ 100 <= YearFromTime (stepped level t 0).
Proof.
  intros Hv Hy.
  pose proof (stepped_year level t 0 ltac:(lia)) as Y.
  split; [|lia].
  pose proof (year_100_lower (stepped level t 0) ltac:(lia)) as Lo.
  destruct (EDateTimeLevel_eq_dec level eYear) as [->|Hl].
  - unfold stepped. rewrite Z.add_0_r.
    apply february_first_valid; assumption.
  - rewrite stepped_grid, Z.add_0_r in *.
    pose proof (grid_floor level t Hl) as [F _].
    unfold validTime in *. lia.
Qed.

Lemma label_instant level t :
  validTime t -> 100 <= YearFromTime t ->
  instantOf (getLevelLabelForValue loc toLocaleDateString level (Some t))
  = Normal (Some (stepped level t 0)).
Proof.
  intros Hv Hy. rewrite label_as_increment by assumption.
  pose proof (inc_raw loc level t 0 Hv) as I.
  rewrite rawInc_stepped in I by lia. unfold clipped in I.
  rewrite (TimeClip_valid _ (proj1 (grid_point_valid level t Hv Hy))) in I.
  destruct (getLabelForIncrementedDateAtLevel loc level (Some t) 0) as [l|];
    cbn in I; [|discriminate].
  injection I as I. cbn [dateOf]. rewrite I. reflexivity.
Qed.

Lemma increment_date level t n :
  validTime t ->
  dateOf (getLabelForIncrementedDateAtLevel loc level (Some t) n)
  = TimeClip (rawInc level t n).
Proof.
  intros Hv. pose proof (inc_raw loc level t n Hv) as I. unfold clipped in I.
  destruct (getLabelForIncrementedDateAtLevel loc level (Some t) n) as [l|];
    cbn in I; cbn [dateOf].
  - destruct (TimeClip (rawInc level t n)).
    + congruence.
    + destruct level; congruence.
  - destruct (TimeClip (rawInc level t n)); [discriminate|reflexivity].
Qed.

(** *** The next label *)

Lemma next_as_label level t :
  validTime t ->
  getNextLevelLabelForValue loc toLocaleDateString level (Some t)
  = getLevelLabelForValue loc toLocaleDateString level
                          (TimeClip (nextRaw level t)).
Proof.
  intros Hv. unfold getNextLevelLabelForValue, asDate, newDateFromValue,
    nextRaw, newDate.
  rewrite (TimeClip_valid t Hv). cbv zeta.
  unfold getFullYear, getMonth, getDate, getHours, getMinutes, getSeconds.
  pose proof (time_fields_bounds t) as (Bh & Bmi & Bs & _).
  pose proof (MonthFromTime_bounds t) as Bm.
  destruct level; cbn [level_leb levelCode].
  - destruct (Z.ltb_spec 60 (SecFromTime t + 1)); [lia|]. reflexivity.
  - destruct (Z.ltb_spec 60 (MinFromTime t + 1)); [lia|]. reflexivity.
  - destruct (Z.ltb_spec 24 (HourFromTime t + 1)); [lia|]. reflexivity.
  - reflexivity.
  - destruct (Z.ltb_spec 12 (MonthFromTime t + 1)); [lia|]. reflexivity.
  - reflexivity.
Qed.

Lemma next_raw_index level t :
  gridIndex level t + 1 <= gridIndex level (nextRaw level t).
Proof.
  destruct (floorTo_fields t) as (FD & FH & FM & FS & _).
  pose proof (time_fields_bounds t) as (Bh & Bmi & Bs & _).
  pose proof (DateFromTime_bounds t) as Bd.
  pose proof (MonthFromTime_bounds t) as Bm.
  unfold floorTo in *.
  assert (Sub : forall u v, 0 < u -> u * (t / u) + u <= v -> t / u + 1 <= v / u).
  { intros u v Hu Hle. apply Z.div_le_lower_bound; [assumption|]. lia. }
  destruct level.
  - pose proof (proj1 (year_remap_day t (DateFromTime t))) as R.
    cbv zeta in R. apply Sub; [reflexivity|].
    unfold nextRaw, getFullYear, getMonth, getDate, getHours, getMinutes,
      getSeconds, MakeDate, MakeTime.
    unfold msPerDay, msPerHour, msPerMinute, msPerSecond in *. lia.
  - pose proof (proj1 (year_remap_day t (DateFromTime t))) as R.
    cbv zeta in R. apply Sub; [reflexivity|].
    unfold nextRaw, getFullYear, getMonth, getDate, getHours, getMinutes,
      getSeconds, MakeDate, MakeTime.
    unfold msPerDay, msPerHour, msPerMinute, msPerSecond in *. lia.
  - pose proof (proj1 (year_remap_day t (DateFromTime t))) as R.
    cbv zeta in R. apply Sub; [reflexivity|].
    unfold nextRaw, getFullYear, getMonth, getDate, getHours, getMinutes,
      getSeconds, MakeDate, MakeTime.
    unfold msPerDay, msPerHour, msPerMinute, msPerSecond in *. lia.
  - pose proof (proj1 (year_remap_day t (DateFromTime t + 1))) as R.
    cbv zeta in R. apply Sub; [reflexivity|].
    unfold nextRaw, getFullYear, getMonth, getDate, MakeDate.
    unfold msPerDay in *. lia.
  - clear FD FH FM FS Sub.
    apply Z.le_trans
      with (gridIndex eMonth (gridPoint eMonth (gridIndex eMonth t + 1))).
    { rewrite gridIndex_gridPoint. apply Z.le_refl. }
    apply gridIndex_mono.
    pose proof (MakeDay_year_mono _ _ (MonthFromTime t + 1) (DateFromTime t)
                  (MakeFullYear_ge (YearFromTime t))) as Mo.
    rewrite (MakeDay_months (YearFromTime t)) in Mo.
    replace (12 * YearFromTime t + (MonthFromTime t + 1))
      with (monthIndex t + 1) in Mo by (unfold monthIndex; lia).
    assert (E : MakeDay 0 (monthIndex t + 1) (DateFromTime t)
                = MakeDay 0 (monthIndex t + 1) 1 + (DateFromTime t - 1)).
    { rewrite <- MakeDay_date. f_equal. lia. }
    unfold gridPoint, gridIndex, nextRaw, getFullYear, getMonth, getDate,
      MakeDate.
    unfold msPerDay. lia.
  - clear FD FH FM FS Sub.
    pose proof (MakeDay_year_mono _ _ (MonthFromTime t) (DateFromTime t)
                  (MakeFullYear_ge (YearFromTime t + 1))) as Mo.
    assert (DayFromYear (YearFromTime t + 1)
            <= MakeDay (YearFromTime t + 1) (MonthFromTime t) (DateFromTime t)).
    { unfold MakeDay. rewrite Z.div_small, Z.mod_small by lia.
      replace (YearFromTime t + 1 + 0) with (YearFromTime t + 1) by lia.
      pose proof (DaysBeforeMonth_leap _ _ Bm
                    (leap_flag_bounds (YearFromTime t + 1))). lia. }
    apply Z.le_trans
      with (gridIndex eYear (msPerDay * DayFromYear (YearFromTime t + 1))).
    { unfold gridIndex, YearFromTime at 2. rewrite Day_of_days.
      rewrite <- (Z.add_0_r (DayFromYear _)), YearFromDay_within by lia.
      apply Z.le_refl. }
    apply gridIndex_mono.
    unfold nextRaw, getFullYear, getMonth, getDate, MakeDate.
    unfold msPerDay. lia.
Qed.

Lemma before_next_grid_point level t :
  t < gridPoint level (gridIndex level t + 1).
Proof.
  destruct (EDateTimeLevel_eq_dec level eYear) as [->|Hl].
  - unfold gridPoint, gridIndex. rewrite MakeDay_feb_first.
    pose proof (YearFromDay_spec (Day t)) as [_ S].
    fold (YearFromTime t) in S.
    pose proof (floorTo_le msPerDay t eq_refl) as F.
    unfold floorTo in F. fold (Day t) in F. unfold msPerDay in *. lia.
  - apply grid_floor, Hl.
Qed.

Lemma label_of_invalid level d :
  asDate d = None ->
  getLevelLabelForValue loc toLocaleDateString level d
  = Normal (mkLabel "" None).
Proof. intros H. unfold getLevelLabelForValue. rewrite H. reflexivity. Qed.

Lemma label_date level v :
  validTime v ->
  instantOf (getLevelLabelForValue loc toLocaleDateString level (Some v))
  = Normal (TimeClip (rawInc level v 0)).
Proof.
  intros Hv. rewrite label_as_increment, increment_date by assumption.
  reflexivity.
Qed.

Lemma next_label_later level iDate :
  exists d,
    instantOf (getNextLevelLabelForValue loc toLocaleDateString level iDate)
    = Normal d
    /\ forall t r, iDate = Some t -> d = Some r -> t < r.
Proof.
  destruct (asDate iDate) as [t0|] eqn:Ha.
  - destruct iDate as [t|]; [|discriminate]. cbn in Ha.
    apply TimeClip_Some in Ha. destruct Ha as [-> Hv].
    rewrite next_as_label by assumption.
    destruct (TimeClip (nextRaw level t)) as [v|] eqn:Hc.
    + apply TimeClip_Some in Hc. destruct Hc as [-> Vv].
      rewrite label_date by assumption.
      eexists. split; [reflexivity|].
      intros t' r [= <-] Hr. apply TimeClip_Some in Hr. destruct Hr as [-> _].
      pose proof (rawInc_ge_stepped level (nextRaw level t) 0) as G.
      rewrite stepped_grid, Z.add_0_r in G.
      pose proof (gridPoint_le level _ _ (next_raw_index level t)).
      pose proof (before_next_grid_point level t). lia.
    + rewrite label_of_invalid by reflexivity.
      exists None. split; [reflexivity|]. intros t' r _ [=].
  - exists None. split; [|intros t r _ [=]].
    unfold getNextLevelLabelForValue. rewrite Ha.
    rewrite label_of_invalid by reflexivity. reflexivity.
Qed.

(** X1. [getNextLevelLabelForValue] never raises, and the instant it returns
    for a date is either invalid or strictly later than that date, at every
    level and for every date (years 0..99 and unaligned dates included): a
    loop that follows the next labels always moves forward. *)
Theorem next_label_is_later level iDate :
  exists d,
    instantOf (getNextLevelLabelForValue loc toLocaleDateString level iDate)
    = Normal d
    /\ forall t r, iDate = Some t -> d = Some r -> t < r.
Proof. exact (next_label_later level iDate). Qed.

Lemma grid_index_unique level v k :
  level <> eYear ->
  gridPoint level k <= v < gridPoint level (k + 1) -> gridIndex level v = k.
Proof.
  intros Hl [H1 H2]. pose proof (grid_floor level v Hl) as [F1 F2].
  assert (k < gridIndex level v + 1) by (apply (gridPoint_lt_inv level); lia).
  assert (gridIndex level v < k + 1) by (apply (gridPoint_lt_inv level); lia).
  lia.
Qed.

(** The raw next date from year 100 on, when the day of the month exists in
    the next month. *)
Lemma next_raw_bounds level t :
  level <> eYear -> 100 <= YearFromTime t ->
  (level = eMonth -> DateFromTime t <= 28) ->
  gridPoint level (gridIndex level t + 1) <= nextRaw level t
  < gridPoint level (gridIndex level t + 1 + 1)
  /\ nextRaw level t <= t + 31 * msPerDay.
Proof.
  intros Hl Hy Hd.
  destruct (floorTo_fields t) as (FD & FH & FM & FS & _).
  pose proof (time_fields_bounds t) as (Bh & Bmi & Bs & Bms).
  pose proof (DateFromTime_bounds t) as Bd.
  assert (Hy' : ~ 0 <= YearFromTime t <= 99) by lia.
  pose proof (floorTo_le msPerDay t eq_refl) as Ft.
  unfold floorTo in *. fold (Day t) in *.
  destruct level; try congruence; unfold gridPoint, gridIndex;
    unfold nextRaw, getFullYear, getMonth, getDate, getHours, getMinutes,
      getSeconds; cbv zeta.
  - rewrite (proj2 (year_remap_day t (DateFromTime t)) Hy').
    unfold MakeDate, MakeTime.
    unfold msPerDay, msPerHour, msPerMinute, msPerSecond in *. lia.
  - rewrite (proj2 (year_remap_day t (DateFromTime t)) Hy').
    unfold MakeDate, MakeTime.
    unfold msPerDay, msPerHour, msPerMinute, msPerSecond in *. lia.
  - rewrite (proj2 (year_remap_day t (DateFromTime t)) Hy').
    unfold MakeDate, MakeTime.
    unfold msPerDay, msPerHour, msPerMinute, msPerSecond in *. lia.
  - rewrite (proj2 (year_remap_day t (DateFromTime t + 1)) Hy').
    unfold MakeDate, Day in *.
    unfold msPerDay, msPerHour, msPerMinute, msPerSecond in *. lia.
  - specialize (Hd eq_refl).
    rewrite MakeFullYear_id by assumption.
    rewrite (MakeDay_months (YearFromTime t)).
    replace (12 * YearFromTime t + (MonthFromTime t + 1))
      with (monthIndex t + 1) by (unfold monthIndex; lia).
    assert (E : MakeDay 0 (monthIndex t + 1) (DateFromTime t)
                = MakeDay 0 (monthIndex t + 1) 1 + (DateFromTime t - 1)).
    { rewrite <- MakeDay_date. f_equal. lia. }
    rewrite E.
    destruct (month_of_time t) as [E0 _].
    pose proof (month_length (monthIndex t)).
    pose proof (month_length (monthIndex t + 1)).
    unfold MakeDate. unfold msPerDay in *. lia.
Qed.

(** X2. From year 100 on and away from the end of the range of dates,
    [getNextLevelLabelForValue] at the second, minute, hour and day levels
    returns for every instant [t] (aligned or not) the next aligned instant:
    it is aligned, later than [t], and no aligned instant lies between.  At
    the month level the same holds when the day of the month of [t] is at
    most 28. *)
Theorem next_label_is_next_aligned level t :
  level <> eYear -> validTime t -> 100 <= YearFromTime t -> farFromEnd t ->
  (level = eMonth -> DateFromTime t <= 28) ->
  exists r,
    instantOf (getNextLevelLabelForValue loc toLocaleDateString level (Some t))
    = Normal (Some r)
    /\ aligned level r /\ t < r
    /\ forall a, aligned level a -> t < a -> r <= a.
Proof.
  intros Hl Hv Hy Hfar Hd.
  destruct (next_raw_bounds level t Hl Hy Hd) as ([R1 R2] & R3).
  pose proof (before_next_grid_point level t) as Before.
  assert (Vr : validTime (nextRaw level t)).
  { unfold validTime, farFromEnd in *. unfold msPerDay in *. lia. }
  assert (Yr : 100 <= YearFromTime (nextRaw level t)).
  { pose proof (YearFromTime_mono t (nextRaw level t) ltac:(lia)). lia. }
  exists (gridPoint level (gridIndex level t + 1)).
  split; [|split; [|split]].
  - rewrite next_as_label, (TimeClip_valid _ Vr) by assumption.
    rewrite label_instant by assumption.
    rewrite stepped_grid, Z.add_0_r.
    rewrite (grid_index_unique level _ (gridIndex level t + 1) Hl);
      [reflexivity|]. lia.
  - apply gridPoint_aligned, Hl.
  - exact Before.
  - intros a Ha Hlt. apply aligned_grid in Ha; [|assumption].
    rewrite <- Ha. apply gridPoint_le.
    pose proof (gridIndex_mono level t a ltac:(lia)).
    destruct (Z.eq_dec (gridIndex level a) (gridIndex level t)) as [E|Hne];
      [|lia].
    exfalso. rewrite E in Ha. pose proof (grid_floor level t Hl). lia.
Qed.

(** *** The label of an instant *)

(** X3. From year 100 on, [getLevelLabelForValue] at every level below the
    year level returns the greatest aligned instant that is at most the
    input: the instant rounded down to the level. *)
Theorem label_rounds_down level t :
  level <> eYear -> validTime t -> 100 <= YearFromTime t ->
  exists r,
    instantOf (getLevelLabelForValue loc toLocaleDateString level (Some t))
    = Normal (Some r)
    /\ aligned level r /\ r <= t
    /\ forall a, aligned level a -> a <= t -> a <= r.
Proof.
  intros Hl Hv Hy. exists (gridPoint level (gridIndex level t)).
  split; [|split; [|split]].
  - rewrite label_instant, stepped_grid, Z.add_0_r by assumption.
    reflexivity.
  - apply gridPoint_aligned, Hl.
  - apply grid_floor, Hl.
  - intros a Ha Hle. apply aligned_grid in Ha; [|assumption].
    rewrite <- Ha. apply gridPoint_le, gridIndex_mono, Hle.
Qed.

(** X4. From year 100 on, labelling is idempotent at every level (the year
    level included): the label of the instant of a label is that same
    instant. *)
Theorem label_of_label level t :
  validTime t -> 100 <= YearFromTime t ->
  (do l <- getLevelLabelForValue loc toLocaleDateString level (Some t);
   instantOf (getLevelLabelForValue loc toLocaleDateString level
                                    (labelDate l)))
  = instantOf (getLevelLabelForValue loc toLocaleDateString level (Some t)).
Proof.
  intros Hv Hy. pose proof (label_instant level t Hv Hy) as I.
  destruct (getLevelLabelForValue loc toLocaleDateString level (Some t))
    as [l|]; cbn in I; [|discriminate].
  injection I as I. cbn [bindC instantOf]. rewrite I.
  destruct (grid_point_valid level t Hv Hy) as [Vg Yg].
  fold (instantOf (getLevelLabelForValue loc toLocaleDateString level
                     (Some (stepped level t 0)))).
  rewrite label_instant by assumption.
  rewrite stepped_compose. reflexivity.
Qed.

(** *** The increment *)

Lemma increment_on_grid level t n :
  validTime t -> 100 <= YearFromTime t -> 0 <= n ->
  instantOf (getLabelForIncrementedDateAtLevel loc level (Some t) n)
  = clipped level (gridPoint level (gridIndex level t + n)).
Proof.
  intros Hv Hy Hn.
  rewrite inc_raw, rawInc_stepped, stepped_grid by assumption. reflexivity.
Qed.

(** X5. From year 100 on, [getLabelForIncrementedDateAtLevel] with a
    non-negative count [n] moves exactly [n] grid points forward from the
    grid point of the input: [n] whole seconds, minutes, hours or days after
    the input rounded down to that unit (the carry loop of the hour level
    included), the first day of the month [n] months later, or the first day
    of month 1 of the year [n] years later.  A result outside the range of
    dates is the invalid date, and a [TypeError] at the month level. *)
Theorem increment_moves_n_grid_points level t n :
  validTime t -> 100 <= YearFromTime t -> 0 <= n ->
  instantOf (getLabelForIncrementedDateAtLevel loc level (Some t) n)
  = clipped level (gridPoint level (gridIndex level t + n)).
Proof.
  intros Hv Hy Hn.
  rewrite inc_raw, rawInc_stepped, stepped_grid by assumption. reflexivity.
Qed.

Lemma month_start_fields k :
  fieldsOf (gridPoint eMonth k) = mkFields (k / 12) (k mod 12) 1 0 0 0 0.
Proof.
  destruct (fields_of_month_start k) as (Y & M & _).
  destruct (time_of_day_zero (MakeDay 0 k 1)) as (H0 & M0 & S0 & Ms0).
  pose proof (month_start_date k) as D.
  cbv zeta in Y, M, H0, M0, S0, Ms0.
  unfold gridPoint, fieldsOf, getFullYear, getMonth, getDate, getHours,
    getMinutes, getSeconds.
  f_equal; assumption.
Qed.

Lemma clipped_Some level v r : clipped level v = Normal (Some r) -> r = v.
Proof.
  unfold clipped. destruct (TimeClip v) as [r'|] eqn:Hc.
  - apply TimeClip_Some in Hc. destruct Hc as [-> _]. congruence.
  - destruct level; discriminate.
Qed.

(** X6. From year 100 on, a month-level increment by [n >= 0] that stays in
    the range of dates lands on day 1, 00:00:00, of the month that lies [n]
    months after the month of the input: with [m] the months counted from
    January of year 0, the year is [(m + n) / 12] and the month
    [(m + n) mod 12].  The carries written with [> 12] are made good by the
    Date constructor. *)
Theorem month_increment_fields t n r :
  validTime t -> 100 <= YearFromTime t -> 0 <= n ->
  instantOf (getLabelForIncrementedDateAtLevel loc eMonth (Some t) n)
  = Normal (Some r) ->
  fieldsOf r
  = mkFields ((monthIndex t + n) / 12) ((monthIndex t + n) mod 12) 1 0 0 0 0.
Proof.
  intros Hv Hy Hn Hr.
  rewrite inc_raw, rawInc_stepped, stepped_grid in Hr by assumption.
  apply clipped_Some in Hr. rewrite Hr.
  exact (month_start_fields (monthIndex t + n)).
Qed.

(** *** The first tick *)

Lemma newDate_of_fields t d' h' mi' s' :
  100 <= YearFromTime t ->
  newDate (YearFromTime t) (MonthFromTime t) d' h' mi' s'
  = TimeClip (msPerDay * (Day t + (d' - DateFromTime t))
              + MakeTime h' mi' s' 0).
Proof.
  intros Hy. unfold newDate, MakeDate.
  rewrite (proj2 (year_remap_day t d')) by lia. f_equal. lia.
Qed.

Lemma newDate_of_month y m' :
  100 <= y ->
  newDate y m' 1 0 0 0 = TimeClip (gridPoint eMonth (12 * y + m')).
Proof.
  intros Hy. unfold newDate, MakeDate, gridPoint.
  rewrite MakeFullYear_id, (MakeDay_months y) by assumption.
  change (MakeTime 0 0 0 0) with 0. f_equal. lia.
Qed.

Lemma newDate_of_year y :
  100 <= y -> newDate y 1 1 0 0 0 = TimeClip (gridPoint eYear y).
Proof.
  intros Hy. unfold newDate, MakeDate, gridPoint.
  rewrite MakeFullYear_id by assumption.
  change (MakeTime 0 0 0 0) with 0. f_equal. lia.
Qed.

(** The instant of the first tick: the grid point of the input, or the next
    one when the grid point lies before the input (the same one again at the
    second level). *)
Lemma first_value level t :
  validTime t -> 100 <= YearFromTime t ->
  instantOf (findFirstDateAboveOrAtLevel loc level (Some t))
  = if gridPoint level (gridIndex level t) <? t
    then clipped level
           (gridPoint level
              (gridIndex level t + match level with eSecond => 0 | _ => 1 end))
    else Normal (Some (gridPoint level (gridIndex level t))).
Proof.
  intros Hv Hy.
  destruct (grid_point_valid level t Hv Hy) as [Vg _].
  rewrite stepped_grid, Z.add_0_r in Vg. apply TimeClip_valid in Vg.
  destruct (floorTo_fields t) as (FD & FH & FM & FS & _).
  unfold floorTo in *. fold (Day t) in *.
  unfold findFirstDateAboveOrAtLevel, asDate, newDateFromValue, clipped.
  rewrite (TimeClip_valid t Hv). cbv zeta.
  unfold getFullYear, getMonth, getDate, getHours, getMinutes, getSeconds.
  pose proof (MonthFromTime_bounds t) as Bm.
  destruct level; unfold gridIndex in *; rewrite ?Z.add_0_r.
  - rewrite newDate_of_fields by assumption.
    replace (msPerDay * (Day t + (DateFromTime t - DateFromTime t))
             + MakeTime (HourFromTime t) (MinFromTime t) (SecFromTime t) 0)
      with (gridPoint eSecond (t / msPerSecond))
      by (unfold gridPoint, MakeTime; lia).
    rewrite Vg. cbn [num_ltb].
    destruct (_ <? _); reflexivity.
  - rewrite !newDate_of_fields by assumption.
    replace (msPerDay * (Day t + (DateFromTime t - DateFromTime t))
             + MakeTime (HourFromTime t) (MinFromTime t) 0 0)
      with (gridPoint eMinute (t / msPerMinute))
      by (unfold gridPoint, MakeTime; lia).
    replace (msPerDay * (Day t + (DateFromTime t - DateFromTime t))
             + MakeTime (HourFromTime t) (MinFromTime t + 1) 0 0)
      with (gridPoint eMinute (t / msPerMinute + 1))
      by (unfold gridPoint, MakeTime;
          unfold msPerDay, msPerHour, msPerMinute, msPerSecond in *; lia).
    rewrite Vg. cbn [num_ltb].
    destruct (_ <? _); [|reflexivity].
    cbn [instantOf bindC labelDate].
    destruct (TimeClip (gridPoint _ (_ + 1))); reflexivity.
  - rewrite !newDate_of_fields by assumption.
    replace (msPerDay * (Day t + (DateFromTime t - DateFromTime t))
             + MakeTime (HourFromTime t) 0 0 0)
      with (gridPoint eHour (t / msPerHour))
      by (unfold gridPoint, MakeTime; lia).
    replace (msPerDay * (Day t + (DateFromTime t - DateFromTime t))
             + MakeTime (HourFromTime t + 1) 0 0 0)
      with (gridPoint eHour (t / msPerHour + 1))
      by (unfold gridPoint, MakeTime;
          unfold msPerDay, msPerHour, msPerMinute, msPerSecond in *; lia).
    rewrite Vg. cbn [num_ltb].
    destruct (_ <? _); [|reflexivity].
    cbn [instantOf bindC labelDate].
    destruct (TimeClip (gridPoint _ (_ + 1))); reflexivity.
  - rewrite !newDate_of_fields by assumption.
    replace (msPerDay * (Day t + (DateFromTime t - DateFromTime t))
             + MakeTime 0 0 0 0)
      with (gridPoint eDay (t / msPerDay))
      by (unfold gridPoint, MakeTime; fold (Day t); lia).
    replace (msPerDay * (Day t + (DateFromTime t + 1 - DateFromTime t))
             + MakeTime 0 0 0 0)
      with (gridPoint eDay (t / msPerDay + 1))
      by (unfold gridPoint, MakeTime; fold (Day t); lia).
    rewrite Vg. cbn [num_ltb].
    destruct (_ <? _); [|reflexivity].
    cbn [instantOf bindC labelDate].
    destruct (TimeClip (gridPoint _ (_ + 1))); reflexivity.
  - rewrite !newDate_of_month by lia. fold (monthIndex t).
    replace (12 * YearFromTime t + (MonthFromTime t + 1))
      with (monthIndex t + 1) by (unfold monthIndex; lia).
    rewrite Vg. cbn [num_ltb].
    destruct (_ <? _).
    + destruct (Z.ltb_spec 12 (MonthFromTime t + 1)); [lia|].
      destruct (TimeClip (gridPoint _ (_ + 1))) as [r|]; cbn [option_map];
        [|reflexivity].
      unfold getMonth. rewrite (monthName_of_month loc r). reflexivity.
    + cbn [option_map]. unfold getMonth.
      rewrite (monthName_of_month loc _). reflexivity.
  - rewrite !newDate_of_year by lia.
    rewrite Vg. cbn [num_ltb].
    destruct (_ <? _); [|reflexivity].
    cbn [instantOf bindC labelDate].
    destruct (TimeClip (gridPoint _ (_ + 1))); reflexivity.
Qed.

Lemma first_tick_ceiling level t :
  level <> eSecond -> level <> eYear ->
  validTime t -> 100 <= YearFromTime t -> farFromEnd t ->
  exists r,
    instantOf (findFirstDateAboveOrAtLevel loc level (Some t))
    = Normal (Some r)
    /\ aligned level r /\ t <= r
    /\ forall a, aligned level a -> t <= a -> r <= a.
Proof.
  intros Hs Hl Hv Hy Hfar.
  pose proof (first_value level t Hv Hy) as F.
  pose proof (grid_floor level t Hl) as [G1 G2].
  pose proof (gridPoint_step_small level (gridIndex level t) Hl) as St.
  destruct (Z.ltb_spec (gridPoint level (gridIndex level t)) t) as [Hlt|Hge].
  - exists (gridPoint level (gridIndex level t + 1)).
    split; [|split; [|split]].
    + rewrite F. replace (match level with eSecond => 0 | _ => 1 end) with 1
        by (destruct level; congruence).
      unfold clipped. rewrite TimeClip_valid; [reflexivity|].
      unfold validTime, farFromEnd in *. unfold msPerDay in *. lia.
    + apply gridPoint_aligned, Hl.
    + lia.
    + intros a Ha Hle. apply aligned_grid in Ha; [|assumption].
      rewrite <- Ha. apply gridPoint_le.
      pose proof (gridIndex_mono level t a Hle).
      destruct (Z.eq_dec (gridIndex level a) (gridIndex level t)) as [E|Hne];
        [|lia].
      exfalso. rewrite E in Ha. lia.
  - exists (gridPoint level (gridIndex level t)).
    split; [exact F|]. split; [apply gridPoint_aligned, Hl|].
    split; [lia|].
    intros a Ha Hle. lia.
Qed.

(** X7. From year 100 on and away from the end of the range of dates,
    [findFirstDateAboveOrAtLevel] at the minute, hour, day and month levels
    returns the least aligned instant that is at or after the input: it is
    aligned, not before the input, and no aligned instant lies in between. *)
Theorem first_tick_rounds_up level t :
  level <> eSecond -> level <> eYear ->
  validTime t -> 100 <= YearFromTime t -> farFromEnd t ->
  exists r,
    instantOf (findFirstDateAboveOrAtLevel loc level (Some t))
    = Normal (Some r)
    /\ aligned level r /\ t <= r
    /\ forall a, aligned level a -> t <= a -> r <= a.
Proof. exact (first_tick_ceiling level t). Qed.

(** X8. From year 100 on, [findFirstDateAboveOrAtLevel] is idempotent at every
    level: applied to the instant it returned, it returns that instant again
    (an invalid date stays invalid, a [TypeError] stays one). *)
Theorem first_tick_of_first_tick level t :
  validTime t -> 100 <= YearFromTime t ->
  (do l <- findFirstDateAboveOrAtLevel loc level (Some t);
   instantOf (findFirstDateAboveOrAtLevel loc level (labelDate l)))
  = instantOf (findFirstDateAboveOrAtLevel loc level (Some t)).
Proof.
  intros Hv Hy. pose proof (first_value level t Hv Hy) as F.
  assert (Again : forall k,
             gridIndex level t <= k -> validTime (gridPoint level k) ->
             instantOf (findFirstDateAboveOrAtLevel
                          loc level (Some (gridPoint level k)))
             = Normal (Some (gridPoint level k))).
  { intros k Hk Vk.
    assert (Yk : 100 <= YearFromTime (gridPoint level k)).
    { destruct (grid_point_valid level t Hv Hy) as [_ Yg].
      rewrite stepped_grid, Z.add_0_r in Yg.
      pose proof (gridPoint_le level _ _ Hk) as Le.
      pose proof (YearFromTime_mono _ _ Le). lia. }
    rewrite first_value, gridIndex_gridPoint by assumption.
    rewrite Z.ltb_irrefl. reflexivity. }
  destruct (findFirstDateAboveOrAtLevel loc level (Some t)) as [l|];
    cbn [instantOf bindC] in *; [|reflexivity].
  destruct (gridPoint level (gridIndex level t) <? t).
  - unfold clipped in F.
    destruct (TimeClip (gridPoint level _)) as [r|] eqn:Hc.
    + apply TimeClip_Some in Hc. destruct Hc as [-> Vr].
      injection F as F. rewrite F.
      fold (instantOf (findFirstDateAboveOrAtLevel loc level
                         (Some (gridPoint level
                                  (gridIndex level t
                                   + match level with
                                     | eSecond => 0
                                     | _ => 1
                                     end))))).
      apply Again; [destruct level; lia|assumption].
    + destruct level; try discriminate; injection F as F; rewrite F;
        reflexivity.
  - injection F as F. rewrite F.
    fold (instantOf (findFirstDateAboveOrAtLevel loc level
                       (Some (gridPoint level (gridIndex level t))))).
    apply Again; [lia|].
    destruct (grid_point_valid level t Hv Hy) as [Vg _].
    rewrite stepped_grid, Z.add_0_r in Vg. exact Vg.
Qed.

End Rounding.

(** ** The tick iterator *)

Section TickIterator.

Import CalendarFacts LabelFacts StepFacts SteppedFacts GridFacts.

Variable loc : string -> string.
Variable dataToCoordinate : Q -> Q.

Abbreviation ticks := (tickLoop loc dataToCoordinate).

Lemma first_tick_throw level d :
  findFirstDateAboveOrAtLevel loc level d = Throw -> level = eMonth.
Proof.
  unfold findFirstDateAboveOrAtLevel.
  destruct (asDate d); [|discriminate].
  destruct level; cbv zeta; try discriminate;
    repeat match goal with
           | |- context [if ?b then _ else _] => destruct b
           end; try discriminate; reflexivity.
Qed.

Lemma ticks_enough_fuel level tUpper :
  forall fuel tDate visited,
    (remaining tUpper tDate < fuel)%nat ->
    ticks fuel level tUpper tDate visited <> Normal None.
Proof.
  induction fuel as [|fuel IH]; intros tDate visited Hf; [lia|].
  cbn [tickLoop].
  destruct tDate as [d|]; cbn [num_ltb]; [|discriminate].
  destruct (Z.ltb_spec d tUpper) as [Hlt|Hge]; [|discriminate].
  pose proof (increment_outcome loc level d 1 ltac:(lia)) as O.
  destruct (getLabelForIncrementedDateAtLevel loc level (Some d) 1)
    as [l|]; cbn [bindC]; [|discriminate].
  apply IH. cbn [remaining] in Hf.
  destruct (labelDate l) as [d'|]; cbn [remaining]; lia.
Qed.

Lemma ticks_fuel_mono level tUpper :
  forall fuel fuel' tDate visited r,
    (fuel <= fuel')%nat ->
    ticks fuel level tUpper tDate visited = r -> r <> Normal None ->
    ticks fuel' level tUpper tDate visited = r.
Proof.
  induction fuel as [|fuel IH]; intros fuel' tDate visited r Hle Hr Hn.
  - cbn in Hr. congruence.
  - destruct fuel' as [|fuel']; [lia|]. cbn [tickLoop] in *.
    destruct (num_ltb tDate (Some tUpper)); [|exact Hr].
    destruct tDate as [d|]; [|exact Hr].
    destruct (getLabelForIncrementedDateAtLevel loc level (Some d) 1)
      as [l|]; cbn [bindC] in *; [|exact Hr].
    apply IH with (fuel' := fuel') in Hr; [exact Hr|lia|exact Hn].
Qed.

Lemma ticks_throw level tUpper :
  forall fuel tDate visited,
    ticks fuel level tUpper tDate visited = Throw -> level = eMonth.
Proof.
  induction fuel as [|fuel IH]; intros tDate visited Hr; [discriminate|].
  cbn [tickLoop] in Hr.
  destruct (num_ltb tDate (Some tUpper)); [|discriminate].
  destruct tDate as [d|]; [|discriminate].
  pose proof (increment_outcome loc level d 1 ltac:(lia)) as O.
  destruct (getLabelForIncrementedDateAtLevel loc level (Some d) 1)
    as [l|]; cbn [bindC] in Hr; [|exact O].
  eapply IH, Hr.
Qed.

(** The visits a run of the loop adds: increasing instants from the current
    date on, each below the upper bound and with its pixel. *)
Lemma ticks_added level tUpper :
  forall fuel tDate visited result,
    ticks fuel level tUpper tDate visited = Normal (Some result) ->
    exists added,
      result = visited ++ added
      /\ StronglySorted Z.lt (map fst added)
      /\ Forall (goodVisit dataToCoordinate tUpper) added
      /\ (forall d, tDate = Some d -> Forall (fun v => d <= fst v) added)
      /\ (tDate = None -> added = []).
Proof.
  induction fuel as [|fuel IH]; intros tDate visited result Hr;
    [discriminate|].
  assert (Stop : result = visited ->
                 exists added,
                   result = visited ++ added
                   /\ StronglySorted Z.lt (map fst added)
                   /\ Forall (goodVisit dataToCoordinate tUpper) added
                   /\ (forall d, tDate = Some d ->
                                 Forall (fun v => d <= fst v) added)
                   /\ (tDate = None -> added = [])).
  { intros ->. exists []. rewrite app_nil_r.
    repeat split; constructor. }
  cbn [tickLoop] in Hr.
  destruct tDate as [d|]; cbn [num_ltb] in Hr;
    [|injection Hr as <-; apply Stop; reflexivity].
  destruct (Z.ltb_spec d tUpper) as [Hlt|Hge];
    [|injection Hr as <-; apply Stop; reflexivity].
  pose proof (increment_outcome loc level d 1 ltac:(lia)) as O.
  destruct (getLabelForIncrementedDateAtLevel loc level (Some d) 1)
    as [l|]; cbn [bindC] in Hr; [|discriminate].
  apply IH in Hr. destruct Hr as (added & -> & Hs & Hg & Hd & Hn).
  exists ((d, dataToCoordinate (toSeconds d)) :: added).
  rewrite <- app_assoc. split; [reflexivity|].
  assert (Later : Forall (fun v => d < fst v) added).
  { destruct (labelDate l) as [d'|] eqn:El.
    - specialize (Hd d' eq_refl). apply Forall_impl with (2 := Hd).
      intros v Hv. lia.
    - rewrite (Hn eq_refl). constructor. }
  split; [|split; [|split]].
  - cbn [map fst]. constructor; [exact Hs|].
    apply Forall_map. exact Later.
  - constructor; [|exact Hg]. split; [exact Hlt|reflexivity].
  - intros d0 [= <-]. constructor; [cbn; lia|].
    apply Forall_impl with (2 := Later). intros v Hv. lia.
  - discriminate.
Qed.

(** X9. [forEachTickDo] ends for every pair of bounds: from some amount of
    fuel on it gives one and the same outcome.  The outcome is a list of
    visits whose instants increase strictly, each instant below the upper
    bound and handed to the visitor with the pixel of that instant; at the
    month level only, it can instead be the [TypeError] of a date out of
    range. *)
Theorem tick_iterator_moves_forward tLower tUpper :
  exists fuel0 r,
    (forall fuel, (fuel0 <= fuel)%nat ->
                  forEachTickDo loc dataToCoordinate fuel tLower tUpper = r)
    /\ match r with
       | Normal (Some visited) =>
           StronglySorted Z.lt (map fst visited)
           /\ Forall (goodVisit dataToCoordinate tUpper) visited
       | Normal None => False
       | Throw => innerLevel (determineLevels tLower tUpper) = eMonth
       end.
Proof.
  unfold forEachTickDo.
  set (level := innerLevel (determineLevels tLower tUpper)).
  destruct (findFirstDateAboveOrAtLevel loc level (Some tLower)) as [l|] eqn:Ef;
    cbn [bindC].
  - set (fuel0 := S (remaining tUpper (labelDate l))).
    exists fuel0, (ticks fuel0 level tUpper (labelDate l) []).
    pose proof (ticks_enough_fuel level tUpper fuel0 (labelDate l) []
                  ltac:(unfold fuel0; lia)) as T.
    split.
    + intros fuel Hf. eapply ticks_fuel_mono; eauto.
    + destruct (ticks fuel0 level tUpper (labelDate l) [])
        as [[visited|]|] eqn:Er.
      * apply ticks_added in Er.
        destruct Er as (added & -> & Hs & Hg & _). cbn [app].
        split; assumption.
      * congruence.
      * eapply ticks_throw, Er.
  - exists 0%nat, Throw. split; [reflexivity|].
    eapply first_tick_throw, Ef.
Qed.

(** *** The ticks of the minute, hour, day and month levels *)

Section OnTheGrid.

Variable level : EDateTimeLevel.
Variables tLower tUpper : Z.
Hypothesis level_below_year : level <> eYear.
Hypothesis lower_valid : validTime tLower.
Hypothesis lower_year : 100 <= YearFromTime tLower.
Hypothesis upper_far : farFromEnd tUpper.





End OnTheGrid.



End TickIterator.
(** ** The inner labels *)

Section InnerLabels.

Import CalendarFacts LabelFacts StepFacts SteppedFacts GridFacts.

Variable loc : string -> string.
Variable dataToCoordinate : Q -> Q.
Variable textExtentX : string -> Q.
Variable tOrientation : Orientation.
Variable tUpperBounds : Z.

Abbreviation draw :=
  (drawLoop loc tUpperBounds).
Abbreviation modulus :=
  (findDrawValueModulus loc dataToCoordinate textExtentX tOrientation
                        tUpperBounds).
Abbreviation inner :=
  (drawInnerLabels loc dataToCoordinate textExtentX tOrientation
                   tUpperBounds).
Abbreviation instants :=
  (map (fun d : DrawnTick => labelDate (drawnLabel d))).

Lemma increment_throw level d n :
  getLabelForIncrementedDateAtLevel loc level d n = Throw -> level = eMonth.
Proof.
  unfold getLabelForIncrementedDateAtLevel.
  destruct (asDate d); [|discriminate].
  destruct level; cbv zeta; try discriminate; try reflexivity.
  destruct (carry 24 _ _). discriminate.
Qed.

Lemma draw_enough_fuel level k :
  forall fuel l c drawn,
    (remaining tUpperBounds (labelDate l) < fuel)%nat ->
    draw fuel level l c k drawn <> Normal None.
Proof.
  induction fuel as [|fuel IH]; intros l c drawn Hf; [lia|].
  cbn [drawLoop].
  destruct (labelDate l) as [d|] eqn:El; cbn [num_ltb]; [|discriminate].
  destruct (Z.ltb_spec d tUpperBounds) as [Hlt|Hge]; [|discriminate].
  pose proof (increment_outcome loc level d 1 ltac:(lia)) as O.
  destruct (getLabelForIncrementedDateAtLevel loc level (Some d) 1)
    as [l'|]; cbn [bindC]; [|discriminate].
  apply IH. cbn [remaining] in Hf.
  destruct (labelDate l') as [d'|]; cbn [remaining]; lia.
Qed.

Lemma draw_fuel_mono level k :
  forall fuel fuel' l c drawn r,
    (fuel <= fuel')%nat ->
    draw fuel level l c k drawn = r -> r <> Normal None ->
    draw fuel' level l c k drawn = r.
Proof.
  induction fuel as [|fuel IH]; intros fuel' l c drawn r Hle Hr Hn.
  - cbn in Hr. congruence.
  - destruct fuel' as [|fuel']; [lia|]. cbn [drawLoop] in *.
    destruct (num_ltb (labelDate l) (Some tUpperBounds)); [|exact Hr].
    destruct (getLabelForIncrementedDateAtLevel loc level (labelDate l) 1)
      as [l'|]; cbn [bindC] in *; [|exact Hr].
    apply IH with (fuel' := fuel') in Hr; [exact Hr|lia|exact Hn].
Qed.

Lemma draw_throw level k :
  forall fuel l c drawn,
    draw fuel level l c k drawn = Throw -> level = eMonth.
Proof.
  induction fuel as [|fuel IH]; intros l c drawn Hr; [discriminate|].
  cbn [drawLoop] in Hr.
  destruct (num_ltb (labelDate l) (Some tUpperBounds)); [|discriminate].
  destruct (getLabelForIncrementedDateAtLevel loc level (labelDate l) 1)
    as [l'|] eqn:E; cbn [bindC] in Hr.
  - eapply IH, Hr.
  - eapply increment_throw, E.
Qed.

(** The drawing loop and the loop of the tick iterator walk in step. *)
Lemma draw_in_step level k :
  forall fuel l c drawn result visited,
    draw fuel level l c k drawn = Normal (Some result) ->
    instants drawn = map (fun v => Some (fst v)) visited ->
    exists visits,
      tickLoop loc dataToCoordinate fuel level tUpperBounds (labelDate l)
               visited = Normal (Some visits)
      /\ instants result = map (fun v => Some (fst v)) visits.
Proof.
  induction fuel as [|fuel IH]; intros l c drawn result visited Hr Hm;
    [discriminate|].
  cbn [drawLoop tickLoop] in *.
  destruct (labelDate l) as [d|] eqn:El; cbn [num_ltb] in *.
  - destruct (d <? tUpperBounds).
    + destruct (getLabelForIncrementedDateAtLevel loc level (Some d) 1)
        as [l'|]; cbn [bindC] in *; [|discriminate].
      eapply IH; [exact Hr|].
      rewrite !map_app, Hm. cbn [map drawnLabel fst]. rewrite El.
      reflexivity.
    + injection Hr as <-. exists visited. split; [reflexivity|exact Hm].
  - injection Hr as <-. exists visited. split; [reflexivity|exact Hm].
Qed.

(** The counter of the drawing loop: the tick drawn [i] ticks after the
    counter was [c] carries its text when [c + i] is a multiple of the
    stride. *)
Lemma draw_counter level k :
  forall fuel l c drawn result,
    0 <= c < k ->
    draw fuel level l c k drawn = Normal (Some result) ->
    exists added,
      result = drawn ++ added
      /\ forall i d, nth_error added i = Some d ->
                     drawnWithText d = ((c + Z.of_nat i) mod k =? 0).
Proof.
  induction fuel as [|fuel IH]; intros l c drawn result Hc Hr;
    [discriminate|].
  cbn [drawLoop] in Hr.
  destruct (num_ltb (labelDate l) (Some tUpperBounds)).
  - destruct (getLabelForIncrementedDateAtLevel loc level (labelDate l) 1)
      as [l'|]; cbn [bindC] in Hr; [|discriminate].
    rewrite Z.rem_mod_nonneg in Hr by lia.
    apply IH in Hr; [|apply Z.mod_pos_bound; lia].
    destruct Hr as (added & -> & Hn).
    exists (mkDrawn l (c =? 0) :: added).
    rewrite <- app_assoc. split; [reflexivity|].
    intros [|i] d Hd; cbn [nth_error] in Hd.
    + injection Hd as <-. cbn [drawnWithText].
      rewrite Z.add_0_r, Z.mod_small by lia. reflexivity.
    + rewrite (Hn i d Hd), Z.add_mod_idemp_l by lia.
      f_equal. f_equal. lia.
  - injection Hr as <-. exists []. rewrite app_nil_r.
    split; [reflexivity|]. intros [|i] d Hd; discriminate.
Qed.

(** The steps of [drawInnerLabels] that a completed run has taken. *)
Lemma inner_steps fuel level tLower drawn :
  inner fuel level tLower = Normal (Some drawn) ->
  exists first k l0,
    findFirstDateAboveOrAtLevel loc level (Some tLower) = Normal first
    /\ modulus fuel level first = Normal (Some k)
    /\ getLabelForIncrementedDateAtLevel loc level (labelDate first) 0
       = Normal l0
    /\ draw fuel level l0 0 k [] = Normal (Some drawn).
Proof.
  unfold drawInnerLabels. intros H.
  destruct (findFirstDateAboveOrAtLevel loc level (Some tLower)) as [first|];
    cbn [bindC] in H; [|discriminate].
  destruct (modulus fuel level first) as [[k|]|] eqn:Ek;
    cbn [bindC] in H; try discriminate.
  destruct (getLabelForIncrementedDateAtLevel loc level (labelDate first) 0)
    as [l0|] eqn:E0; cbn [bindC] in H; [|discriminate].
  exists first, k, l0. repeat split; assumption.
Qed.

Lemma modulus_positive fuel level first k :
  modulus fuel level first = Normal (Some k) -> 1 <= k.
Proof.
  unfold findDrawValueModulus. intros H.
  apply search_result in H. tauto.
Qed.

(** X11. The stride [findDrawValueModulus] returns is at least 1 and at most
    the number of whole seconds from the first tick to the upper bound plus
    2 (1 when the first tick has no valid instant or lies far beyond the
    bound): the search gives up widening once the second label would fall
    beyond the axis. *)
Theorem stride_is_bounded fuel level first k :
  findDrawValueModulus loc dataToCoordinate textExtentX tOrientation
                       tUpperBounds fuel level first = Normal (Some k) ->
  1 <= k <= widestStride tUpperBounds first.
Proof.
  unfold findDrawValueModulus. intros H.
  apply search_result in H. destruct H as (H1 & Hcol & _).
  split; [exact H1|].
  destruct (Z.le_gt_cases k (widestStride tUpperBounds first)) as [Hle|Hgt];
    [exact Hle|exfalso].
  assert (W : 1 <= widestStride tUpperBounds first).
  { unfold widestStride. destruct (labelDate first); lia. }
  destruct (Hcol (widestStride tUpperBounds first) ltac:(lia))
    as [placed Hp].
  unfold simulateStride in Hp.
  eapply simulate_fuel_mono
    with (fuel' := Nat.max fuel (passFuel tUpperBounds first)) in Hp;
    [|lia|discriminate].
  eapply widest_stride_accepted; [| |exact Hp]; [apply Z.le_refl|lia].
Qed.

(** X12. In a completed run of [drawInnerLabels] the tick drawn at position
    [i] (counted from 0) carries its label text exactly when [i] is a
    multiple of the stride [findDrawValueModulus] found for the first tick;
    every tick gets its tick mark. *)
Theorem labels_every_stride_ticks fuel level tLower drawn :
  drawInnerLabels loc dataToCoordinate textExtentX tOrientation tUpperBounds
                  fuel level tLower = Normal (Some drawn) ->
  exists first k,
    findFirstDateAboveOrAtLevel loc level (Some tLower) = Normal first
    /\ findDrawValueModulus loc dataToCoordinate textExtentX tOrientation
                            tUpperBounds fuel level first
       = Normal (Some k)
    /\ 1 <= k
    /\ forall i d, nth_error drawn i = Some d ->
                   drawnWithText d = (Z.of_nat i mod k =? 0).
Proof.
  intros H. apply inner_steps in H.
  destruct H as (first & k & l0 & Ef & Ek & _ & Hd).
  pose proof (modulus_positive _ _ _ _ Ek) as Hk.
  exists first, k. repeat split; try assumption.
  apply draw_counter in Hd; [|lia].
  destruct Hd as (added & -> & Hn). cbn [app]. exact Hn.
Qed.

(** The first tick of a level below the year level lies on the grid. *)
Lemma first_tick_on_grid level tLower :
  level <> eYear ->
  validTime tLower -> 100 <= YearFromTime tLower -> farFromEnd tLower ->
  exists k0 first,
    findFirstDateAboveOrAtLevel loc level (Some tLower) = Normal first
    /\ labelDate first = Some (gridPoint level k0)
    /\ validTime (gridPoint level k0)
    /\ 100 <= YearFromTime (gridPoint level k0).
Proof.
  intros Hl Hv Hy Hfar.
  pose proof (first_value loc level tLower Hv Hy) as F.
  destruct (grid_point_valid level tLower Hv Hy) as [Vg Yg].
  rewrite stepped_grid, Z.add_0_r in Vg, Yg.
  pose proof (grid_floor level tLower Hl) as [G1 G2].
  pose proof (gridPoint_step_small level (gridIndex level tLower) Hl) as St.
  assert (Key : forall k0,
             instantOf (findFirstDateAboveOrAtLevel loc level (Some tLower))
             = Normal (Some (gridPoint level k0)) ->
             validTime (gridPoint level k0) ->
             100 <= YearFromTime (gridPoint level k0) ->
             exists k0 first,
               findFirstDateAboveOrAtLevel loc level (Some tLower)
               = Normal first
               /\ labelDate first = Some (gridPoint level k0)
               /\ validTime (gridPoint level k0)
               /\ 100 <= YearFromTime (gridPoint level k0)).
  { intros k0 E V Y.
    destruct (findFirstDateAboveOrAtLevel loc level (Some tLower)) as [l|];
      cbn in E; [|discriminate].
    exists k0, l. split; [reflexivity|]. split; [congruence|].
    split; assumption. }
  destruct (gridPoint level (gridIndex level tLower) <? tLower).
  - assert (Vn : validTime (gridPoint level (gridIndex level tLower + 1))).
    { unfold validTime, farFromEnd in *. unfold msPerDay in *. lia. }
    assert (Yn : 100 <= YearFromTime
                          (gridPoint level (gridIndex level tLower + 1))).
    { apply Z.le_trans with (1 := Hy). apply YearFromTime_mono. lia. }
    destruct level; try congruence;
      [rewrite Z.add_0_r in F; unfold clipped in F;
       rewrite (TimeClip_valid _ Vg) in F; exact (Key _ F Vg Yg)
      |unfold clipped in F; rewrite (TimeClip_valid _ Vn) in F;
       exact (Key _ F Vn Yn)..].
  - exact (Key _ F Vg Yg).
Qed.

Lemma inner_level_below_year tLower tUpper :
  tUpper - tLower < 3 * kYear ->
  innerLevel (determineLevels tLower tUpper) <> eYear.
Proof.
  intros H. rewrite determineLevels_by_span. unfold levelsForSpan.
  unfold kYear, kDay, kHour, kMinute, kSecond in H.
  repeat match goal with
         | |- context [?a <? ?b] => destruct (Z.ltb_spec a b); try lia
         end; cbn; discriminate.
Qed.

(** X13. For a span of less than 3 years of 365 days, a lower bound from year
    100 on and away from the end of the range of dates, a completed run of
    [drawInnerLabels] at the inner level draws its ticks at exactly the
    instants [forEachTickDo] visits, in the same order: the grid lines and
    the tick marks of the axis agree. *)
Theorem drawn_ticks_are_iterator_ticks fuel tLower drawn :
  validTime tLower -> 100 <= YearFromTime tLower -> farFromEnd tLower ->
  tUpperBounds - tLower < 3 * kYear ->
  drawInnerLabels loc dataToCoordinate textExtentX tOrientation tUpperBounds
                  fuel (innerLevel (determineLevels tLower tUpperBounds))
                  tLower
  = Normal (Some drawn) ->
  exists visited,
    forEachTickDo loc dataToCoordinate fuel tLower tUpperBounds
    = Normal (Some visited)
    /\ instants drawn = map (fun v => Some (fst v)) visited.
Proof.
  intros Hv Hy Hfar Hspan H.
  pose proof (inner_level_below_year _ _ Hspan) as Hl.
  unfold forEachTickDo. cbv zeta.
  set (level := innerLevel (determineLevels tLower tUpperBounds)) in *.
  apply inner_steps in H.
  destruct H as (first & k & l0 & Ef & _ & E0 & Hd).
  destruct (first_tick_on_grid level tLower Hl Hv Hy Hfar)
    as (k0 & first' & Ef' & Ed & Vk & Yk).
  rewrite Ef in Ef'. injection Ef' as <-.
  rewrite Ef. cbn [bindC].
  pose proof (increment_on_grid loc level _ 0 Vk Yk ltac:(lia)) as I.
  rewrite gridIndex_gridPoint, Z.add_0_r in I. unfold clipped in I.
  rewrite (TimeClip_valid _ Vk) in I.
  rewrite <- Ed, E0 in I. cbn [instantOf bindC] in I. injection I as I.
  rewrite <- I.
  eapply draw_in_step; [exact Hd|reflexivity].
Qed.

Lemma inner_labels_stable level tLower :
  exists fuel0 r,
    (forall fuel, (fuel0 <= fuel)%nat -> inner fuel level tLower = r)
    /\ match r with
       | Normal (Some drawn) =>
           exists ts,
             instants drawn = map Some ts
             /\ StronglySorted Z.lt ts
             /\ Forall (fun t => t < tUpperBounds) ts
       | Normal None => False
       | Throw => level = eMonth
       end.
Proof.
  unfold drawInnerLabels.
  destruct (findFirstDateAboveOrAtLevel loc level (Some tLower))
    as [first|] eqn:Ef; cbn [bindC].
  2:{ exists 0%nat, Throw. split; [reflexivity|].
      eapply first_tick_throw, Ef. }
  set (f1 := Nat.max (passFuel tUpperBounds first)
                     (S (Z.to_nat (widestStride tUpperBounds first - 1)))).
  pose proof (search_terminates loc dataToCoordinate textExtentX tOrientation
                tUpperBounds level first f1 f1 1 ltac:(lia)
                ltac:(unfold f1; lia) ltac:(unfold f1; lia)) as T1.
  assert (Stable : forall fuel,
             (f1 <= fuel)%nat ->
             modulus fuel level first = modulus f1 level first).
  { intros fuel Hf. unfold findDrawValueModulus.
    eapply search_fuel_mono; [exact Hf|exact Hf|reflexivity|exact T1]. }
  fold (modulus f1 level first) in T1.
  destruct (modulus f1 level first) as [[k|]|] eqn:Ek; [|congruence|].
  2:{ exists f1, Throw. split.
      - intros fuel Hf. rewrite (Stable fuel Hf). reflexivity.
      - unfold findDrawValueModulus in Ek.
        eapply search_throw; [|exact Ek]. lia. }
  destruct (getLabelForIncrementedDateAtLevel loc level (labelDate first) 0)
    as [l0|] eqn:E0.
  2:{ exists f1, Throw. split; [|eapply increment_throw, E0].
      intros fuel Hf. rewrite (Stable fuel Hf). reflexivity. }
  set (f2 := S (remaining tUpperBounds (labelDate l0))).
  pose proof (draw_enough_fuel level k f2 l0 0 []
                ltac:(unfold f2; lia)) as T.
  exists (Nat.max f1 f2), (draw f2 level l0 0 k []). split.
  - intros fuel Hf. rewrite (Stable fuel ltac:(lia)). cbn [bindC].
    eapply draw_fuel_mono; [|reflexivity|exact T]. lia.
  - destruct (draw f2 level l0 0 k []) as [[drawn|]|] eqn:Er.
    + destruct (draw_in_step level k f2 l0 0 [] drawn [] Er eq_refl)
        as (visits & Ev & Hm).
      apply ticks_added in Ev.
      destruct Ev as (added & -> & Hs & Hg & _). cbn [app] in Hm.
      exists (map fst added). split; [|split].
      * rewrite Hm, map_map. reflexivity.
      * exact Hs.
      * apply Forall_map. apply Forall_impl with (2 := Hg).
        intros v [Hv _]. exact Hv.
    + congruence.
    + eapply draw_throw, Er.
Qed.

(** X14. [drawInnerLabels] ends for every level and every pair of bounds: from
    some amount of fuel on it gives one and the same outcome.  The outcome is
    a list of ticks with valid instants that increase strictly and lie below
    the upper bound; at the month level only, it can instead be the
    [TypeError] of a date out of range. *)
Theorem inner_labels_end level tLower :
  exists fuel0 r,
    (forall fuel, (fuel0 <= fuel)%nat ->
       drawInnerLabels loc dataToCoordinate textExtentX tOrientation
                       tUpperBounds fuel level tLower = r)
    /\ match r with
       | Normal (Some drawn) =>
           exists ts,
             instants drawn = map Some ts
             /\ StronglySorted Z.lt ts
             /\ Forall (fun t => t < tUpperBounds) ts
       | Normal None => False
       | Throw => level = eMonth
       end.
Proof. exact (inner_labels_stable level tLower). Qed.

End InnerLabels.
(** ** The text of an incremented label *)

Section IncrementText.

Import CalendarFacts LabelFacts.

Variable loc : string -> string.

Lemma append_assoc (u v w : string) :
  ((u ++ v) ++ w = u ++ v ++ w)%string.
Proof. induction u as [|c u IH]; cbn; [reflexivity|f_equal; exact IH]. Qed.

Lemma append_cancel (u x y : string) :
  (u ++ x = u ++ y)%string -> x = y.
Proof.
  induction u as [|c u IH]; cbn; intros H; [exact H|].
  injection H as H. exact (IH H).
Qed.

Lemma append_eq_prefix (u v x y : string) :
  (u ++ x = v ++ y)%string -> prefix u v = true \/ prefix v u = true.
Proof.
  revert v. induction u as [|c u IH]; intros v H.
  - left. destruct v; reflexivity.
  - destruct v as [|c' v]; [right; reflexivity|].
    cbn in H. injection H as -> H. cbn.
    destruct (ascii_dec c' c'); [|congruence]. exact (IH v H).
Qed.

Lemma in_range a n :
  0 <= a < Z.of_nat n -> In a (map Z.of_nat (seq 0 n)).
Proof.
  intros H. apply in_map_iff. exists (Z.to_nat a).
  split; [lia|]. apply in_seq. lia.
Qed.

(** Texts none of which is a prefix of another are told apart by what
    follows them. *)
Lemma prefix_free_inj (f : Z -> string) (n : nat) :
  forallb (fun a =>
             forallb (fun b => implb (prefix (f a) (f b)) (a =? b))
                     (map Z.of_nat (seq 0 n)))
          (map Z.of_nat (seq 0 n)) = true ->
  forall a b x y,
    0 <= a < Z.of_nat n -> 0 <= b < Z.of_nat n ->
    (f a ++ x = f b ++ y)%string -> a = b.
Proof.
  intros C a b x y Ha Hb H.
  rewrite forallb_forall in C.
  assert (P : forall a b,
             0 <= a < Z.of_nat n -> 0 <= b < Z.of_nat n ->
             prefix (f a) (f b) = true -> a = b).
  { intros a' b' Ha' Hb' Hp.
    specialize (C a' (in_range a' n Ha')). rewrite forallb_forall in C.
    specialize (C b' (in_range b' n Hb')). rewrite Hp in C.
    apply Z.eqb_eq. exact C. }
  destruct (append_eq_prefix _ _ _ _ H) as [Hp|Hp].
  - exact (P a b Ha Hb Hp).
  - symmetry. exact (P b a Hb Ha Hp).
Qed.

Lemma hour_text_inj a b x y :
  0 <= a < 24 -> 0 <= b < 24 ->
  (StringOfZ a ++ ":" ++ x = StringOfZ b ++ ":" ++ y)%string -> a = b.
Proof.
  intros Ha Hb H.
  apply (prefix_free_inj (fun h => (StringOfZ h ++ ":")%string) 24)
    with (x := x) (y := y); [vm_compute; reflexivity|lia|lia|].
  rewrite !append_assoc. exact H.
Qed.

Lemma two_digits_inj a b x y :
  0 <= a < 60 -> 0 <= b < 60 ->
  (twoDigits (Some a) ++ ":" ++ x = twoDigits (Some b) ++ ":" ++ y)%string ->
  a = b.
Proof.
  intros Ha Hb H.
  apply (prefix_free_inj (fun m => (twoDigits (Some m) ++ ":")%string) 60)
    with (x := x) (y := y); [vm_compute; reflexivity|lia|lia|].
  rewrite !append_assoc. exact H.
Qed.


Lemma hour_bounds t : 0 <= HourFromTime t < 24.
Proof. unfold HourFromTime. apply Z.mod_pos_bound. lia. Qed.

Lemma minute_bounds t : 0 <= MinFromTime t < 60.
Proof. unfold MinFromTime. apply Z.mod_pos_bound. lia. Qed.


(** X16. At the minute level the text of [getLabelForIncrementedDateAtLevel]
    joins the hour of the instant passed in with the minute of the instant
    returned: it is the text [H:MM] of the returned instant exactly when the
    increment has stayed within the hour of the day it started from. *)
Theorem minute_text_keeps_hour iDate t n l r :
  asDate iDate = Some t ->
  getLabelForIncrementedDateAtLevel loc eMinute iDate n = Normal l ->
  labelDate l = Some r ->
  labelString l
  = (StringOfZ (getHours t) ++ ":" ++ twoDigits (Some (getMinutes r)))%string
  /\ (labelString l = innerTickText loc eMinute r
      <-> getHours r = getHours t).
Proof.
  unfold getLabelForIncrementedDateAtLevel. intros ->. cbv zeta.
  intros [= <-]. cbn [labelDate labelString]. intros ->.
  cbn [option_map innerTickText]. split; [reflexivity|]. split.
  - intros H. symmetry. eapply hour_text_inj; [| |exact H];
      apply hour_bounds.
  - intros ->. reflexivity.
Qed.

(** X17. At the second level the text of [getLabelForIncrementedDateAtLevel]
    joins the hour and the minute of the instant passed in with the second
    of the instant returned: it is the text [H:MM:SS] of the returned instant
    exactly when the increment has stayed within the minute it started
    from. *)
Theorem second_text_keeps_hour_and_minute iDate t n l r :
  asDate iDate = Some t ->
  getLabelForIncrementedDateAtLevel loc eSecond iDate n = Normal l ->
  labelDate l = Some r ->
  labelString l
  = (StringOfZ (getHours t) ++ ":" ++ twoDigits (Some (getMinutes t)) ++ ":"
     ++ twoDigits (Some (getSeconds r)))%string
  /\ (labelString l = innerTickText loc eSecond r
      <-> getHours r = getHours t /\ getMinutes r = getMinutes t).
Proof.
  unfold getLabelForIncrementedDateAtLevel. intros ->. cbv zeta.
  intros [= <-]. cbn [labelDate labelString]. intros ->.
  cbn [option_map innerTickText]. split; [reflexivity|]. split.
  - intros H.
    assert (Hh : getHours r = getHours t).
    { symmetry. eapply hour_text_inj; [| |exact H]; apply hour_bounds. }
    split; [exact Hh|]. rewrite Hh in H. apply append_cancel in H.
    injection H as H. symmetry.
    eapply two_digits_inj; [| |exact H]; apply minute_bounds.
  - intros [-> ->]. reflexivity.
Qed.

End IncrementText.
(** ** The outer labels *)

Section OuterLabelFacts.

Import CalendarFacts LabelFacts StepFacts SteppedFacts GridFacts.

Variable loc : string -> string.
Variable toLocaleDateString : Z -> string.
Variable dataToCoordinate : Q -> Q.
Variable textExtentX : string -> Q.
Variable tOrientation : Orientation.
Variables tLowerBoundsMS tUpperBoundsMS : Z.
Variables tPixelMin tPixelMax : Q.
Variables kDefaultFontHeight kTickLength kAxisGap layoutWidth : Q.

Abbreviation label := (getLevelLabelForValue loc toLocaleDateString).
Abbreviation next := (getNextLevelLabelForValue loc toLocaleDateString).
Abbreviation one :=
  (drawOneOuterLabel tOrientation tPixelMin tPixelMax kDefaultFontHeight
                     kTickLength kAxisGap layoutWidth).
Abbreviation middle :=
  (middleCoord dataToCoordinate tLowerBoundsMS tUpperBoundsMS).
Abbreviation outer :=
  (outerLoop loc toLocaleDateString dataToCoordinate textExtentX
             tOrientation tLowerBoundsMS tUpperBoundsMS tPixelMin tPixelMax
             kDefaultFontHeight kTickLength kAxisGap layoutWidth).
Abbreviation outerLabels :=
  (drawOuterLabels loc toLocaleDateString dataToCoordinate textExtentX
                   tOrientation tLowerBoundsMS tUpperBoundsMS tPixelMin
                   tPixelMax kDefaultFontHeight kTickLength kAxisGap
                   layoutWidth).

(** The label drawn for the instant [fst p] with the text [snd p], clamped
    to the lower bound. *)
Abbreviation clamped :=
  (fun p : Z * string =>
     one (dataToCoordinate (mathMax (toSeconds (fst p))
                                    (toSeconds tLowerBoundsMS)))
         (snd p) anchorStart).

Lemma label_never_throws level d : exists l, label level d = Normal l.
Proof.
  unfold getLevelLabelForValue.
  destruct (asDate d) as [t|]; [|eexists; reflexivity].
  cbv zeta. destruct level; try (eexists; reflexivity).
  unfold getMonth. rewrite (monthName_of_month loc t).
  eexists; reflexivity.
Qed.

Lemma next_never_throws level d : exists l, next level d = Normal l.
Proof. unfold getNextLevelLabelForValue. apply label_never_throws. Qed.

Lemma next_of_invalid_date level l :
  next level None = Normal l -> labelDate l = None.
Proof. cbn. intros [= <-]. reflexivity. Qed.

Lemma next_later level t l r :
  next level (Some t) = Normal l -> labelDate l = Some r -> t < r.
Proof.
  intros E Hr.
  destruct (next_label_later loc toLocaleDateString level (Some t))
    as (d & Hd & Hlt).
  rewrite E in Hd. cbn in Hd. injection Hd as <-.
  exact (Hlt t r eq_refl Hr).
Qed.

Lemma outer_enough_fuel level s0 :
  forall fuel this sd drawn,
    (remaining (tUpperBoundsMS + 1) (labelDate this) < fuel)%nat ->
    outer fuel level s0 this sd drawn <> Normal None.
Proof.
  induction fuel as [|fuel IH]; intros this sd drawn Hf; [lia|].
  cbn [outerLoop].
  destruct (next level (labelDate this)) as [nx|] eqn:En;
    cbn [bindC]; [|discriminate].
  destruct (labelDate nx) as [dn|] eqn:Edn; [|discriminate].
  destruct (labelDate this) as [dt|] eqn:Edt; [|discriminate].
  pose proof (next_later level dt nx dn En Edn) as Lt.
  cbn [remaining] in Hf.
  destruct (Z.ltb_spec tUpperBoundsMS dt) as [Hup|Hup].
  - destruct sd; discriminate.
  - destruct (sd || (dn <? tUpperBoundsMS)); cbv zeta;
      apply IH; rewrite Edn; cbn [remaining]; lia.
Qed.

Lemma outer_fuel_mono level s0 :
  forall fuel fuel' this sd drawn r,
    (fuel <= fuel')%nat ->
    outer fuel level s0 this sd drawn = r -> r <> Normal None ->
    outer fuel' level s0 this sd drawn = r.
Proof.
  induction fuel as [|fuel IH]; intros fuel' this sd drawn r Hle Hr Hn.
  - cbn in Hr. congruence.
  - destruct fuel' as [|fuel']; [lia|]. cbn [outerLoop] in *.
    destruct (next level (labelDate this)) as [nx|];
      cbn [bindC] in *; [|exact Hr].
    destruct (labelDate nx) as [dn|]; [|exact Hr].
    destruct (labelDate this) as [dt|]; [|exact Hr].
    destruct (tUpperBoundsMS <? dt); [exact Hr|].
    destruct (sd || (dn <? tUpperBoundsMS)); cbv zeta in *;
      (apply IH with (fuel' := fuel') in Hr; [exact Hr|lia|exact Hn]).
Qed.

Lemma outer_no_throw level s0 :
  forall fuel this sd drawn, outer fuel level s0 this sd drawn <> Throw.
Proof.
  induction fuel as [|fuel IH]; intros this sd drawn; [discriminate|].
  cbn [outerLoop].
  destruct (next_never_throws level (labelDate this)) as [nx ->].
  cbn [bindC].
  destruct (labelDate nx) as [dn|]; [|discriminate].
  destruct (labelDate this) as [dt|]; [|discriminate].
  destruct (tUpperBoundsMS <? dt); [destruct sd; discriminate|].
  destruct (sd || (dn <? tUpperBoundsMS)); cbv zeta; apply IH.
Qed.

(** What a run of the loop adds: the one middle label, when nothing had
    been drawn, or labels anchored at their start, for increasing instants
    from the current one on, none beyond the upper bound. *)
Lemma outer_added level s0 :
  forall fuel this sd drawn result,
    outer fuel level s0 this sd drawn = Normal (Some result) ->
    exists added,
      result = drawn ++ added
      /\ ((sd = false /\ added = [one middle s0 anchorMiddle])
          \/ exists labels,
              added = map clamped labels
              /\ StronglySorted Z.lt (map fst labels)
              /\ Forall (fun p => fst p <= tUpperBoundsMS) labels
              /\ forall d, labelDate this = Some d ->
                           Forall (fun p => d <= fst p) labels).
Proof.
  induction fuel as [|fuel IH]; intros this sd drawn result Hr;
    [discriminate|].
  assert (Stop : result = drawn ->
                 exists added,
                   result = drawn ++ added
                   /\ ((sd = false /\ added = [one middle s0 anchorMiddle])
                       \/ exists labels,
                           added = map clamped labels
                           /\ StronglySorted Z.lt (map fst labels)
                           /\ Forall (fun p => fst p <= tUpperBoundsMS)
                                     labels
                           /\ forall d, labelDate this = Some d ->
                                        Forall (fun p => d <= fst p) labels)).
  { intros ->. exists []. rewrite app_nil_r. split; [reflexivity|].
    right. exists []. repeat split; constructor. }
  cbn [outerLoop] in Hr.
  destruct (next level (labelDate this)) as [nx|] eqn:En;
    cbn [bindC] in Hr; [|discriminate].
  destruct (labelDate nx) as [dn|] eqn:Edn;
    [|injection Hr as <-; apply Stop; reflexivity].
  destruct (labelDate this) as [dt|] eqn:Edt;
    [|injection Hr as <-; apply Stop; reflexivity].
  pose proof (next_later level dt nx dn En Edn) as Lt.
  destruct (Z.ltb_spec tUpperBoundsMS dt) as [Hup|Hup].
  - destruct sd; injection Hr as <-; [apply Stop; reflexivity|].
    eexists. split; [reflexivity|]. left. split; reflexivity.
  - destruct (sd || (dn <? tUpperBoundsMS)) eqn:Eb; cbv zeta in Hr.
    + match type of Hr with
      | context [if ?b then drawn ++ _ else drawn] => destruct b
      end;
        apply IH in Hr;
        destruct Hr as (added & -> & [[F _]|(labels & -> & Hs & Hu & Hd)]);
        try discriminate; specialize (Hd dn Edn).
      * exists (clamped (dt, labelString this) :: map clamped labels).
        split; [symmetry; apply (app_assoc drawn [_] _)|]. right.
        exists ((dt, labelString this) :: labels).
        split; [reflexivity|]. split; [|split].
        -- cbn [map fst]. constructor; [exact Hs|].
           apply Forall_map. apply Forall_impl with (2 := Hd).
           intros p Hp. lia.
        -- constructor; [exact Hup|exact Hu].
        -- intros d [= <-]. constructor; [cbn; lia|].
           apply Forall_impl with (2 := Hd). intros p Hp. lia.
      * exists (map clamped labels). split; [reflexivity|]. right.
        exists labels. split; [reflexivity|]. split; [exact Hs|].
        split; [exact Hu|]. intros d [= <-].
        apply Forall_impl with (2 := Hd). intros p Hp. lia.
    + apply IH in Hr. destruct Hr as (added & -> & Hl).
      exists added. split; [reflexivity|].
      destruct Hl as [[-> ->]|(labels & -> & Hs & Hu & Hd)].
      * left. split; reflexivity.
      * right. exists labels. split; [reflexivity|]. split; [exact Hs|].
        split; [exact Hu|]. intros d [= <-]. specialize (Hd dn Edn).
        apply Forall_impl with (2 := Hd). intros p Hp. lia.
Qed.

(** *** The labels of the day, month and year levels on the grid *)

Lemma next_raw_of_day d :
  100 <= YearFromTime (msPerDay * d) ->
  nextRaw eDay (msPerDay * d) = msPerDay * (d + 1).
Proof.
  intros Hy. unfold nextRaw, getFullYear, getMonth, getDate. cbv zeta.
  rewrite MakeFullYear_id by exact Hy.
  rewrite (MakeDay_date _ _ _ 1), MakeDay_fields, Day_of_days.
  unfold MakeDate. lia.
Qed.

Lemma next_raw_of_month k :
  100 <= YearFromTime (msPerDay * MakeDay 0 k 1) ->
  nextRaw eMonth (msPerDay * MakeDay 0 k 1)
  = msPerDay * MakeDay 0 (k + 1) 1.
Proof.
  intros Hy. unfold nextRaw, getFullYear, getMonth, getDate. cbv zeta.
  destruct (fields_of_month_start k) as (Fy & Fm & _).
  cbv zeta in Fy, Fm. rewrite Fy in Hy.
  rewrite Fy, Fm, month_start_date.
  rewrite MakeFullYear_id by exact Hy.
  rewrite MakeDay_months.
  replace (12 * (k / 12) + (k mod 12 + 1)) with (k + 1)
    by (pose proof (Z.div_mod k 12 ltac:(lia)); lia).
  unfold MakeDate. lia.
Qed.

Lemma next_raw_of_year y :
  100 <= y ->
  nextRaw eYear (msPerDay * MakeDay y 1 1) = msPerDay * MakeDay (y + 1) 1 1.
Proof.
  intros Hy. unfold nextRaw, getFullYear, getMonth, getDate. cbv zeta.
  destruct (february_first_fields y) as (Fy & Fm & Fd & _).
  cbv zeta in Fy, Fm, Fd. rewrite Fy, Fm, Fd.
  rewrite MakeFullYear_id by lia. unfold MakeDate. lia.
Qed.

Lemma next_raw_on_grid level k :
  level = eDay \/ level = eMonth \/ level = eYear ->
  100 <= YearFromTime (gridPoint level k) ->
  nextRaw level (gridPoint level k) = gridPoint level (k + 1).
Proof.
  intros [->|[->| ->]] Hy.
  - exact (next_raw_of_day k Hy).
  - exact (next_raw_of_month k Hy).
  - apply next_raw_of_year.
    rewrite <- (year_of_feb_first k). exact Hy.
Qed.

Lemma next_on_grid level k :
  level = eDay \/ level = eMonth \/ level = eYear ->
  validTime (gridPoint level k) ->
  100 <= YearFromTime (gridPoint level k) ->
  next level (Some (gridPoint level k))
  = label level (TimeClip (gridPoint level (k + 1))).
Proof.
  intros Hl Hv Hy. rewrite next_as_label by exact Hv.
  rewrite next_raw_on_grid by assumption. reflexivity.
Qed.

Lemma label_on_grid level k this :
  validTime (gridPoint level k) ->
  100 <= YearFromTime (gridPoint level k) ->
  label level (Some (gridPoint level k)) = Normal this ->
  labelDate this = Some (gridPoint level k).
Proof.
  intros Hv Hy E.
  pose proof (label_instant loc toLocaleDateString level _ Hv Hy) as I.
  rewrite stepped_grid, gridIndex_gridPoint, Z.add_0_r, E in I.
  cbn in I. congruence.
Qed.

Lemma seconds_le a b :
  Qle_bool (toSeconds a) (toSeconds b) = true -> a <= b.
Proof.
  unfold toSeconds, Qle_bool, Qdiv, Qmult, Qinv, inject_Z. cbn.
  intros H. apply Z.leb_le in H. lia.
Qed.

Lemma max_of_later a b :
  b <= a -> mathMax (toSeconds a) (toSeconds b) = toSeconds a.
Proof.
  intros H. unfold mathMax.
  destruct (Qle_bool (toSeconds a) (toSeconds b)) eqn:E; [|reflexivity].
  apply seconds_le in E. replace b with a by lia. reflexivity.
Qed.

Abbreviation starts :=
  (startLabels dataToCoordinate tOrientation tPixelMin tPixelMax
               kDefaultFontHeight kTickLength kAxisGap layoutWidth).

Lemma grid_point_near level t :
  gridPoint level (gridIndex level t) <= t + 31 * msPerDay.
Proof.
  destruct (EDateTimeLevel_eq_dec level eYear) as [->|Hl].
  - cbn [gridPoint gridIndex]. rewrite MakeDay_feb_first.
    pose proof (DayWithinYear_bounds t) as B. unfold DayWithinYear in B.
    assert (msPerDay * Day t <= t).
    { unfold Day, msPerDay. Z.div_mod_to_equations. lia. }
    unfold msPerDay in *. lia.
  - pose proof (grid_floor level t Hl). unfold msPerDay. lia.
Qed.

(** The label of the lower bound lies on the grid. *)
Lemma first_label_on_grid level first :
  validTime tLowerBoundsMS -> 100 <= YearFromTime tLowerBoundsMS ->
  label level (Some tLowerBoundsMS) = Normal first ->
  labelDate first
  = Some (gridPoint level (gridIndex level tLowerBoundsMS))
  /\ validTime (gridPoint level (gridIndex level tLowerBoundsMS))
  /\ 100 <= YearFromTime
              (gridPoint level (gridIndex level tLowerBoundsMS)).
Proof.
  intros Hv Hy Ef.
  pose proof (label_instant loc toLocaleDateString level _ Hv Hy) as I.
  destruct (grid_point_valid level _ Hv Hy) as [Vg Yg].
  rewrite stepped_grid, Z.add_0_r in I, Vg, Yg.
  rewrite Ef in I. cbn in I.
  split; [congruence|]. split; assumption.
Qed.

Section Boundaries.

Variable level : EDateTimeLevel.
Hypothesis outer_level : level = eDay \/ level = eMonth \/ level = eYear.

(** Once something has been drawn, a label is drawn at every grid point up
    to the upper bound. *)
Lemma outer_run s0 :
  tUpperBoundsMS + 366 * msPerDay <= maxTime ->
  forall fuel k this drawn,
    tLowerBoundsMS <= gridPoint level k ->
    validTime (gridPoint level k) ->
    100 <= YearFromTime (gridPoint level k) ->
    label level (Some (gridPoint level k)) = Normal this ->
    (Z.to_nat (tUpperBoundsMS + 1 - gridPoint level k) < fuel)%nat ->
    exists rest,
      outer fuel level s0 this true drawn
      = Normal (Some (drawn ++ starts rest))
      /\ StronglySorted Z.lt (map fst rest)
      /\ (forall a, In a (map fst rest)
                    <-> exists j, k <= j /\ a = gridPoint level j
                                  /\ a <= tUpperBoundsMS)
      /\ Forall (fun p => textOf (label level (Some (fst p)))
                          = Normal (snd p)) rest.
Proof.
  intros Hfar.
  induction fuel as [|fuel IH]; intros k this drawn Hlo Hv Hy El Hf; [lia|].
  pose proof (label_on_grid level k this Hv Hy El) as Ed.
  pose proof (gridPoint_step level k) as [St1 St2].
  assert (Stop : tUpperBoundsMS < gridPoint level k ->
                 exists rest,
                   Normal (Some drawn)
                   = Normal (Some (drawn ++ starts rest))
                   /\ StronglySorted Z.lt (map fst rest)
                   /\ (forall a, In a (map fst rest)
                                 <-> exists j, k <= j
                                               /\ a = gridPoint level j
                                               /\ a <= tUpperBoundsMS)
                   /\ Forall (fun p => textOf (label level (Some (fst p)))
                                       = Normal (snd p)) rest).
  { intros Hup. exists []. cbn [startLabels map]. rewrite app_nil_r.
    split; [reflexivity|]. split; [constructor|]. split; [|constructor].
    intros a. split; [intros []|]. intros (j & Hj & -> & Ha).
    pose proof (gridPoint_le level k j Hj). lia. }
  cbn [outerLoop]. rewrite Ed.
  rewrite next_on_grid by assumption.
  destruct (Z.ltb_spec tUpperBoundsMS (gridPoint level k)) as [Hup|Hup].
  - destruct (label_never_throws level
                (TimeClip (gridPoint level (k + 1)))) as [nx ->].
    cbn [bindC]. destruct (labelDate nx); [|apply Stop; exact Hup].
    cbn [andb]. apply Stop. exact Hup.
  - assert (Vn : validTime (gridPoint level (k + 1))).
    { unfold validTime in *. unfold msPerDay in *. lia. }
    assert (Yn : 100 <= YearFromTime (gridPoint level (k + 1))).
    { apply Z.le_trans with (1 := Hy). apply YearFromTime_mono. lia. }
    rewrite (TimeClip_valid _ Vn).
    destruct (label_never_throws level (Some (gridPoint level (k + 1))))
      as [nx En].
    rewrite En. cbn [bindC].
    rewrite (label_on_grid level (k + 1) nx Vn Yn En).
    cbn [orb]. cbv zeta.
    destruct (Z.ltb_spec (gridPoint level k) tLowerBoundsMS) as [Hb|_];
      [lia|].
    rewrite max_of_later by exact Hlo.
    destruct (IH (k + 1) nx
                (drawn
                 ++ [one (dataToCoordinate (toSeconds (gridPoint level k)))
                         (labelString this) anchorStart])
                ltac:(lia) Vn Yn En ltac:(lia))
      as (rest & Er & Hs & Hin & Ht).
    exists ((gridPoint level k, labelString this) :: rest).
    split; [|split; [|split]].
    + rewrite Er, <- app_assoc. reflexivity.
    + cbn [map fst]. constructor; [exact Hs|].
      apply Forall_forall. intros a Ha. apply Hin in Ha.
      destruct Ha as (j & Hj & -> & _). apply gridPoint_lt. lia.
    + intros a. cbn [map fst In]. rewrite Hin. split.
      * intros [<-|(j & Hj & Ha & Hu)].
        -- exists k. repeat split; [lia|exact Hup].
        -- exists j. repeat split; [lia|exact Ha|exact Hu].
      * intros (j & Hj & Ha & Hu).
        destruct (Z.eq_dec j k) as [->|Hne]; [left; symmetry; exact Ha|].
        right. exists j. repeat split; [lia|exact Ha|exact Hu].
    + constructor; [|exact Ht]. cbn [fst snd]. rewrite El. reflexivity.
Qed.

(** While nothing has been drawn and the next grid point is not before the
    upper bound, nothing is drawn until a grid point lies beyond the bound:
    then the middle label is. *)
Lemma outer_skip s0 :
  tUpperBoundsMS + 732 * msPerDay <= maxTime ->
  forall fuel k this,
    validTime (gridPoint level k) ->
    100 <= YearFromTime (gridPoint level k) ->
    gridPoint level k <= tUpperBoundsMS + 366 * msPerDay ->
    tUpperBoundsMS <= gridPoint level (k + 1) ->
    labelDate this = Some (gridPoint level k) ->
    (Z.to_nat (tUpperBoundsMS + 1 - gridPoint level k) < fuel)%nat ->
    outer fuel level s0 this false []
    = Normal (Some [one middle s0 anchorMiddle]).
Proof.
  intros Hfar.
  induction fuel as [|fuel IH]; intros k this Hv Hy Hk Hn Ed Hf; [lia|].
  pose proof (gridPoint_step level k) as [St1 St2].
  pose proof (gridPoint_step level (k + 1)) as [St3 _].
  assert (Vn : validTime (gridPoint level (k + 1))).
  { unfold validTime in *. unfold msPerDay in *. lia. }
  assert (Yn : 100 <= YearFromTime (gridPoint level (k + 1))).
  { apply Z.le_trans with (1 := Hy). apply YearFromTime_mono. lia. }
  cbn [outerLoop]. rewrite Ed.
  rewrite next_on_grid by assumption.
  rewrite (TimeClip_valid _ Vn).
  destruct (label_never_throws level (Some (gridPoint level (k + 1))))
    as [nx En].
  rewrite En. cbn [bindC].
  rewrite (label_on_grid level (k + 1) nx Vn Yn En).
  destruct (Z.ltb_spec tUpperBoundsMS (gridPoint level k)) as [Hup|Hup];
    [reflexivity|].
  destruct (Z.ltb_spec (gridPoint level (k + 1)) tUpperBoundsMS) as [Hb|_];
    [lia|].
  cbn [orb].
  apply (IH (k + 1) nx Vn Yn);
    [lia|lia|exact (label_on_grid level (k + 1) nx Vn Yn En)|lia].
Qed.

End Boundaries.

(** X18. At the day, month and year levels, for bounds from year 100 on and
    away from the end of the range of dates: when the grid point after the
    lower bound is not before the upper bound (the axis lies within one day,
    month or year of the grid), [drawOuterLabels] draws exactly one label,
    the label of the lower bound, anchored in the middle at the pixel of the
    middle of the axis. *)
Theorem one_outer_label_in_the_middle level :
  level = eDay \/ level = eMonth \/ level = eYear ->
  validTime tLowerBoundsMS -> 100 <= YearFromTime tLowerBoundsMS ->
  tLowerBoundsMS <= tUpperBoundsMS ->
  tUpperBoundsMS + 732 * msPerDay <= maxTime ->
  tUpperBoundsMS
  <= gridPoint level (gridIndex level tLowerBoundsMS + 1) ->
  exists fuel0 first,
    getLevelLabelForValue loc toLocaleDateString level (Some tLowerBoundsMS)
    = Normal first
    /\ forall fuel, (fuel0 <= fuel)%nat ->
         drawOuterLabels loc toLocaleDateString dataToCoordinate textExtentX
           tOrientation tLowerBoundsMS tUpperBoundsMS tPixelMin tPixelMax
           kDefaultFontHeight kTickLength kAxisGap layoutWidth fuel level
         = Normal
             (Some [drawOneOuterLabel tOrientation tPixelMin tPixelMax
                      kDefaultFontHeight kTickLength kAxisGap layoutWidth
                      (middleCoord dataToCoordinate tLowerBoundsMS
                                   tUpperBoundsMS)
                      (labelString first) anchorMiddle]).
Proof.
  intros Hl Hv Hy Hle Hfar Hn.
  destruct (label_never_throws level (Some tLowerBoundsMS)) as [first Ef].
  destruct (first_label_on_grid level first Hv Hy Ef) as (Ed & Vg & Yg).
  pose proof (grid_point_near level tLowerBoundsMS) as Near.
  set (k0 := gridIndex level tLowerBoundsMS) in *.
  exists (S (Z.to_nat (tUpperBoundsMS + 1 - gridPoint level k0))), first.
  split; [exact Ef|]. intros fuel Hf.
  unfold drawOuterLabels. rewrite Ef. cbn [bindC].
  apply (outer_skip level Hl (labelString first) Hfar fuel k0 first);
    try assumption; unfold msPerDay in *; lia.
Qed.

(** X19. At the day, month and year levels, for bounds from year 100 on and
    away from the end of the range of dates: when the grid point after the
    lower bound is before the upper bound, [drawOuterLabels] draws, anchored
    at their start, first the label of the lower bound at the pixel of its
    instant or of the lower bound, whichever is greater (left out only when
    its instant is before the lower bound and the text of the next label is
    wider than 7/8 of the distance to the next label), and then one label
    at every later grid point up to and including the upper bound, in
    increasing order, each at the pixel of its instant and with the text of
    [getLevelLabelForValue] at that instant.  At the year level the grid
    point of a year is the first day of month 1. *)
Theorem outer_labels_at_grid_points level :
  level = eDay \/ level = eMonth \/ level = eYear ->
  validTime tLowerBoundsMS -> 100 <= YearFromTime tLowerBoundsMS ->
  tUpperBoundsMS + 366 * msPerDay <= maxTime ->
  gridPoint level (gridIndex level tLowerBoundsMS + 1) < tUpperBoundsMS ->
  let k0 := gridIndex level tLowerBoundsMS in
  let tCoord :=
    dataToCoordinate (mathMax (toSeconds (gridPoint level k0))
                              (toSeconds tLowerBoundsMS)) in
  exists fuel0 first second rest,
    getLevelLabelForValue loc toLocaleDateString level (Some tLowerBoundsMS)
    = Normal first
    /\ getLevelLabelForValue loc toLocaleDateString level
         (Some (gridPoint level (k0 + 1)))
       = Normal second
    /\ (forall fuel, (fuel0 <= fuel)%nat ->
          drawOuterLabels loc toLocaleDateString dataToCoordinate textExtentX
            tOrientation tLowerBoundsMS tUpperBoundsMS tPixelMin tPixelMax
            kDefaultFontHeight kTickLength kAxisGap layoutWidth fuel level
          = Normal
              (Some
                 ((if (if gridPoint level k0 <? tLowerBoundsMS then
                         negb (Qltb
                                 (7 * Qabs
                                        (dataToCoordinate
                                           (toSeconds
                                              (gridPoint level (k0 + 1)))
                                         - tCoord) / 8)%Q
                                 (textExtentX (labelString second)))
                       else true)
                   then [drawOneOuterLabel tOrientation tPixelMin tPixelMax
                           kDefaultFontHeight kTickLength kAxisGap
                           layoutWidth tCoord (labelString first)
                           anchorStart]
                   else [])
                  ++ startLabels dataToCoordinate tOrientation tPixelMin
                       tPixelMax kDefaultFontHeight kTickLength kAxisGap
                       layoutWidth rest)))
    /\ StronglySorted Z.lt (map fst rest)
    /\ (forall a, In a (map fst rest)
                  <-> exists j, k0 < j /\ a = gridPoint level j
                                /\ a <= tUpperBoundsMS)
    /\ Forall (fun p => textOf (getLevelLabelForValue loc toLocaleDateString
                                  level (Some (fst p)))
                        = Normal (snd p)) rest.
Proof.
  intros Hl Hv Hy Hfar Hn k0 tCoord.
  destruct (label_never_throws level (Some tLowerBoundsMS)) as [first Ef].
  destruct (first_label_on_grid level first Hv Hy Ef) as (Ed & Vg & Yg).
  fold k0 in Ed, Vg, Yg, Hn.
  pose proof (gridPoint_step level k0) as [St1 St2].
  pose proof (before_next_grid_point level tLowerBoundsMS) as Lo.
  fold k0 in Lo.
  assert (Vn : validTime (gridPoint level (k0 + 1))).
  { unfold validTime in *. unfold msPerDay in *. lia. }
  assert (Yn : 100 <= YearFromTime (gridPoint level (k0 + 1))).
  { apply Z.le_trans with (1 := Yg). apply YearFromTime_mono. lia. }
  destruct (label_never_throws level (Some (gridPoint level (k0 + 1))))
    as [second En].
  pose proof (label_on_grid level (k0 + 1) second Vn Yn En) as Edn.
  set (fuel1 := S (Z.to_nat (tUpperBoundsMS + 1
                             - gridPoint level (k0 + 1)))).
  set (head := if (if gridPoint level k0 <? tLowerBoundsMS then
                     negb (Qltb
                             (7 * Qabs
                                    (dataToCoordinate
                                       (toSeconds (gridPoint level (k0 + 1)))
                                     - tCoord) / 8)%Q
                             (textExtentX (labelString second)))
                   else true)
               then [one tCoord (labelString first) anchorStart]
               else []).
  destruct (outer_run level Hl (labelString first) Hfar fuel1 (k0 + 1)
              second head ltac:(lia) Vn Yn En ltac:(unfold fuel1; lia))
    as (rest & Er & Hs & Hin & Ht).
  exists (S fuel1), first, second, rest.
  split; [exact Ef|]. split; [exact En|]. split; [|split; [|split]].
  - intros fuel Hf. unfold drawOuterLabels. rewrite Ef. cbn [bindC].
    destruct fuel as [|fuel]; [lia|].
    cbn [outerLoop]. rewrite Ed.
    rewrite next_on_grid by assumption.
    rewrite (TimeClip_valid _ Vn), En. cbn [bindC]. rewrite Edn.
    destruct (Z.ltb_spec tUpperBoundsMS (gridPoint level k0)) as [Hup|_];
      [lia|].
    destruct (Z.ltb_spec (gridPoint level (k0 + 1)) tUpperBoundsMS)
      as [_|Hb]; [|lia].
    cbn [orb]. cbv zeta. fold tCoord.
    eapply outer_fuel_mono with (fuel := fuel1); [lia| |discriminate].
    unfold head in Er |- *.
    destruct (if gridPoint level k0 <? tLowerBoundsMS then _ else true);
      exact Er.
  - exact Hs.
  - intros a. rewrite Hin. split; intros (j & Hj & Ha & Hu); exists j;
      (split; [lia|split; assumption]).
  - exact Ht.
Qed.

Lemma outer_labels_stable level :
  exists fuel0 first drawn,
    label level (Some tLowerBoundsMS) = Normal first
    /\ (forall fuel, (fuel0 <= fuel)%nat ->
                     outerLabels fuel level = Normal (Some drawn))
    /\ (drawn = [one middle (labelString first) anchorMiddle]
        \/ exists labels,
            drawn = map clamped labels
            /\ StronglySorted Z.lt (map fst labels)
            /\ Forall (fun p => fst p <= tUpperBoundsMS) labels).
Proof.
  unfold drawOuterLabels.
  destruct (label_never_throws level (Some tLowerBoundsMS)) as [first Ef].
  rewrite Ef. cbn [bindC].
  set (fuel0 := S (remaining (tUpperBoundsMS + 1) (labelDate first))).
  pose proof (outer_enough_fuel level (labelString first) fuel0 first false
                [] ltac:(unfold fuel0; lia)) as T.
  pose proof (outer_no_throw level (labelString first) fuel0 first false [])
    as N.
  destruct (outer fuel0 level (labelString first) first false [])
    as [[drawn|]|] eqn:Er; try congruence.
  exists fuel0, first, drawn. split; [reflexivity|]. split.
  - intros fuel Hf. eapply outer_fuel_mono; [exact Hf|exact Er|discriminate].
  - apply outer_added in Er. destruct Er as (added & -> & Hl). cbn [app].
    destruct Hl as [[_ ->]|(labels & -> & Hs & Hu & _)].
    + left. reflexivity.
    + right. exists labels. repeat split; assumption.
Qed.

(** X20. [drawOuterLabels] ends for every level and every pair of bounds, and
    never raises: from some amount of fuel on it gives one and the same list
    of labels.  The list is either the single label of the lower bound,
    anchored in the middle at the pixel of the middle of the axis, or a
    (possibly empty) list of labels anchored at their start, for strictly
    increasing instants none of which lies beyond the upper bound, each at
    the pixel of its instant or of the lower bound, whichever is greater. *)
Theorem outer_labels_end level :
  exists fuel0 first drawn,
    getLevelLabelForValue loc toLocaleDateString level (Some tLowerBoundsMS)
    = Normal first
    /\ (forall fuel, (fuel0 <= fuel)%nat ->
          drawOuterLabels loc toLocaleDateString dataToCoordinate textExtentX
            tOrientation tLowerBoundsMS tUpperBoundsMS tPixelMin tPixelMax
            kDefaultFontHeight kTickLength kAxisGap layoutWidth fuel level
          = Normal (Some drawn))
    /\ (drawn
        = [drawOneOuterLabel tOrientation tPixelMin tPixelMax
             kDefaultFontHeight kTickLength kAxisGap layoutWidth
             (middleCoord dataToCoordinate tLowerBoundsMS tUpperBoundsMS)
             (labelString first) anchorMiddle]
        \/ exists labels,
            drawn = map clamped labels
            /\ StronglySorted Z.lt (map fst labels)
            /\ Forall (fun p => fst p <= tUpperBoundsMS) labels).
Proof. exact (outer_labels_stable level). Qed.

End OuterLabelFacts.
(** ** [drawTicks] *)

Section DrawTicks.

Variable loc : string -> string.
Variable toLocaleDateString : Z -> string.
Variable dataToCoordinate : Q -> Q.
Variable textExtentX : string -> Q.
Variable tOrientation : Orientation.
Variables tLowerBoundsMS tUpperBoundsMS : Z.
Variables tPixelMin tPixelMax : Q.
Variables kDefaultFontHeight kTickLength kAxisGap layoutWidth : Q.

(** There are two levels exactly for spans of less than 3 years of 365
    days. *)
Lemma number_of_levels tLower tUpper :
  (if EDateTimeLevel_eq_dec (outerLevel (determineLevels tLower tUpper))
                            (innerLevel (determineLevels tLower tUpper))
   then 1 else 2)
  = if tUpper - tLower <? 3 * kYear then 2 else 1.
Proof.
  rewrite determineLevels_by_span. unfold levelsForSpan.
  unfold kMonth, kYear, kDay, kHour, kMinute, kSecond.
  repeat match goal with
         | |- context [?a <? ?b] => destruct (Z.ltb_spec a b); try lia
         end; reflexivity.
Qed.

Lemma inner_month_span tLower tUpper :
  innerLevel (determineLevels tLower tUpper) = eMonth ->
  3 * kMonth <= tUpper - tLower < 3 * kYear.
Proof.
  rewrite determineLevels_by_span. unfold levelsForSpan.
  unfold kMonth, kYear, kDay, kHour, kMinute, kSecond.
  repeat match goal with
         | |- context [?a <? ?b] => destruct (Z.ltb_spec a b)
         end; cbn; intros E; try discriminate; lia.
Qed.

(** X21. [drawTicks] ends for all bounds and every value of [maxNumberExtent]:
    from some amount of fuel on it gives one and the same outcome.  With
    equal bounds it does nothing.  Otherwise it needs an extent of two font
    heights for spans of less than 3 years of 365 days and of one font height
    for longer spans: when [maxNumberExtent] differs it sets it and draws
    nothing; when it agrees it draws, without outer labels for the longer
    spans.  It can raise only for spans of at least 90 days and less than
    1095 days, whose inner level is the month level. *)
Theorem draw_ticks_end maxNumberExtent :
  exists fuel0 r,
    (forall fuel, (fuel0 <= fuel)%nat ->
       drawTicks loc toLocaleDateString dataToCoordinate textExtentX
         tOrientation tLowerBoundsMS tUpperBoundsMS tPixelMin tPixelMax
         kDefaultFontHeight kTickLength kAxisGap layoutWidth fuel
         maxNumberExtent = r)
    /\ let span := tUpperBoundsMS - tLowerBoundsMS in
       let need :=
         (inject_Z (if span <? 3 * kYear then 2 else 1)
          * kDefaultFontHeight)%Q in
       match r with
       | Normal None => False
       | Normal (Some NotReady) => span = 0
       | Normal (Some (ExtentSet e)) =>
           span <> 0 /\ e = need
           /\ (forall e0, maxNumberExtent = Some e0 -> ~ (need == e0)%Q)
       | Normal (Some (TicksDrawn outer inner)) =>
           span <> 0
           /\ (exists e0, maxNumberExtent = Some e0 /\ (need == e0)%Q)
           /\ (3 * kYear <= span -> outer = [])
       | Throw => 3 * kMonth <= span < 3 * kYear
       end.
Proof.
  unfold drawTicks. cbv zeta.
  destruct (Z.eqb_spec tUpperBoundsMS tLowerBoundsMS) as [E|Hne].
  { exists 0%nat, (Normal (Some NotReady)). split; [reflexivity|]. lia. }
  rewrite number_of_levels.
  set (n := if tUpperBoundsMS - tLowerBoundsMS <? 3 * kYear then 2 else 1).
  set (need := (inject_Z n * kDefaultFontHeight)%Q).
  set (same := match maxNumberExtent with
               | Some e => Qeq_bool need e
               | None => false
               end).
  destruct same eqn:Es; cbn [negb].
  2:{ exists 0%nat, (Normal (Some (ExtentSet need))).
      split; [reflexivity|]. split; [lia|]. split; [reflexivity|].
      intros e0 -> Hq. apply Qeq_bool_iff in Hq. unfold same in Es.
      congruence. }
  assert (Hsame : exists e0, maxNumberExtent = Some e0 /\ (need == e0)%Q).
  { unfold same in Es. destruct maxNumberExtent as [e0|]; [|discriminate].
    exists e0. split; [reflexivity|]. apply Qeq_bool_iff. exact Es. }
  set (levels := determineLevels tLowerBoundsMS tUpperBoundsMS).
  destruct (inner_labels_stable loc dataToCoordinate textExtentX
              tOrientation tUpperBoundsMS (innerLevel levels)
              tLowerBoundsMS) as (f2 & r2 & Stable2 & P2).
  assert (Outer : exists f1 o,
             forall fuel, (f1 <= fuel)%nat ->
               (if n =? 2
                then drawOuterLabels loc toLocaleDateString dataToCoordinate
                       textExtentX tOrientation tLowerBoundsMS
                       tUpperBoundsMS tPixelMin tPixelMax kDefaultFontHeight
                       kTickLength kAxisGap layoutWidth fuel
                       (outerLevel levels)
                else Normal (Some []))
               = Normal (Some o)
               /\ (3 * kYear <= tUpperBoundsMS - tLowerBoundsMS -> o = [])).
  { unfold n.
    destruct (Z.ltb_spec (tUpperBoundsMS - tLowerBoundsMS) (3 * kYear))
      as [Hs|Hs]; cbn [Z.eqb Pos.eqb].
    - destruct (outer_labels_stable loc toLocaleDateString dataToCoordinate
                  textExtentX tOrientation tLowerBoundsMS tUpperBoundsMS
                  tPixelMin tPixelMax kDefaultFontHeight kTickLength
                  kAxisGap layoutWidth (outerLevel levels))
        as (f1 & first & o & _ & Stable1 & _).
      exists f1, o. intros fuel Hf. split; [exact (Stable1 fuel Hf)|lia].
    - exists 0%nat, []. intros fuel _. split; reflexivity. }
  destruct Outer as (f1 & o & Stable1).
  destruct r2 as [[inner|]|]; [|contradiction|].
  - exists (Nat.max f1 f2), (Normal (Some (TicksDrawn o inner))). split.
    + intros fuel Hf. destruct (Stable1 fuel ltac:(lia)) as [-> _].
      cbn [bindC]. rewrite (Stable2 fuel ltac:(lia)). reflexivity.
    + cbv zeta. split; [lia|]. split; [exact Hsame|].
      destruct (Stable1 f1 (Nat.le_refl f1)) as [_ H]. exact H.
  - exists (Nat.max f1 f2), Throw. split.
    + intros fuel Hf. destruct (Stable1 fuel ltac:(lia)) as [-> _].
      cbn [bindC]. rewrite (Stable2 fuel ltac:(lia)). reflexivity.
    + apply inner_month_span. exact P2.
Qed.

(** X22. When a call of [drawTicks] has set [maxNumberExtent], the next call
    with the same bounds and the extent just set does not set it again: it
    draws (or raises). *)
Theorem extent_set_then_drawn fuel fuel' maxNumberExtent e :
  drawTicks loc toLocaleDateString dataToCoordinate textExtentX tOrientation
    tLowerBoundsMS tUpperBoundsMS tPixelMin tPixelMax kDefaultFontHeight
    kTickLength kAxisGap layoutWidth fuel maxNumberExtent
  = Normal (Some (ExtentSet e)) ->
  match
    drawTicks loc toLocaleDateString dataToCoordinate textExtentX
      tOrientation tLowerBoundsMS tUpperBoundsMS tPixelMin tPixelMax
      kDefaultFontHeight kTickLength kAxisGap layoutWidth fuel' (Some e)
  with
  | Normal (Some NotReady) | Normal (Some (ExtentSet _)) => False
  | _ => True
  end.
Proof.
  unfold drawTicks. cbv zeta.
  destruct (tUpperBoundsMS =? tLowerBoundsMS); [discriminate|].
  set (need := (inject_Z _ * kDefaultFontHeight)%Q).
  destruct (negb match maxNumberExtent with
                 | Some e0 => Qeq_bool need e0
                 | None => false
                 end).
  - intros [= <-]. rewrite Qeq_bool_refl. cbn [negb].
    destruct (if _ =? 2 then _ else _) as [[o|]|]; cbn [bindC];
      [| |exact I];
      (destruct (drawInnerLabels _ _ _ _ _ _ _ _) as [[i|]|];
       cbn [bindC]; exact I).
  - destruct (if _ =? 2 then _ else _) as [[o|]|]; cbn [bindC];
      [| |discriminate];
      (destruct (drawInnerLabels _ _ _ _ _ _ _ _) as [[i|]|];
       cbn [bindC]; discriminate).
Qed.

End DrawTicks.
(** ** Instances

    The theorems above that have hypotheses, at concrete instants of
    2023-03-01: 10:05:00 is 1677665100000, 10:08:00 is 1677665280000. *)

Ltac valid := unfold validTime, farFromEnd, maxTime, msPerDay; lia.
Ltac evaluated :=
  vm_compute; first [reflexivity | discriminate | intro; discriminate].
Ltac span :=
  unfold kYear, kMonth, kDay, kHour, kMinute, kSecond; lia.

Lemma next_label_is_next_aligned_witness :
  exists r,
    instantOf (getNextLevelLabelForValue locKey usDateString eDay
                                         (Some 1677665100000))
    = Normal (Some r)
    /\ aligned eDay r /\ 1677665100000 < r
    /\ forall a, aligned eDay a -> 1677665100000 < a -> r <= a.
Proof.
  apply (next_label_is_next_aligned locKey usDateString eDay 1677665100000);
    [discriminate|valid|evaluated|valid|intros H; discriminate H].
Defined.

Lemma label_rounds_down_witness :
  exists r,
    instantOf (getLevelLabelForValue locKey usDateString eDay
                                     (Some 1677665100000))
    = Normal (Some r)
    /\ aligned eDay r /\ r <= 1677665100000
    /\ forall a, aligned eDay a -> a <= 1677665100000 -> a <= r.
Proof.
  apply (label_rounds_down locKey usDateString eDay 1677665100000);
    [discriminate|valid|evaluated].
Defined.

Lemma label_of_label_witness :
  (do l <- getLevelLabelForValue locKey usDateString eMonth
             (Some 1677665100000);
   instantOf (getLevelLabelForValue locKey usDateString eMonth
                                    (labelDate l)))
  = instantOf (getLevelLabelForValue locKey usDateString eMonth
                                     (Some 1677665100000)).
Proof.
  apply (label_of_label locKey usDateString eMonth 1677665100000);
    [valid|evaluated].
Defined.

Lemma increment_moves_n_grid_points_witness :
  instantOf (getLabelForIncrementedDateAtLevel locKey eMonth
                                               (Some 1677665100000) 11)
  = clipped eMonth (gridPoint eMonth (gridIndex eMonth 1677665100000 + 11)).
Proof.
  apply (increment_moves_n_grid_points locKey eMonth 1677665100000 11);
    [valid|evaluated|lia].
Defined.

Lemma month_increment_fields_witness :
  fieldsOf 1706745600000
  = mkFields ((monthIndex 1677665100000 + 11) / 12)
             ((monthIndex 1677665100000 + 11) mod 12) 1 0 0 0 0.
Proof.
  apply (month_increment_fields locKey 1677665100000 11 1706745600000);
    [valid|evaluated|lia|evaluated].
Defined.

Lemma first_tick_rounds_up_witness :
  exists r,
    instantOf (findFirstDateAboveOrAtLevel locKey eHour (Some 1677665100000))
    = Normal (Some r)
    /\ aligned eHour r /\ 1677665100000 <= r
    /\ forall a, aligned eHour a -> 1677665100000 <= a -> r <= a.
Proof.
  apply (first_tick_rounds_up locKey eHour 1677665100000);
    [discriminate|discriminate|valid|evaluated|valid].
Defined.

Lemma first_tick_of_first_tick_witness :
  (do l <- findFirstDateAboveOrAtLevel locKey eDay (Some 1677665100000);
   instantOf (findFirstDateAboveOrAtLevel locKey eDay (labelDate l)))
  = instantOf (findFirstDateAboveOrAtLevel locKey eDay (Some 1677665100000)).
Proof.
  apply (first_tick_of_first_tick locKey eDay 1677665100000);
    [valid|evaluated].
Defined.


Lemma stride_is_bounded_witness :
  1 <= 2 <= widestStride 1677665280000 (mkLabel "5" (Some 1677665100000)).
Proof.
  apply (stride_is_bounded locKey pixelFrom1005 charExtent horizontal
           1677665280000 20 eMinute (mkLabel "5" (Some 1677665100000)) 2).
  evaluated.
Defined.

Lemma labels_every_stride_ticks_witness :
  exists first k,
    findFirstDateAboveOrAtLevel locKey eMinute (Some 1677665100000)
    = Normal first
    /\ findDrawValueModulus locKey pixelFrom1005 charExtent horizontal
                            1677665280000 20 eMinute first
       = Normal (Some k)
    /\ 1 <= k
    /\ forall i d,
        nth_error
          [ mkDrawn (mkLabel "10:05" (Some 1677665100000)) true;
            mkDrawn (mkLabel "10:06" (Some 1677665160000)) false;
            mkDrawn (mkLabel "10:07" (Some 1677665220000)) true ] i
        = Some d ->
        drawnWithText d = (Z.of_nat i mod k =? 0).
Proof.
  apply (labels_every_stride_ticks locKey pixelFrom1005 charExtent horizontal
           1677665280000 20 eMinute 1677665100000).
  evaluated.
Defined.

Lemma drawn_ticks_are_iterator_ticks_witness :
  exists visited,
    forEachTickDo locKey pixelFrom1005 20 1677665100000 1677665280000
    = Normal (Some visited)
    /\ map (fun d : DrawnTick => labelDate (drawnLabel d))
         [ mkDrawn (mkLabel "10:05" (Some 1677665100000)) true;
           mkDrawn (mkLabel "10:06" (Some 1677665160000)) false;
           mkDrawn (mkLabel "10:07" (Some 1677665220000)) true ]
       = map (fun v => Some (fst v)) visited.
Proof.
  apply (drawn_ticks_are_iterator_ticks locKey pixelFrom1005 charExtent
           horizontal 1677665280000 20 1677665100000);
    [valid|evaluated|valid|span|evaluated].
Defined.


(** One minute after 10:59:00 (1677668340000) is 11:00:00, labelled
    "10:00". *)
Lemma minute_text_keeps_hour_witness :
  labelString (mkLabel "10:00" (Some 1677668400000))
  = (StringOfZ (getHours 1677668340000) ++ ":"
     ++ twoDigits (Some (getMinutes 1677668400000)))%string
  /\ (labelString (mkLabel "10:00" (Some 1677668400000))
      = innerTickText locKey eMinute 1677668400000
      <-> getHours 1677668400000 = getHours 1677668340000).
Proof.
  apply (minute_text_keeps_hour locKey (Some 1677668340000) 1677668340000 1
           (mkLabel "10:00" (Some 1677668400000)) 1677668400000);
    [evaluated|evaluated|reflexivity].
Defined.

(** One second after 10:05:59 (1677665159000) is 10:06:00, labelled
    "10:05:00". *)
Lemma second_text_keeps_hour_and_minute_witness :
  labelString (mkLabel "10:05:00" (Some 1677665160000))
  = (StringOfZ (getHours 1677665159000) ++ ":"
     ++ twoDigits (Some (getMinutes 1677665159000)) ++ ":"
     ++ twoDigits (Some (getSeconds 1677665160000)))%string
  /\ (labelString (mkLabel "10:05:00" (Some 1677665160000))
      = innerTickText locKey eSecond 1677665160000
      <-> getHours 1677665160000 = getHours 1677665159000
          /\ getMinutes 1677665160000 = getMinutes 1677665159000).
Proof.
  apply (second_text_keeps_hour_and_minute locKey (Some 1677665159000)
           1677665159000 1
           (mkLabel "10:05:00" (Some 1677665160000)) 1677665160000);
    [evaluated|evaluated|reflexivity].
Defined.

(** An axis from 10:05:00 to 10:08:00 lies within one day. *)
Lemma one_outer_label_in_the_middle_witness :
  exists fuel0 first,
    getLevelLabelForValue locKey usDateString eDay (Some 1677665100000)
    = Normal first
    /\ forall fuel, (fuel0 <= fuel)%nat ->
         drawOuterLabels locKey usDateString pixelFrom1005 charExtent
           horizontal 1677665100000 1677665280000 0%Q 100%Q 12%Q 6%Q 2%Q
           40%Q fuel eDay
         = Normal
             (Some [drawOneOuterLabel horizontal 0%Q 100%Q 12%Q 6%Q 2%Q 40%Q
                      (middleCoord pixelFrom1005 1677665100000
                                   1677665280000)
                      (labelString first) anchorMiddle]).
Proof.
  apply (one_outer_label_in_the_middle locKey usDateString pixelFrom1005
           charExtent horizontal 1677665100000 1677665280000
           0%Q 100%Q 12%Q 6%Q 2%Q 40%Q eDay);
    [left; reflexivity|valid|evaluated|lia|valid|evaluated].
Defined.

(** An axis from 2023-03-01 10:05:00 to 2023-03-03 12:00:00
    (1677844800000) spans two midnights. *)
Lemma outer_labels_at_grid_points_witness :
  let k0 := gridIndex eDay 1677665100000 in
  let tCoord :=
    pixelFrom1005 (mathMax (toSeconds (gridPoint eDay k0))
                           (toSeconds 1677665100000)) in
  exists fuel0 first second rest,
    getLevelLabelForValue locKey usDateString eDay (Some 1677665100000)
    = Normal first
    /\ getLevelLabelForValue locKey usDateString eDay
         (Some (gridPoint eDay (k0 + 1)))
       = Normal second
    /\ (forall fuel, (fuel0 <= fuel)%nat ->
          drawOuterLabels locKey usDateString pixelFrom1005 charExtent
            horizontal 1677665100000 1677844800000 0%Q 100%Q 12%Q 6%Q 2%Q
            40%Q fuel eDay
          = Normal
              (Some
                 ((if (if gridPoint eDay k0 <? 1677665100000 then
                         negb (Qltb
                                 (7 * Qabs
                                        (pixelFrom1005
                                           (toSeconds
                                              (gridPoint eDay (k0 + 1)))
                                         - tCoord) / 8)%Q
                                 (charExtent (labelString second)))
                       else true)
                   then [drawOneOuterLabel horizontal 0%Q 100%Q 12%Q 6%Q
                           2%Q 40%Q tCoord (labelString first) anchorStart]
                   else [])
                  ++ startLabels pixelFrom1005 horizontal 0%Q 100%Q 12%Q
                       6%Q 2%Q 40%Q rest)))
    /\ StronglySorted Z.lt (map fst rest)
    /\ (forall a, In a (map fst rest)
                  <-> exists j, k0 < j /\ a = gridPoint eDay j
                                /\ a <= 1677844800000)
    /\ Forall (fun p => textOf (getLevelLabelForValue locKey usDateString
                                  eDay (Some (fst p)))
                        = Normal (snd p)) rest.
Proof.
  apply (outer_labels_at_grid_points locKey usDateString pixelFrom1005
           charExtent horizontal 1677665100000 1677844800000
           0%Q 100%Q 12%Q 6%Q 2%Q 40%Q eDay);
    [left; reflexivity|valid|evaluated|valid|evaluated].
Defined.

Lemma extent_set_then_drawn_witness :
  match
    drawTicks locKey usDateString pixelFrom1005 charExtent horizontal
              1677665100000 1677665280000 0%Q 100%Q 12%Q 6%Q 2%Q 40%Q 20
              (Some 24%Q)
  with
  | Normal (Some NotReady) | Normal (Some (ExtentSet _)) => False
  | _ => True
  end.
Proof.
  apply (extent_set_then_drawn locKey usDateString pixelFrom1005 charExtent
           horizontal 1677665100000 1677665280000 0%Q 100%Q 12%Q 6%Q 2%Q
           40%Q 20 20 None 24%Q).
  evaluated.
Defined.
